(** * Data Commons Python client: Query, Node and Frame

    A shallow embedding of [datacommons/datacommons.py]: the [Query] row
    iterator, the [Node] wrapper with its two property caches, and the
    [Frame] tabular view over a pandas [DataFrame].

    Python objects that the code only reads are plain values; dictionaries
    whose order is irrelevant are [gmap]s, dictionaries whose order is
    observable (row maps, JSON payloads that are iterated) are association
    lists.  Methods that raise, mutate [self] or talk to the Graph Service
    live in a small state-and-exception monad. *)

From stdpp Require Import base option list strings gmap fin_maps.
From Stdlib Require Import ZArith.

#[local] Set Warnings "-register-all".
#[local] Open Scope string_scope.
#[local] Open Scope list_scope.

(* ===================================================================== *)
(** ** Python runtime: exceptions, the method monad, builtins            *)
(* ===================================================================== *)

(** The exception classes the module can surface.  [ServiceError] stands for
    whatever [format_response] raises on a failure envelope. *)
Inductive exn : Set :=
  | ValueError | RuntimeError | IndexError | KeyError | AttributeError
  | TypeError | ServiceError.

Inductive result (A : Type) : Type :=
  | Ok (a : A)
  | Raise (e : exn).
Arguments Ok {A} a.
Arguments Raise {A} e.

#[global] Instance exn_eq_dec : EqDecision exn.
Proof. solve_decision. Defined.

(** A computation over a mutable state [S]: the state survives a raise, as
    the fields of a Python object do. *)
Definition M (S A : Type) : Type := S → result A * S.

Definition ret {S A} (a : A) : M S A := λ s, (Ok a, s).
Definition raise {S A} (e : exn) : M S A := λ s, (Raise e, s).
Definition bind {S A B} (m : M S A) (k : A → M S B) : M S B :=
  λ s, match m s with
       | (Ok a, s') => k a s'
       | (Raise e, s') => (Raise e, s')
       end.
Definition get {S} : M S S := λ s, (Ok s, s).
Definition put {S} (s : S) : M S unit := λ _, (Ok tt, s).
Definition lift_result {S A} (r : result A) : M S A := λ s, (r, s).

#[global] Instance result_ret : MRet result := λ A, @Ok A.
#[global] Instance result_bind : MBind result :=
  λ A B k r, match r with Ok a => k a | Raise e => Raise e end.

#[global] Instance M_ret {S} : MRet (M S) := λ A, @ret S A.
#[global] Instance M_bind {S} : MBind (M S) := λ A B k m, bind m k.

(** [for x in xs: f x] where the body may raise; results are collected. *)
Fixpoint for_each {S A B} (f : A → M S B) (xs : list A) : M S (list B) :=
  match xs with
  | [] => ret []
  | x :: xs' => y ← f x; ys ← for_each f xs'; ret (y :: ys)
  end.

(** Truthiness of a string and of an attribute that may be [None]. *)
Definition truthy (s : string) : bool := negb (String.eqb s "").
Definition truthy_opt (o : option string) : bool :=
  match o with Some s => truthy s | None => false end.

(** ['{}'.format(x)] for a string attribute that may be [None]. *)
Definition py_format (o : option string) : string := default "None" o.

(** [l[:k]] with Python's reading of a negative bound. *)
Definition py_slice_to {A} (l : list A) (k : Z) : list A :=
  if (0 <=? k)%Z then take (Z.to_nat k) l
  else take (length l - Z.to_nat (- k)) l.

(** [str.isnumeric]: non-empty and numeric characters only.  A character
    of a string stands for the code point of its number, so a string holds
    code points below 256.  The numeric ones among these are the digits
    (48 to 57), the superscripts two, three and one (178, 179, 185) and the
    fractions one quarter, one half and three quarters (188 to 190). *)
Definition is_numeric_char (c : Ascii.ascii) : bool :=
  let n := Ascii.nat_of_ascii c in
  (Nat.leb 48 n && Nat.leb n 57)
  || Nat.eqb n 178 || Nat.eqb n 179 || Nat.eqb n 185
  || (Nat.leb 188 n && Nat.leb n 190).
Fixpoint all_numeric (s : string) : bool :=
  match s with
  | EmptyString => true
  | String c s' => is_numeric_char c && all_numeric s'
  end.
Definition isnumeric (s : string) : bool := truthy s && all_numeric s.

(** A scalar held in a table cell or sent in a request: a string, a
    number, pandas' missing value, or [None]. *)
Inductive value : Set :=
  | VStr (s : string)
  | VInt (z : Z)
  | VNaN
  | VNone.

#[global] Instance value_eq_dec : EqDecision value.
Proof. solve_decision. Defined.

Definition value_of_opt (o : option string) : value :=
  match o with Some s => VStr s | None => VNone end.

(** Ordered dictionaries with string keys: [d[k] = v] keeps the place of a
    key that is already there. *)
Fixpoint od_set {V} (k : string) (v : V) (d : list (string * V))
    : list (string * V) :=
  match d with
  | [] => [(k, v)]
  | (k', v') :: d' =>
      if String.eqb k' k then (k, v) :: d' else (k', v') :: od_set k v d'
  end.

Definition assoc_get {V} (k : string) (d : list (string * V)) : option V :=
  snd <$> List.find (λ kv, String.eqb (fst kv) k) d.

(** [''.join(names)]. *)
Definition str_join (names : list string) : string :=
  foldr String.append "" names.

(** What CPython leaves open: the hash of a string and the iteration order
    of a [set].  A set is represented by the list of its elements in
    iteration order; [set_order] turns the insertion order into that one. *)
Class PyRuntime := {
  hash_str : string → Z;
  set_order : ∀ A : Type, list A → list A;
  set_order_perm : ∀ (A : Type) (l : list A), set_order A l ≡ₚ l
}.
Arguments set_order {_ A} l.

(** Insertion order is one admissible iteration order. *)
Definition insertion_order_runtime (h : string → Z) : PyRuntime :=
  {| hash_str := h;
     set_order := λ A l, l;
     set_order_perm := λ A l, reflexivity l |}.

(** Sets of strings (type labels, column names): [set(l)] and
    [set(s) & set(t)]. *)
Section str_sets.
Context {rt : PyRuntime}.

Definition str_set (l : list string) : list string :=
  set_order (remove_dups l).
Definition str_set_inter (s t : list string) : list string :=
  set_order (List.filter (λ x, bool_decide (x ∈ t)) (remove_dups s)).

End str_sets.

(* ===================================================================== *)
(** ** Node                                                              *)
(* ===================================================================== *)

(** A [Node] object.  [_oid] is the identity of the Python object (what
    [is] compares); the remaining fields are the instance variables. *)
Inductive Node : Type := mkNode {
  _oid : nat;
  _dcid : option string;
  _name : option string;
  _value : option string;
  _types : list string;
  _in_props : gmap string (list Node);
  _out_props : gmap string (list Node)
}.

(** The value passed as [node=]: a [Node] instance or anything else. *)
Inductive pyarg : Type :=
  | ArgNode (n : Node)
  | ArgOther.

(** The keyword arguments [Node.__init__] looks at; [None] is "not in
    kwargs". *)
Record kwargs : Type := {
  kw_node : option pyarg;
  kw_id : option string;
  kw_dcid : option string;
  kw_value : option string;
  kw_name : option string;
  kw_types : option (list string)
}.

(** One JSON object of a property-value payload, passed as keyword
    arguments to the [Node] constructor. *)
Record entry : Type := {
  e_id : option string;
  e_dcid : option string;
  e_value : option string;
  e_name : option string;
  e_types : option (list string)
}.

Definition kwargs_of_entry (e : entry) : kwargs :=
  {| kw_node := None; kw_id := e_id e; kw_dcid := e_dcid e;
     kw_value := e_value e; kw_name := e_name e; kw_types := e_types e |}.

(** The body of a GetPropertyValue request ([req_json]). *)
Record gpv_request : Type := {
  req_dcids : list value;
  req_property : string;
  req_outgoing : bool;
  req_reload : bool;
  req_limit : Z;
  req_value_type : option string
}.

(** Requests sent to the Graph Service, in the order they were sent. *)
Inductive call : Type :=
  | GetNode (dcid : string)
  | GetPropertyValue (req : gpv_request)
  | GetTriple (dcid : option string) (limit : Z) (reload : bool)
  | RunQuery (sparql : string).

Definition is_property_fetch (c : call) : bool :=
  match c with GetPropertyValue _ => true | _ => false end.

(** How many property-value fetches a log holds. *)
Definition fetches (cs : list call) : nat :=
  length (List.filter is_property_fetch cs).

(** The payload of [get_node]: either key may be missing. *)
Record node_info : Type := {
  info_name : option string;
  info_types : option (list string)
}.

(** One JSON object of a triples payload; every key may be missing. *)
Record triple_json : Type := {
  t_subjectId : option string;
  t_subjectName : option string;
  t_subjectTypes : option (list string);
  t_predicate : option string;
  t_objectId : option string;
  t_objectName : option string;
  t_objectTypes : option (list string);
  t_objectValue : option string
}.

(** dcid -> property -> entries, in the order of the JSON object. *)
Definition gpv_payload : Type := list (string * list (string * list entry)).

(** The result of a query: [header] and [rows], each row with its [cells],
    each cell with or without a [value]. *)
Record cell_json : Type := { cell_value : option string }.
Record row_json : Type := { row_cells : list cell_json }.
Record query_result : Type := {
  res_header : list string;
  res_rows : list row_json
}.
Inductive query_response : Type :=
  | QueryMessage (message : string)
  | QueryResult (r : query_result).

(** The Graph Service as the client sees it: what a request returns, given
    the requests made before it; [None] is a failure envelope. *)
Class GraphService := {
  svc_get_node : list call → string → option node_info;
  svc_get_property_value : list call → gpv_request → option gpv_payload;
  svc_get_triple :
    list call → option string → Z → bool → option (option (list triple_json));
  svc_query : list call → string → option query_response
}.

(** What lives outside the objects: the allocator of object identities and
    the log of requests. *)
Record world : Type := { next_oid : nat; calls : list call }.

Section node.
Context {rt : PyRuntime} {svc : GraphService}.

(** Modelled from the spec: [format_response] and the HTTP exchange
    ([datacommons.utils] and [requests], not under src/).  A request is
    logged, the service answers, and a failure envelope is raised as a
    service error. *)
Definition service_call {A} (c : call) (answer : list call → option A)
    : M world A :=
  λ w, let w' := {| next_oid := next_oid w; calls := calls w ++ [c] |} in
       match answer (calls w) with
       | Some a => (Ok a, w')
       | None => (Raise ServiceError, w')
       end.

(** A fresh object identity. *)
Definition alloc : M world nat :=
  λ w, (Ok (next_oid w), {| next_oid := S (next_oid w); calls := calls w |}).

(** [copy.deepcopy] of a prop cache.  Every node in the copy is a new
    object: the objects allocated so far have identities below [next_oid],
    and the copy of object [i] is object [next_oid + i], so two places that
    held one object hold one copy, as with deepcopy's memo. *)
Fixpoint relocate (base : nat) (n : Node) : Node :=
  {| _oid := base + _oid n; _dcid := _dcid n; _name := _name n;
     _value := _value n; _types := _types n;
     _in_props := fmap (M := gmap string) (map (relocate base)) (_in_props n);
     _out_props := fmap (M := gmap string) (map (relocate base)) (_out_props n) |}.

Definition deepcopy (c : gmap string (list Node))
    : M world (gmap string (list Node)) :=
  λ w, (Ok (map (relocate (next_oid w)) <$> c),
        {| next_oid := next_oid w + next_oid w; calls := calls w |}).

(** The [dcid] keyword after [id] has been copied into it. *)
Definition dcid_or_id (kw : kwargs) : option string :=
  match kw_id kw, kw_dcid kw with
  | Some i, None => Some i
  | _, d => d
  end.

(** [Node.__init__]. *)
Definition Node_init (kw : kwargs) : M world Node :=
  match kw_node kw with
  | Some (ArgNode n) =>
      o ← alloc;
      in_props ← deepcopy (_in_props n);
      out_props ← deepcopy (_out_props n);
      mret {| _oid := o; _dcid := _dcid n; _name := _name n;
              _value := _value n; _types := _types n;
              _in_props := in_props; _out_props := out_props |}
  | Some ArgOther => raise ValueError
  | None =>
      match dcid_or_id kw, kw_value kw with
      | None, None => raise ValueError
      | Some _, Some _ => raise ValueError
      | Some d, None =>
          o ← alloc;
          '(name, types) ←
            match kw_name kw, kw_types kw with
            | Some nm, Some ts => mret (Some nm, ts)
            | _, _ =>
                payload ← service_call (GetNode d) (λ cs, svc_get_node cs d);
                mret (match kw_name kw with
                      | Some nm => Some nm
                      | None => info_name payload
                      end,
                      match kw_types kw with
                      | Some ts => ts
                      | None => default [] (info_types payload)
                      end)
            end;
          mret {| _oid := o; _dcid := Some d; _name := name; _value := None;
                  _types := types; _in_props := ∅; _out_props := ∅ |}
      | None, Some v =>
          o ← alloc;
          mret {| _oid := o; _dcid := None; _name := None; _value := Some v;
                  _types := []; _in_props := ∅; _out_props := ∅ |}
      end
  end.

(** [Node.__eq__] and [Node.__ne__]. *)
Definition Node_eq (self other : Node) : bool :=
  truthy_opt (_dcid self) && truthy_opt (_dcid other)
  && bool_decide (_dcid self = _dcid other).
Definition Node_ne (self other : Node) : bool := negb (Node_eq self other).

(** [Node.is_leaf]. *)
Definition is_leaf (self : Node) : bool := truthy_opt (_value self).

(** [Node.__hash__]: [hash_key] is the string handed to [hash]. *)
Definition hash_key (self : Node) : string :=
  if is_leaf self then "value:" +:+ py_format (_value self)
  else "dcid:" +:+ py_format (_dcid self).
Definition Node_hash (self : Node) : Z := hash_str (hash_key self).

(** *** Sets of nodes

    An element already in a set matches a probe when it is the same object
    or hashes alike and compares equal. *)
Definition same_key (existing probe : Node) : bool :=
  Nat.eqb (_oid existing) (_oid probe)
  || (Z.eqb (Node_hash existing) (Node_hash probe) && Node_eq existing probe).

Definition node_set_add (x : Node) (s : list Node) : list Node :=
  if existsb (λ y, same_key y x) s then s else s ++ [x].

(** The elements of [t] added to [s], one after the other. *)
Definition add_all (s t : list Node) : list Node :=
  foldl (λ s x, node_set_add x s) s t.

(** [set(l)] and [s.union(t)]. *)
Definition node_set (l : list Node) : list Node := set_order (add_all [] l).
Definition node_set_union (s t : list Node) : list Node :=
  set_order (add_all s t).

(** [x in l] on a list of nodes. *)
Definition py_in (x : Node) (l : list Node) : bool :=
  existsb (λ y, Nat.eqb (_oid x) (_oid y) || Node_eq x y) l.

(** *** The prop caches *)

(** The body of a loop of [_update_props], for the property [p] of the
    update and its values. *)
Definition update_one (cache : gmap string (list Node))
    (pv : string * list Node) : gmap string (list Node) :=
  let cache' := match cache !! pv.1 with
                | None => <[pv.1 := []]> cache
                | Some _ => cache
                end in
  <[pv.1 := node_set_union (node_set (default [] (cache' !! pv.1))) pv.2]>
    cache'.

(** One loop of [_update_props]: [for p in props: ...] over the update
    [props] (a [defaultdict(set)], keys in insertion order). *)
Definition update_cache (cache : gmap string (list Node))
    (props : list (string * list Node)) : gmap string (list Node) :=
  foldl update_one cache props.

(** [Node._update_props]. *)
Definition _update_props (in_props out_props : list (string * list Node))
    (self : Node) : Node :=
  {| _oid := _oid self; _dcid := _dcid self; _name := _name self;
     _value := _value self; _types := _types self;
     _in_props := update_cache (_in_props self) in_props;
     _out_props := update_cache (_out_props self) out_props |}.

(** Methods of a node run over the node and the world. *)
Definition in_world {S A} (m : M world A) : M (S * world) A :=
  λ '(self, w), let '(r, w') := m w in (r, (self, w')).
Definition get_self {S} : M (S * world) S := λ s, (Ok (fst s), s).
Definition on_self {S} (f : S → S) : M (S * world) unit :=
  λ '(self, w), (Ok tt, (f self, w)).

(** The cache check that opens [get_property_values]: the truncated cached
    list when the cache for [prop] in the asked direction meets [limit]. *)
Definition cached_values (self : Node) (prop : string) (outgoing : bool)
    (limit : Z) : option (list Node) :=
  let check (cache : gmap string (list Node)) :=
    match cache !! prop with
    | Some l =>
        if (limit <=? Z.of_nat (length l))%Z then Some (py_slice_to l limit)
        else None
    | None => None
    end in
  if outgoing then check (_out_props self) else check (_in_props self).

Definition gpv_request_of (self : Node) (prop : string) (outgoing : bool)
    (value_type : option string) (reload : bool) (limit : Z) : gpv_request :=
  {| req_dcids := [value_of_opt (_dcid self)]; req_property := prop;
     req_outgoing := outgoing; req_reload := reload; req_limit := limit;
     req_value_type := if truthy_opt value_type then value_type else None |}.

(** The entries [payload[self._dcid][prop]], when both keys are there. *)
Definition payload_entries (self : Node) (prop : string)
    (payload : gpv_payload) : list entry :=
  match _dcid self with
  | Some d =>
      match assoc_get d payload with
      | Some props => default [] (assoc_get prop props)
      | None => []
      end
  | None => []
  end.

(** [Node.get_property_values]. *)
Definition get_property_values (prop : string) (outgoing : bool)
    (value_type : option string) (reload : bool) (limit : Z)
    : M (Node * world) (list Node) :=
  self ← get_self;
  match cached_values self prop outgoing limit with
  | Some vals => mret vals
  | None =>
      let req := gpv_request_of self prop outgoing value_type reload limit in
      payload ← in_world (service_call (GetPropertyValue req)
                            (λ cs, svc_get_property_value cs req));
      nodes ← in_world (for_each (λ e, Node_init (kwargs_of_entry e))
                          (payload_entries self prop payload));
      let prop_vals := node_set nodes in
      let in_props := if outgoing then [] else [(prop, prop_vals)] in
      let out_props := if outgoing then [(prop, prop_vals)] else [] in
      on_self (_update_props in_props out_props);;
      mret prop_vals
  end.

(** An end of a returned triple: a [Node], or the raw identifier or
    value. *)
Inductive endpoint : Type :=
  | AsNode (n : Node)
  | AsText (s : string).

(** [t[key]]. *)
Definition item {S A} (o : option A) : M S A :=
  match o with Some a => mret a | None => raise KeyError end.

Definition copy_of (self : Node) : kwargs :=
  {| kw_node := Some (ArgNode self); kw_id := None; kw_dcid := None;
     kw_value := None; kw_name := None; kw_types := None |}.

(** The body of the loop of [get_triples] over [payload['triples']]: the
    triples one payload entry adds. *)
Definition triple_of (self : Node) (as_node : bool) (t : triple_json)
    : M world (list (endpoint * string * endpoint)) :=
  if as_node then
    match t_subjectId t, t_objectId t with
    | Some subject_id, Some object_id =>
        if bool_decide (Some subject_id = _dcid self) then
          object_types ← item (t_objectTypes t);
          sub ← Node_init (copy_of self);
          obj ← Node_init {| kw_node := None; kw_id := None;
                             kw_dcid := Some object_id; kw_value := None;
                             kw_name := t_objectName t;
                             kw_types := Some object_types |};
          predicate ← item (t_predicate t);
          mret [(AsNode sub, predicate, AsNode obj)]
        else
          subject_types ← item (t_subjectTypes t);
          sub ← Node_init {| kw_node := None; kw_id := None;
                             kw_dcid := Some subject_id; kw_value := None;
                             kw_name := t_subjectName t;
                             kw_types := Some subject_types |};
          obj ← Node_init (copy_of self);
          predicate ← item (t_predicate t);
          mret [(AsNode sub, predicate, AsNode obj)]
    | _, _ =>
        match t_objectValue t with
        | Some v =>
            sub ← Node_init (copy_of self);
            obj ← Node_init {| kw_node := None; kw_id := None;
                               kw_dcid := None; kw_value := Some v;
                               kw_name := None; kw_types := None |};
            predicate ← item (t_predicate t);
            mret [(AsNode sub, predicate, AsNode obj)]
        | None => mret []
        end
    end
  else
    match t_objectId t, t_objectValue t with
    | Some object_id, _ =>
        subject_id ← item (t_subjectId t);
        predicate ← item (t_predicate t);
        mret [(AsText subject_id, predicate, AsText object_id)]
    | None, Some v =>
        subject_id ← item (t_subjectId t);
        predicate ← item (t_predicate t);
        mret [(AsText subject_id, predicate, AsText v)]
    | None, None => mret []
    end.

(** [props[p].add(o)] on a [defaultdict(set)]. *)
Definition props_add (p : string) (o : Node) (props : list (string * list Node))
    : list (string * list Node) :=
  od_set p (node_set_add o (default [] (assoc_get p props))) props.

(** The second loop of [get_triples]: the two updates built from the
    triples, as [(in_props, out_props)]. *)
Definition triple_props (self : Node)
    (triples : list (endpoint * string * endpoint))
    : list (string * list Node) * list (string * list Node) :=
  let '(in_props, out_props) :=
    foldl (λ acc t,
             match t with
             | (AsNode s, p, AsNode o) =>
                 if Node_eq s self then (acc.1, props_add p o acc.2)
                 else (props_add p o acc.1, acc.2)
             | _ => acc
             end)
          ([], []) triples in
  (prod_map id set_order <$> in_props, prod_map id set_order <$> out_props).

(** [Node.get_triples]. *)
Definition get_triples (as_node reload : bool) (limit : Z)
    : M (Node * world) (list (endpoint * string * endpoint)) :=
  self ← get_self;
  payload ← in_world (service_call (GetTriple (_dcid self) limit reload)
                        (λ cs, svc_get_triple cs (_dcid self) limit reload));
  match payload with
  | None => mret []
  | Some ts =>
      added ← in_world (for_each (triple_of self as_node) ts);
      let triples := concat added in
      (if as_node then
         let '(in_props, out_props) := triple_props self triples in
         on_self (_update_props in_props out_props)
       else mret tt);;
      mret triples
  end.

End node.

(* ===================================================================== *)
(** ** Query                                                             *)
(* ===================================================================== *)

(** A [Query] object; [_result] is [None] until the query has run. *)
Record Query : Type := {
  _query : string;
  _language : string;
  _result : option query_result
}.

(** What a consumer of the [rows] generator sees: the rows yielded, and the
    exception that ended the iteration, if one did. *)
Record iteration (A : Type) : Type := {
  yielded : list A;
  raised : option exn
}.
Arguments yielded {A} i.
Arguments raised {A} i.

Section query.
Context {svc : GraphService}.

(** [Query.__init__]: [sparql] is the keyword argument, when given. *)
Definition Query_init (sparql : option string) : result Query :=
  match sparql with
  | Some q => Ok {| _query := q; _language := "sparql"; _result := None |}
  | None => Raise ValueError
  end.

(** [Query._execute]. *)
Definition _execute : M (Query * world) unit :=
  self ← get_self;
  res_json ← in_world (λ w,
    let w' := {| next_oid := next_oid w;
                 calls := calls w ++ [RunQuery (_query self)] |} in
    match svc_query (calls w) (_query self) with
    | Some r => (Ok r, w')
    | None => (Raise ServiceError, w')
    end);
  match res_json with
  | QueryMessage _ => raise RuntimeError
  | QueryResult r =>
      on_self (λ q, {| _query := _query q; _language := _language q;
                       _result := Some r |})
  end.

(** The inner loop of [rows]: [for idx, cell in enumerate(row['cells'])],
    from position [idx] on, filling [row_map]. *)
Fixpoint fill_row_map (header : list string) (idx : nat)
    (cells : list cell_json) (row_map : list (string * string))
    : result (list (string * string)) :=
  match cells with
  | [] => Ok row_map
  | cell :: cells' =>
      if Nat.ltb (length header) idx then Raise RuntimeError
      else match cell_value cell with
           | None => Raise RuntimeError
           | Some v =>
               match header !! idx with
               | None => Raise IndexError
               | Some cell_var =>
                   fill_row_map header (S idx) cells'
                     (od_set cell_var v row_map)
               end
           end
  end.

(** The outer loop of [rows]: rows are yielded until one is malformed. *)
Fixpoint iterate_rows (header : list string)
    (select : option (list (string * string) → bool))
    (rows : list row_json) : iteration (list (string * string)) :=
  match rows with
  | [] => {| yielded := []; raised := None |}
  | row :: rows' =>
      match fill_row_map header 0 (row_cells row) [] with
      | Raise e => {| yielded := []; raised := Some e |}
      | Ok row_map =>
          let rest := iterate_rows header select rows' in
          let keep := match select with
                      | None => true
                      | Some f => f row_map
                      end in
          {| yielded := if keep then row_map :: yielded rest
                        else yielded rest;
             raised := raised rest |}
      end
  end.

(** [Query.rows], consumed to its end. *)
Definition rows (select : option (list (string * string) → bool))
    (s : Query * world)
    : iteration (list (string * string)) * (Query * world) :=
  let '(r, s') := match _result (fst s) with
                  | Some _ => (Ok tt, s)
                  | None => _execute s
                  end in
  match r, _result (fst s') with
  | Raise e, _ => ({| yielded := []; raised := Some e |}, s')
  | Ok _, Some res =>
      (iterate_rows (res_header res) select (res_rows res), s')
  | Ok _, None => ({| yielded := []; raised := Some TypeError |}, s')
  end.

End query.

(* ===================================================================== *)
(** ** pandas                                                            *)
(* ===================================================================== *)

(** A [DataFrame]: the column labels, and the rows, each aligned with the
    labels.  Rows are positional: the index is the row number. *)
Record DataFrame : Type := {
  df_columns : list string;
  df_rows : list (list value)
}.

(** The [data] argument: a list of row dictionaries, or a dictionary from
    column name to the values of the column. *)
Inductive frame_data : Type :=
  | RowData (rows : list (list (string * value)))
  | ColData (cols : list (string * list value)).

Inductive join_kind : Set := JLeft | JRight | JInner | JOuter.

(** Keys of a row dictionary not seen so far, in their order. *)
Definition row_keys (cols : list string) (row : list (string * value))
    : list string :=
  foldl (λ cs kv, if bool_decide (kv.1 ∈ cs) then cs else cs ++ [kv.1])
        cols row.

(** [pd.DataFrame(data)]: columns in order of first appearance, absent
    cells missing; columns of unequal length are refused.  A cell is kept
    as it is passed, which is what pandas does in a column of strings and
    in a column of numbers none of which is missing; the types pandas
    infers for other columns ([None] among numbers becomes NaN, and the
    numbers floats) are outside this model. *)
Definition pd_DataFrame (data : frame_data) : result DataFrame :=
  match data with
  | RowData rows =>
      let cols := foldl row_keys [] rows in
      Ok {| df_columns := cols;
            df_rows := map (λ row,
                         map (λ c, default VNaN (assoc_get c row)) cols)
                         rows |}
  | ColData cols =>
      let n := match cols with [] => 0 | kv :: _ => length kv.2 end in
      if forallb (λ kv, Nat.eqb (length kv.2) n) cols
      then Ok {| df_columns := map fst cols;
                 df_rows := map (λ i,
                              map (λ kv, default VNaN (kv.2 !! i)) cols)
                              (seq 0 n) |}
      else Raise ValueError
  end.

(** [df.reset_index(drop=True)]: rows are already numbered from 0. *)
Definition reset_index (df : DataFrame) : DataFrame := df.

(** [df.empty]: some axis has length 0. *)
Definition df_empty (df : DataFrame) : bool :=
  match df_columns df, df_rows df with
  | [], _ | _, [] => true
  | _, _ => false
  end.

(** [c in df]. *)
Definition df_contains (c : string) (df : DataFrame) : bool :=
  bool_decide (c ∈ df_columns df).

Fixpoint index_of (c : string) (cols : list string) : option nat :=
  match cols with
  | [] => None
  | c' :: cols' => if String.eqb c' c then Some 0 else S <$> index_of c cols'
  end.

(** The cell of [row] under column [c]. *)
Definition row_get (cols : list string) (c : string) (row : list value)
    : option value :=
  i ← index_of c cols; row !! i.

(** The cells of [row] under the columns that satisfy [p]. *)
Definition keep_where (p : string → bool) (cols : list string)
    (row : list value) : list value :=
  snd <$> List.filter (λ cv, p cv.1) (zip cols row).

(** [df.assign(k=v)] and [df[k] = v] for a scalar [v]: an existing column
    is overwritten, a new one is appended. *)
Definition df_assign (k : string) (v : value) (df : DataFrame) : DataFrame :=
  if df_contains k df then
    {| df_columns := df_columns df;
       df_rows := map (λ row,
                    zip_with (λ c x, if String.eqb c k then v else x)
                             (df_columns df) row) (df_rows df) |}
  else
    {| df_columns := df_columns df ++ [k];
       df_rows := map (λ row, row ++ [v]) (df_rows df) |}.

(** [df.drop(k, 1)]. *)
Definition df_drop (k : string) (df : DataFrame) : result DataFrame :=
  if df_contains k df then
    Ok {| df_columns := List.filter (λ c, negb (String.eqb c k))
                                    (df_columns df);
          df_rows := map (keep_where (λ c, negb (String.eqb c k))
                                     (df_columns df)) (df_rows df) |}
  else Raise KeyError.

(** [df[col_names].copy()]. *)
Definition df_select (col_names : list string) (df : DataFrame)
    : result DataFrame :=
  if forallb (λ c, df_contains c df) col_names then
    Ok {| df_columns := col_names;
          df_rows := map (λ row,
                       map (λ c, default VNaN (row_get (df_columns df) c row))
                           col_names) (df_rows df) |}
  else Raise KeyError.

(** [list(df[c])]. *)
Definition df_column (c : string) (df : DataFrame) : result (list value) :=
  if df_contains c df then
    Ok (map (λ row, default VNaN (row_get (df_columns df) c row)) (df_rows df))
  else Raise KeyError.

(** [left.merge(right, how=how, on=on)] where [on] holds every column the
    two frames share.  The columns are those of [left] followed by the
    columns of [right] outside [on]; the rows follow the left frame, then
    the right one.  (For an outer join pandas sorts the rows by key; here
    the unmatched right rows come last.)  Keys are compared cell by cell,
    as pandas does when the key columns of both frames hold strings, or
    numbers: pandas refuses to join a column of numbers with a column of
    strings, and turns the numbers of a column into floats where the join
    leaves a cell missing; both are outside this model. *)
Definition df_merge (how : join_kind) (on : list string)
    (left right : DataFrame) : DataFrame :=
  let lc := df_columns left in
  let rc := df_columns right in
  let off (c : string) := negb (bool_decide (c ∈ on)) in
  let key (cols : list string) (row : list value) :=
    map (λ c, row_get cols c row) on in
  let agree (l r : list value) := bool_decide (key lc l = key rc r) in
  let joined (l r : list value) := l ++ keep_where off rc r in
  let left_only (l : list value) :=
    l ++ map (λ _, VNaN) (List.filter off rc) in
  let right_only (r : list value) :=
    map (λ c, if off c then VNaN else default VNaN (row_get rc c r)) lc
    ++ keep_where off rc r in
  let from_left (keep_unmatched : bool) :=
    flat_map (λ l, match List.filter (agree l) (df_rows right) with
                   | [] => if keep_unmatched then [left_only l] else []
                   | rs => map (joined l) rs
                   end) (df_rows left) in
  let from_right :=
    flat_map (λ r, match List.filter (λ l, agree l r) (df_rows left) with
                   | [] => [right_only r]
                   | ls => map (λ l, joined l r) ls
                   end) (df_rows right) in
  let unmatched_right :=
    List.filter (λ r, negb (existsb (λ l, agree l r) (df_rows left)))
                (df_rows right) in
  {| df_columns := lc ++ List.filter off rc;
     df_rows := match how with
                | JInner => from_left false
                | JLeft => from_left true
                | JRight => from_right
                | JOuter => from_left true ++ map right_only unmatched_right
                end |}.

(** [left.merge(right)]: an inner join on the columns the frames share;
    pandas refuses to merge when they share none. *)
Definition df_merge_common (left right : DataFrame) : result DataFrame :=
  match List.filter (λ c, df_contains c right) (df_columns left) with
  | [] => Raise ValueError
  | on => Ok (df_merge JInner on left right)
  end.

(** [pd.concat([a, b])]: the rows of [a], then the rows of [b], over the
    columns of [a] followed by the new columns of [b]. *)
Definition pd_concat (a b : DataFrame) : DataFrame :=
  let cols := df_columns a
              ++ List.filter (λ c, negb (df_contains c a)) (df_columns b) in
  let widen (df : DataFrame) :=
    map (λ row, map (λ c, default VNaN (row_get (df_columns df) c row)) cols)
        (df_rows df) in
  {| df_columns := cols; df_rows := widen a ++ widen b |}.

(** [df.fillna(default)]: NaN and [None] cells are filled. *)
Definition df_fillna (default : value) (df : DataFrame) : DataFrame :=
  {| df_columns := df_columns df;
     df_rows := map (map (λ x, match x with
                               | VNaN | VNone => default
                               | _ => x
                               end))
                    (df_rows df) |}.

(** [df.rename(index=str, columns=labels)]. *)
Definition df_rename (labels : gmap string string) (df : DataFrame)
    : DataFrame :=
  {| df_columns := map (λ c, default c (labels !! c)) (df_columns df);
     df_rows := df_rows df |}.

(** [df[k] = vals] for a list [vals].  The list must be as long as the
    index; a frame without rows takes its index from the list, and the
    cells of its columns are missing.  A column [k] that is there is
    overwritten, a new one is appended.  The values are stored as they are
    passed, which is what pandas does for a list without missing value;
    in a list of numbers with [None] or NaN pandas stores NaN and floats,
    which is outside this model. *)
Definition df_set_column (k : string) (vals : list value) (df : DataFrame)
    : result DataFrame :=
  let rows := match df_rows df with
              | [] => map (λ _, map (λ _, VNaN) (df_columns df)) vals
              | rows => rows
              end in
  let set (row : list value) (v : value) :=
    if df_contains k df
    then zip_with (λ c x, if String.eqb c k then v else x) (df_columns df) row
    else row ++ [v] in
  if Nat.eqb (length vals) (length rows) then
    Ok {| df_columns := if df_contains k df then df_columns df
                        else df_columns df ++ [k];
          df_rows := zip_with set rows vals |}
  else Raise ValueError.

(* ===================================================================== *)
(** ** Frame                                                             *)
(* ===================================================================== *)

(** A type label in a column's type list; [None] when the caller left the
    type of an expanded column out. *)
Abbreviation label := (option string).

(** A [Frame] object. *)
Record Frame : Type := {
  _dataframe : DataFrame;
  _col_types : gmap string (list label)
}.

(** [filter] with a predicate that may raise. *)
Fixpoint filter_r {A} (p : A → result bool) (l : list A) : result (list A) :=
  match l with
  | [] => Ok []
  | x :: l' =>
      b ← p x;
      rest ← filter_r p l';
      Ok (if b : bool then x :: rest else rest)
  end.

(** A method of a frame that needs no service. *)
Definition in_self {S A} (m : M S A) : M (S * world) A :=
  λ '(self, w), let '(r, self') := m self in (r, (self', w)).

Section frame.
Context {rt : PyRuntime} {svc : GraphService}.

(** [Frame.__init__]. *)
Definition Frame_init (data : frame_data)
    (type_hint : gmap string (list label))
    (process : option (DataFrame → DataFrame)) : result Frame :=
  pd_frame ← pd_DataFrame data;
  let pd_frame := match process with
                  | Some f => f pd_frame
                  | None => pd_frame
                  end in
  if forallb (λ col, bool_decide (is_Some (type_hint !! col)))
             (df_columns pd_frame)
  then Ok {| _dataframe := reset_index pd_frame; _col_types := type_hint |}
  else Raise ValueError.

(** [Frame.columns]. *)
Definition columns (self : Frame) : list string := df_columns (_dataframe self).

(** [self._col_types[col]]. *)
Definition col_types_at (col : string) (self : Frame) : result (list label) :=
  match _col_types self !! col with
  | Some ts => Ok ts
  | None => Raise KeyError
  end.

(** [Frame.types]. *)
Definition types (col_name : string) (self : Frame) : result (list label) :=
  if bool_decide (col_name ∈ columns self) then col_types_at col_name self
  else Raise ValueError.

(** [Frame.pandas]. *)
Definition pandas (col_names : option (list string))
    (ignore_populations : bool) (self : Frame) : result DataFrame :=
  let col_names := match col_names with
                   | None | Some [] => df_columns (_dataframe self)
                   | Some names => names
                   end in
  col_names ←
    (if ignore_populations then
       filter_r (λ name, ts ← col_types_at name self;
                         Ok (bool_decide (Some "StatisticalPopulation" ∈ ts)))
                col_names
     else Ok col_names);
  df_select col_names (_dataframe self).

(** [Frame.rename]. *)
Definition rename (labels : gmap string string) : M Frame unit :=
  λ self,
    let step (acc : result (gmap string (list label))) (col : string) :=
      col_types ← acc;
      ts ← col_types_at col self;
      Ok (<[default col (labels !! col) := ts]> col_types) in
    match foldl step (Ok ∅) (df_columns (_dataframe self)) with
    | Raise e => (Raise e, self)
    | Ok col_types =>
        (Ok tt, {| _dataframe := df_rename labels (_dataframe self);
                   _col_types := col_types |})
    end.

(** [Frame.clear]. *)
Definition clear : M Frame unit :=
  λ _, (Ok tt, {| _dataframe := {| df_columns := []; df_rows := [] |};
                  _col_types := ∅ |}).

(** [Frame._update_col_types], for type lists. *)
Definition _update_col_types (new_col_types : gmap string (list label))
    : M Frame unit :=
  λ self,
    (Ok tt,
     {| _dataframe := _dataframe self;
        _col_types :=
          map_fold (λ col new acc,
                      match acc !! col with
                      | Some old => <[col := set_order (remove_dups (new ++ old))]> acc
                      | None => <[col := new]> acc
                      end)
                   (_col_types self) new_col_types |}).

(** [Frame._verify_col_add]. *)
Definition _verify_col_add (new_col : string) (seed_col : option string)
    (self : Frame) : result unit :=
  if df_contains new_col (_dataframe self) then Raise ValueError
  else match seed_col with
       | Some c =>
           if truthy c && negb (df_contains c (_dataframe self))
           then Raise ValueError else Ok tt
       | None => Ok tt
       end.

(** [any(t in self._col_types[col_name] for t in col_types)] and its
    negated twin: the lookup happens once per element of [col_types]. *)
Fixpoint any_type (test : list label → string → bool) (col_name : string)
    (col_types : list string) (self : Frame) : result bool :=
  match col_types with
  | [] => Ok false
  | t :: col_types' =>
      ts ← col_types_at col_name self;
      if test ts t then Ok true else any_type test col_name col_types' self
  end.

(** [Frame._verify_col_type_includes] and [Frame._verify_col_type_excludes].
    On the failing path both evaluate [col_types.join(', ')] on a list, which
    has no such attribute, before the [ValueError] is built. *)
Definition _verify_col_type_includes (col_name : string)
    (col_types : list string) (self : Frame) : result unit :=
  b ← any_type (λ ts t, negb (bool_decide (Some t ∈ ts))) col_name col_types self;
  if b : bool then Raise AttributeError else Ok tt.

Definition _verify_col_type_excludes (col_name : string)
    (col_types : list string) (self : Frame) : result unit :=
  b ← any_type (λ ts t, bool_decide (Some t ∈ ts)) col_name col_types self;
  if b : bool then Raise AttributeError else Ok tt.

(** [set(a) != set(b)] on type lists. *)
Definition differ_as_sets (a b : list label) : bool :=
  negb (forallb (λ x, bool_decide (x ∈ b)) a
        && forallb (λ x, bool_decide (x ∈ a)) b).

(** The check that opens the third branch of [merge]. *)
Fixpoint check_merge_types (merge_on : list string) (self frame : Frame)
    : result unit :=
  match merge_on with
  | [] => Ok tt
  | col :: merge_on' =>
      mine ← col_types_at col self;
      theirs ← col_types_at col frame;
      if differ_as_sets mine theirs then Raise ValueError
      else check_merge_types merge_on' self frame
  end.

Definition set_dataframe (df : DataFrame) : M Frame unit :=
  λ self, (Ok tt, {| _dataframe := df; _col_types := _col_types self |}).
Definition set_col_types (ts : gmap string (list label)) : M Frame unit :=
  λ self, (Ok tt, {| _dataframe := _dataframe self; _col_types := ts |}).

(** [Frame.merge]. *)
Definition merge (frame : Frame) (how : join_kind) (default : value)
    : M Frame unit :=
  self ← get;
  let merge_on := str_set_inter (columns self) (columns frame) in
  (if df_empty (_dataframe self) then
     set_col_types ∅;;
     set_dataframe (pd_concat (_dataframe self) (_dataframe frame))
   else if Nat.eqb (length merge_on) 0 then
     let cross_on := str_join (columns self ++ columns frame) in
     let curr_frame := df_assign cross_on (VInt 1) (_dataframe self) in
     let new_frame := df_assign cross_on (VInt 1) (_dataframe frame) in
     merged ← lift_result (df_merge_common curr_frame new_frame);
     dropped ← lift_result (df_drop cross_on merged);
     set_dataframe dropped
   else
     lift_result (check_merge_types merge_on self frame);;
     set_dataframe
       (df_fillna default
          (df_merge how merge_on (_dataframe self) (_dataframe frame))));;
  _update_col_types (_col_types frame).

(** The loop of [expand] over the payload: the new rows, and the type
    labels met, in the order they were added. *)
Definition expand_entry (seed_col_name new_col_name seed : string)
    (acc : list (list (string * value)) * list string) (node : entry)
    : list (list (string * value)) * list string :=
  let row (v : string) :=
    od_set new_col_name (VStr v) (od_set seed_col_name (VStr seed) []) in
  let new_rows :=
    match e_value node, e_dcid node with
    | Some v, _ => acc.1 ++ [row v]
    | None, Some d => acc.1 ++ [row d]
    | None, None => acc.1
    end in
  let new_types :=
    match e_types node, e_value node with
    | Some ts, _ => acc.2 ++ ts
    | None, Some v => acc.2 ++ [if isnumeric v then "Number" else "Text"]
    | None, None => acc.2 ++ ["Text"]
    end in
  (new_rows, new_types).

Definition expand_payload (property seed_col_name new_col_name : string)
    (payload : gpv_payload)
    : list (list (string * value)) * list string :=
  foldl (λ acc seed_props,
           match assoc_get property seed_props.2 with
           | Some nodes =>
               foldl (expand_entry seed_col_name new_col_name seed_props.1)
                     acc nodes
           | None => acc
           end)
        ([], []) payload.

(** [Frame.expand]. *)
Definition expand (property seed_col_name new_col_name : string)
    (new_col_type : option string) (outgoing reload : bool) (limit : Z)
    : M (Frame * world) unit :=
  self ← get_self;
  lift_result (_verify_col_add new_col_name (Some seed_col_name) self);;
  lift_result (_verify_col_type_excludes seed_col_name ["Text"] self);;
  dcids ← lift_result (df_column seed_col_name (_dataframe self));
  seed_col_type ← lift_result (col_types_at seed_col_name self);
  match dcids with
  | [] =>
      in_self (set_dataframe (df_assign new_col_name (VStr "") (_dataframe self)));;
      on_self (λ f, {| _dataframe := _dataframe f;
                       _col_types := <[new_col_name := [new_col_type]]>
                                       (_col_types f) |})
  | _ =>
      let req :=
        {| req_dcids := dcids; req_property := property;
           req_outgoing := outgoing; req_reload := reload;
           req_limit := limit;
           req_value_type := if truthy_opt new_col_type then new_col_type
                             else None |} in
      payload ← in_world (service_call (GetPropertyValue req)
                            (λ cs, svc_get_property_value cs req));
      let '(new_rows, new_types) :=
        expand_payload property seed_col_name new_col_name payload in
      let new_col_types : gmap string (list label) :=
        let base := {[ seed_col_name := seed_col_type ]} in
        if truthy_opt new_col_type then <[new_col_name := [new_col_type]]> base
        else if truthy new_col_name
             then <[new_col_name := Some <$> str_set new_types]> base
             else base in
      new_frame ← lift_result (Frame_init (RowData new_rows) new_col_types None);
      in_self (merge new_frame JLeft (VStr ""))
  end.

(** [Frame.add_column]. *)
Definition add_column (col_name col_type : string) (col_vals : list value)
    : M Frame unit :=
  self ← get;
  lift_result (_verify_col_add col_name None self);;
  set_col_types (<[col_name := [Some col_type]]> (_col_types self));;
  df ← lift_result (df_set_column col_name col_vals (_dataframe self));
  set_dataframe df.

End frame.

(** [Query.as_Frame]. *)
Definition as_Frame {rt : PyRuntime} {svc : GraphService}
    (type_hint : gmap string (list label))
    (select : option (list (string * string) → bool))
    (process : option (DataFrame → DataFrame))
    (labels : gmap string string) : M (Query * world) Frame :=
  λ s,
    let '(it, s') := rows select s in
    match raised it with
    | Some e => (Raise e, s')
    | None =>
        let query_rows := map (map (prod_map id VStr)) (yielded it) in
        match Frame_init (RowData query_rows) type_hint process with
        | Raise e => (Raise e, s')
        | Ok frame =>
            let '(r, frame') := rename labels frame in
            (match r with Ok _ => Ok frame' | Raise e => Raise e end, s')
        end
    end.

(* ===================================================================== *)
(** ** Sample runtimes, services and objects                             *)
(* ===================================================================== *)

Definition length_hash (s : string) : Z := Z.of_nat (String.length s).

Definition sample_runtime : PyRuntime := insertion_order_runtime length_hash.

Definition usa : entry :=
  {| e_id := None; e_dcid := Some "country/USA"; e_value := None;
     e_name := Some "United States"; e_types := Some ["Country"] |}.
Definition north_america : entry :=
  {| e_id := None; e_dcid := Some "northamerica"; e_value := None;
     e_name := Some "North America"; e_types := Some ["Continent"] |}.

(** A service that knows where California is, and nothing else. *)
Definition sample_service : GraphService :=
  {| svc_get_node := λ _ d,
       Some {| info_name := Some d; info_types := Some ["Thing"] |};
     svc_get_property_value := λ _ req,
       if String.eqb (req_property req) "containedInPlace"
       then Some [("geoId/06", [("containedInPlace", [usa; north_america])])]
       else None;
     svc_get_triple := λ _ _ _ _, Some None;
     svc_query := λ _ _, None |}.

Definition world0 : world := {| next_oid := 0; calls := [] |}.

Definition valued (v : string) : cell_json := {| cell_value := Some v |}.

(** A result whose only row has one cell more than the header. *)
Definition overlong_result : query_result :=
  {| res_header := ["city"];
     res_rows := [ {| row_cells := [valued "geoId/06"; valued "California"] |} ] |}.

Definition overlong_query : Query :=
  {| _query := "SELECT ?city"; _language := "sparql";
     _result := Some overlong_result |}.

Definition typed (t : string) : list label := [Some t].

Definition city_population_frame : Frame :=
  {| _dataframe :=
       {| df_columns := ["city"; "pop"];
          df_rows := [[VStr "geoId/0649670"; VStr "dc/p/abc"]] |};
     _col_types :=
       <["city" := typed "City"]> {["pop" := typed "StatisticalPopulation"]} |}.

Definition text_seed_frame : Frame :=
  {| _dataframe := {| df_columns := ["state"]; df_rows := [[VStr "geoId/06"]] |};
     _col_types := {["state" := typed "Text"]} |}.

Definition letters_frame : Frame :=
  {| _dataframe := {| df_columns := ["a"]; df_rows := [[VStr "x"]; [VStr "y"]] |};
     _col_types := {["a" := typed "Letter"]} |}.

Definition unnamed_numbers_frame : Frame :=
  {| _dataframe :=
       {| df_columns := [""]; df_rows := [[VInt 1]; [VInt 2]; [VInt 3]] |};
     _col_types := {["" := typed "Number"]} |}.

(** Sample nodes: California, and the two places that contain it. *)
Definition place (oid : nat) (dcid name type : string)
    (out_props : gmap string (list Node)) : Node :=
  {| _oid := oid; _dcid := Some dcid; _name := Some name; _value := None;
     _types := [type]; _in_props := ∅; _out_props := out_props |}.

Definition usa_node : Node := place 1 "country/USA" "United States" "Country" ∅.
Definition north_america_node : Node :=
  place 2 "northamerica" "North America" "Continent" ∅.
Definition california : Node := place 0 "geoId/06" "California" "State" ∅.
Definition california_cached : Node :=
  place 0 "geoId/06" "California" "State"
        {[ "containedInPlace" := [usa_node; north_america_node] ]}.
(** California with a cache that holds one place, the Earth. *)
Definition earth_node : Node := place 1 "Earth" "Earth" "Planet" ∅.
Definition california_knows_earth : Node :=
  place 0 "geoId/06" "California" "State"
        {[ "containedInPlace" := [earth_node] ]}.
Definition world1 : world := {| next_oid := 1; calls := [] |}.
Definition world2 : world := {| next_oid := 2; calls := [] |}.
Definition world3 : world := {| next_oid := 3; calls := [] |}.

(** The result of a query for two states and their names. *)
Definition states_result : query_result :=
  {| res_header := ["state"; "name"];
     res_rows := [ {| row_cells := [valued "geoId/06"; valued "California"] |};
                   {| row_cells := [valued "geoId/48"; valued "Texas"] |} ] |}.

Definition states_query : Query :=
  {| _query := "SELECT ?state ?name"; _language := "sparql";
     _result := Some states_result |}.

(** The same query before it has run. *)
Definition fresh_query : Query :=
  {| _query := "SELECT ?state ?name"; _language := "sparql";
     _result := None |}.

(** A result whose second row has a cell without value. *)
Definition gapped_result : query_result :=
  {| res_header := ["state"; "name"];
     res_rows := [ {| row_cells := [valued "geoId/06"; valued "California"] |};
                   {| row_cells := [valued "geoId/48";
                                    {| cell_value := None |}] |} ] |}.

Definition gapped_query : Query :=
  {| _query := "SELECT ?state ?name"; _language := "sparql";
     _result := Some gapped_result |}.

(** A triple that points to California. *)
Definition city_in_california : triple_json :=
  {| t_subjectId := Some "geoId/0649670";
     t_subjectName := Some "Mountain View";
     t_subjectTypes := Some ["City"];
     t_predicate := Some "containedInPlace";
     t_objectId := Some "geoId/06";
     t_objectName := None; t_objectTypes := None; t_objectValue := None |}.

(** A service that answers queries and triple requests, and knows no
    property value. *)
Definition archive_service : GraphService :=
  {| svc_get_node := λ _ d,
       Some {| info_name := Some d; info_types := Some ["Thing"] |};
     svc_get_property_value := λ _ _, Some [];
     svc_get_triple := λ _ _ _ _, Some (Some [city_in_california]);
     svc_query := λ _ q,
       if String.eqb q "SELECT ?state ?name"
       then Some (QueryResult states_result)
       else Some (QueryMessage "syntax error") |}.

(** A query the service answers with a message. *)
Definition broken_query : Query :=
  {| _query := "SELECT"; _language := "sparql"; _result := None |}.

Definition states_frame : Frame :=
  {| _dataframe :=
       {| df_columns := ["state"; "name"];
          df_rows := [[VStr "geoId/06"; VStr "California"]] |};
     _col_types := <["state" := typed "State"]> {["name" := typed "Text"]} |}.

(** Two states, the first without a name. *)
Definition two_states_frame : Frame :=
  {| _dataframe :=
       {| df_columns := ["state"; "name"];
          df_rows := [[VStr "geoId/06"; VNone];
                      [VStr "geoId/48"; VStr "Texas"]] |};
     _col_types := <["state" := typed "State"]> {["name" := typed "Text"]} |}.

(** Column data whose columns differ in length, and types for both
    columns. *)
Definition uneven_data : frame_data :=
  ColData [("a", [VInt 1; VInt 2]); ("b", [VInt 1])].
Definition uneven_data_types : gmap string (list label) :=
  <["a" := typed "Number"]> {["b" := typed "Number"]}.


Definition numbers_frame : Frame :=
  {| _dataframe := {| df_columns := ["n"]; df_rows := [[VInt 1]; [VInt 2]] |};
     _col_types := {["n" := typed "Number"]} |}.

(** A frame whose column [a] holds text. *)
Definition texts_frame : Frame :=
  {| _dataframe := {| df_columns := ["a"]; df_rows := [[VStr "x"]] |};
     _col_types := {["a" := typed "Text"]} |}.

(** A frame whose column has no type. *)
Definition untyped_frame : Frame :=
  {| _dataframe := {| df_columns := ["a"]; df_rows := [[VStr "x"]] |};
     _col_types := ∅ |}.

(* ===================================================================== *)
(** ** Predicates used in the statements                                 *)
(* ===================================================================== *)

(** Every row has one cell per column. *)
Definition df_wf (df : DataFrame) : Prop :=
  Forall (λ row, length row = length (df_columns df)) (df_rows df).

Section predicates.
Context {rt : PyRuntime} {svc : GraphService}.

(** No element of the list matches a later one: the list could be the
    content of a set. *)
Inductive distinct_nodes : list Node → Prop :=
  | distinct_nil : distinct_nodes []
  | distinct_cons (x : Node) (l : list Node) :
      (∀ y, y ∈ l → same_key x y = false) →
      distinct_nodes l → distinct_nodes (x :: l).

(** [new] is [old] with the update [props] merged in, at property [p]:
    what was cached is still found, what the update brings is found,
    nothing else is there, and an updated list holds no duplicate. *)
Definition merged_at (p : string) (old : gmap string (list Node))
    (props : list (string * list Node)) (new : gmap string (list Node))
    : Prop :=
  (∀ l, old !! p = Some l →
        ∃ l', new !! p = Some l' ∧ ∀ x, x ∈ l → py_in x l' = true)
  ∧ (∀ vals v, (p, vals) ∈ props → v ∈ vals →
               ∃ l', new !! p = Some l' ∧ py_in v l' = true)
  ∧ (∀ l' z, new !! p = Some l' → z ∈ l' →
             z ∈ default [] (old !! p) ∨ ∃ vals, (p, vals) ∈ props ∧ z ∈ vals)
  ∧ (p ∈ props.*1 → ∃ l', new !! p = Some l' ∧ distinct_nodes l')
  ∧ (p ∉ props.*1 → new !! p = old !! p).

(** What is known of [x] in the list cached for [p]: it is an element, or
    the list is duplicate-free and holds the element that stands for it. *)
Definition stands_in (x : Node) (l : list Node) : Prop :=
  x ∈ l ∨ ∃ y, y ∈ l ∧ same_key y x = true ∧ distinct_nodes l.

(** A computation that only appends requests other than property-value
    fetches to the log. *)
Definition quiet {A} (m : M world A) : Prop :=
  ∀ w, ∃ extra, calls (m w).2 = calls w ++ extra
                ∧ fetches extra = 0.

End predicates.

(** The claim of C10 as it is written, over every service. *)
Definition id_always_accepted : Prop :=
  ∀ (svc' : GraphService) (kw : kwargs) (i : string) (w : world),
    kw_id kw = Some i → kw_dcid kw = None → kw_value kw = None →
    (Node_init (svc := svc') kw w).1 ≠ Raise ValueError
    ∧ ∀ n, (Node_init (svc := svc') kw w).1 = Ok n → _dcid n = Some i.

(** The column names of the [data] argument: the keys of the row
    dictionaries, or of the column dictionary. *)
Definition data_columns (data : frame_data) : list string :=
  match data with
  | RowData rows => foldl row_keys [] rows
  | ColData cols => map fst cols
  end.

(** Data whose columns have one length: row dictionaries, or a column
    dictionary whose lists are all as long as the first. *)
Definition even_columns (data : frame_data) : Prop :=
  match data with
  | RowData _ => True
  | ColData cols =>
      ∀ kv kv', kv ∈ cols → kv' ∈ cols → length kv.2 = length kv'.2
  end.

(** The claim of C7 as it is written (with no transform): whatever the
    data is, construction fails when a column has no type and succeeds
    otherwise. *)
Definition typed_data_always_builds : Prop :=
  ∀ (data : frame_data) (type_hint : gmap string (list label)),
    ((∃ col, col ∈ data_columns data ∧ type_hint !! col = None) →
     Frame_init data type_hint None = Raise ValueError)
    ∧ ((∀ col, col ∈ data_columns data → is_Some (type_hint !! col)) →
       ∃ frame, Frame_init data type_hint None = Ok frame).

(** *** Query *)

(** A row that [rows] accepts: no more cells than the header has names,
    and a value in every cell. *)
Definition row_ok (header : list string) (row : row_json) : Prop :=
  (length (row_cells row) ≤ length header)%nat
  ∧ Forall (λ c, is_Some (cell_value c)) (row_cells row).

(** The map [rows] builds from a row that it accepts. *)
Definition row_map_of (header : list string) (row : row_json)
    : list (string * string) :=
  zip header (omap cell_value (row_cells row)).

(** The rows a [select] argument keeps. *)
Definition selected (select : option (list (string * string) → bool))
    (row_map : list (string * string)) : bool :=
  match select with None => true | Some f => f row_map end.

(** A row with one valued cell for each name of the header. *)
Definition full_row (header : list string) (row : row_json) : Prop :=
  length (row_cells row) = length header
  ∧ Forall (λ c, is_Some (cell_value c)) (row_cells row).

(** *** Node *)

(** The identifier whose name and types the constructor asks the service
    for, when it asks. *)
Definition metadata_asked (kw : kwargs) : option string :=
  match kw_node kw, dcid_or_id kw, kw_value kw with
  | None, Some d, None =>
      match kw_name kw, kw_types kw with
      | Some _, Some _ => None
      | _, _ => Some d
      end
  | _, _, _ => None
  end.

(** Two nodes with the same instance variables, apart from the caches. *)
Definition same_fields (x y : Node) : Prop :=
  _dcid x = _dcid y ∧ _name x = _name y ∧ _value x = _value y
  ∧ _types x = _types y.

(** Both ends of the triple are strings. *)
Definition text_triple (t : endpoint * string * endpoint) : Prop :=
  match t with
  | (AsText _, _, AsText _) => True
  | _ => False
  end.

(** A node of one kind: it has no identifier, or no value. *)
Definition one_kind (n : Node) : Prop := _dcid n = None ∨ _value n = None.

(** A triple between nodes whose subject equals [self] or whose object has
    the fields of [self]. *)
Definition about_self (self : Node) (t : endpoint * string * endpoint)
    : Prop :=
  match t with
  | (AsNode s, _, AsNode o) => Node_eq s self = true ∨ same_fields self o
  | _ => True
  end.

(** *** Frame *)

(** Every column of the frame has an entry in the type map. *)
Definition all_typed (self : Frame) : Prop :=
  Forall (λ c, is_Some (_col_types self !! c)) (columns self).

(** The name [rename] gives a column. *)
Definition renamed (labels : gmap string string) (c : string) : string :=
  default c (labels !! c).

(** The request [expand] sends for the cells [dcids] of the seed column. *)
Definition expand_request (property : string) (dcids : list value)
    (new_col_type : option string) (outgoing reload : bool) (limit : Z)
    : gpv_request :=
  {| req_dcids := dcids; req_property := property;
     req_outgoing := outgoing; req_reload := reload; req_limit := limit;
     req_value_type := if truthy_opt new_col_type then new_col_type
                       else None |}.

(** [fillna('')] on a row: NaN and [None] cells become the empty string. *)
Definition blank_missing (row : list value) : list value :=
  map (λ x, match x with VNaN | VNone => VStr "" | _ => x end) row.

(** No value of the list is missing: none is [None] or NaN. *)
Definition no_missing (vals : list value) : Prop :=
  Forall (λ v, v ≠ VNone ∧ v ≠ VNaN) vals.

(** Every value of the list is a string. *)
Definition all_strings (vals : list value) : Prop :=
  Forall (λ v, ∃ s, v = VStr s) vals.

(** ASCII text: every character is below 128. *)
Fixpoint is_ascii (s : string) : bool :=
  match s with
  | EmptyString => true
  | String c s' => Nat.ltb (Ascii.nat_of_ascii c) 128 && is_ascii s'
  end.

(** The values the answer lists under the property are ASCII text. *)
Definition ascii_values (property : string) (payload : gpv_payload) : Prop :=
  Forall (λ seed_props : string * list (string * list entry),
            Forall (λ node, ∀ v, e_value node = Some v → is_ascii v = true)
                   (default [] (assoc_get property seed_props.2)))
         payload.

(** The rows [expand] gives a row [l] of the frame: one for each new row
    whose seed is the row's seed cell, with the value of that new row in
    the new column; a single one with an empty string when there is none.
    Missing cells of [l] are blanked in all of them. *)
Definition expanded_row (cols : list string) (seed new : string)
    (new_rows : list (list (string * value))) (l : list value)
    : list (list value) :=
  match List.filter (λ row, bool_decide (row_get cols seed l
                                         = assoc_get seed row)) new_rows with
  | [] => [blank_missing l ++ [VStr ""]]
  | found =>
      map (λ row, blank_missing l ++ [default VNaN (assoc_get new row)]) found
  end.

(** Unfold the monadic plumbing of a method and compute. *)
Ltac run :=
  cbv beta delta [mbind mret M_bind M_ret result_bind result_ret bind ret
                  raise get put lift_result alloc service_call deepcopy
                  in_world in_self get_self on_self item] in *;
  cbn beta iota zeta delta [fst snd next_oid calls] in *.

(* ===================================================================== *)
(** ** Node: construction, equality and hash                             *)
(* ===================================================================== *)

Section node_facts.
Context {rt : PyRuntime} {svc : GraphService}.

Lemma truthy_spec (s : string) : truthy s = true ↔ s ≠ "".
Proof.
  unfold truthy. destruct (String.eqb_spec s ""); simpl; split; congruence.
Qed.

Lemma Node_eq_sym (a b : Node) : Node_eq a b = Node_eq b a.
Proof.
  unfold Node_eq.
  destruct (truthy_opt (_dcid a)), (truthy_opt (_dcid b)); simpl; try done.
  apply bool_decide_ext. split; congruence.
Qed.

(** Nodes whose identifiers are non-empty compare by identifier. *)
Lemma Node_eq_truthy (a b : Node) (da db : string) :
  _dcid a = Some da → _dcid b = Some db → da ≠ "" → db ≠ "" →
  Node_eq a b = true ↔ da = db.
Proof.
  intros Ha Hb Hda Hdb. unfold Node_eq. rewrite Ha, Hb. simpl.
  apply truthy_spec in Hda, Hdb. rewrite Hda, Hdb. simpl.
  rewrite bool_decide_eq_true. split; congruence.
Qed.

(** A node without identifier equals nothing, on either side. *)
Lemma Node_eq_leaf (l x : Node) :
  _dcid l = None → Node_eq l x = false ∧ Node_eq x l = false.
Proof.
  intros Hl. rewrite (Node_eq_sym x l). unfold Node_eq. rewrite Hl. done.
Qed.

(** The constructor on the identifier path. *)
Lemma Node_init_identifier (kw : kwargs) (d : string) (w : world) :
  kw_node kw = None → dcid_or_id kw = Some d → kw_value kw = None →
  (∃ n w', Node_init kw w = (Ok n, w')
           ∧ _oid n = next_oid w ∧ _dcid n = Some d ∧ _value n = None
           ∧ _in_props n = ∅ ∧ _out_props n = ∅)
  ∨ (∃ w', Node_init kw w = (Raise ServiceError, w')
           ∧ (kw_name kw = None ∨ kw_types kw = None)
           ∧ svc_get_node (calls w) d = None).
Proof.
  intros Hn Hd Hv. unfold Node_init. rewrite Hn, Hd, Hv.
  destruct (kw_name kw) as [nm|] eqn:Hnm, (kw_types kw) as [ts|] eqn:Hts;
    run; cbn [next_oid calls].
  1: left; eexists _, _; split_and!; reflexivity.
  all: destruct (svc_get_node (calls w) d) eqn:Hs;
    [ left; eexists _, _; split_and!; reflexivity
    | right; eexists; split_and!; eauto ].
Qed.

(** The constructor on the value path: no request is made. *)
Lemma Node_init_value (kw : kwargs) (v : string) (w : world) :
  kw_node kw = None → dcid_or_id kw = None → kw_value kw = Some v →
  Node_init kw w =
    (Ok {| _oid := next_oid w; _dcid := None; _name := None;
           _value := Some v; _types := []; _in_props := ∅;
           _out_props := ∅ |},
     {| next_oid := S (next_oid w); calls := calls w |}).
Proof.
  intros Hn Hd Hv. unfold Node_init. rewrite Hn, Hd, Hv. reflexivity.
Qed.

(** A node with an identifier and no value hashes by ["dcid:" + id]. *)
Lemma Node_hash_identifier (n : Node) (d : string) :
  _dcid n = Some d → _value n = None → Node_hash n = hash_str ("dcid:" +:+ d).
Proof.
  intros Hd Hv. unfold Node_hash, hash_key, is_leaf. rewrite Hd, Hv. done.
Qed.

(** A leaf with a non-empty value hashes by ["value:" + value]. *)
Lemma Node_hash_leaf (n : Node) (v : string) :
  _value n = Some v → v ≠ "" → Node_hash n = hash_str ("value:" +:+ v).
Proof.
  intros Hv Hne. unfold Node_hash, hash_key, is_leaf. rewrite Hv. simpl.
  apply truthy_spec in Hne. rewrite Hne. done.
Qed.

(** The two hashed strings never coincide. *)
Lemma hash_keys_differ (x y : string) : "dcid:" +:+ x ≠ "value:" +:+ y.
Proof. discriminate. Qed.

(** C2.  Equality of nodes at the empty identifier.  The claim asks that
    two nodes built with identifiers are equal exactly when the identifiers
    are, so that every such node equals itself.  A node built with the
    identifier [""] (name and types given, hence no request) is an
    identifier node, and [__eq__] answers false when it is compared with
    itself, because the empty string is false under [bool]. *)
Theorem C2_empty_identifier_not_equal_to_itself (w : world) :
  ∃ a w',
    Node_init {| kw_node := None; kw_id := None; kw_dcid := Some "";
                 kw_value := None; kw_name := Some "n";
                 kw_types := Some [] |} w = (Ok a, w')
    ∧ _dcid a = Some "" ∧ _value a = None
    ∧ Node_eq a a = false ∧ Node_ne a a = true.
Proof. eexists _, _. split_and!; reflexivity. Qed.

(** C3.  Hash of a leaf at the empty value.  The claim asks that a node
    built with the scalar value [v] hashes as the string ["value:" + v].
    For [v = ""] the node is built without error, [is_leaf] answers false,
    and the string that is hashed is ["dcid:None"], not ["value:"]. *)
Theorem C3_empty_value_hashes_as_dcid_None (w : world) :
  ∃ n w',
    Node_init {| kw_node := None; kw_id := None; kw_dcid := None;
                 kw_value := Some ""; kw_name := None;
                 kw_types := None |} w = (Ok n, w')
    ∧ _value n = Some "" ∧ _dcid n = None
    ∧ is_leaf n = false
    ∧ hash_key n = "dcid:None"
    ∧ hash_key n ≠ "value:" +:+ ""
    ∧ Node_hash n = hash_str "dcid:None".
Proof. eexists _, _. split_and!; try reflexivity. discriminate. Qed.

(** C10, as written, fails.  With [node=] also given the constructor never
    reads [id]: anything that is not a [Node] is refused with a
    [ValueError]. *)
Lemma C10_id_beside_node_is_refused : ¬ id_always_accepted.
Proof.
  intros Hclaim.
  destruct (Hclaim sample_service
              {| kw_node := Some ArgOther; kw_id := Some "geoId/06";
                 kw_dcid := None; kw_value := None; kw_name := None;
                 kw_types := None |}
              "geoId/06" world0 eq_refl eq_refl eq_refl) as [Hne _].
  apply Hne. reflexivity.
Qed.

(** With a [Node] given as [node=], the copy takes that node's identifier,
    whatever [id] says. *)
Example copy_ignores_id :
  ∃ n w',
    Node_init {| kw_node := Some (ArgNode usa_node); kw_id := Some "geoId/06";
                 kw_dcid := None; kw_value := None; kw_name := None;
                 kw_types := None |} world3 = (Ok n, w')
    ∧ _oid n = 3 ∧ _dcid n = Some "country/USA".
Proof. eexists _, _. split_and!; reflexivity. Qed.

(** C10 (amended).  When [id] is given and none of [node], [dcid] and
    [value] is, the constructor raises no [ValueError]: it returns a node
    whose identifier is the [id] given and which holds no value, unless the
    request for the node's name and types, made when one of them is not
    given, fails. *)
Theorem C10_id_is_alias_for_dcid (kw : kwargs) (i : string) (w : world) :
  kw_node kw = None → kw_id kw = Some i → kw_dcid kw = None →
  kw_value kw = None →
  (∃ n w', Node_init kw w = (Ok n, w') ∧ _dcid n = Some i ∧ _value n = None)
  ∨ (∃ w', Node_init kw w = (Raise ServiceError, w')
           ∧ (kw_name kw = None ∨ kw_types kw = None)
           ∧ svc_get_node (calls w) i = None).
Proof.
  intros Hn Hi Hd Hv.
  assert (Hdi : dcid_or_id kw = Some i) by (unfold dcid_or_id; by rewrite Hi, Hd).
  destruct (Node_init_identifier kw i w Hn Hdi Hv)
    as [(n & w' & Hrun & _ & Hdn & Hvn & _) | Hfail]; [left | right]; eauto.
Qed.

End node_facts.

Lemma C10_id_is_alias_for_dcid_witness :
  ∃ n w',
    Node_init (svc := sample_service)
      {| kw_node := None; kw_id := Some "geoId/06"; kw_dcid := None;
         kw_value := None; kw_name := None; kw_types := None |} world0
    = (Ok n, w')
    ∧ _dcid n = Some "geoId/06" ∧ _value n = None.
Proof.
  destruct (C10_id_is_alias_for_dcid (svc := sample_service)
              {| kw_node := None; kw_id := Some "geoId/06"; kw_dcid := None;
                 kw_value := None; kw_name := None; kw_types := None |}
              "geoId/06" world0 eq_refl eq_refl eq_refl eq_refl)
    as [Hok | (w' & Hfail & _)].
  - exact Hok.
  - discriminate Hfail.
Defined.

(* ===================================================================== *)
(** ** Node: sets of nodes and the prop caches                           *)
(* ===================================================================== *)

Section set_facts.
Context {rt : PyRuntime}.

Lemma same_key_sym (x y : Node) : same_key x y = same_key y x.
Proof.
  unfold same_key.
  by rewrite Nat.eqb_sym, Z.eqb_sym, Node_eq_sym.
Qed.

Lemma same_key_py_in (x y : Node) (l : list Node) :
  y ∈ l → same_key y x = true → py_in x l = true.
Proof.
  intros Hy Hsame. unfold py_in. apply existsb_exists. exists y.
  split; [by apply list_elem_of_In|].
  unfold same_key in Hsame. rewrite Nat.eqb_sym, Node_eq_sym.
  apply orb_true_iff in Hsame as [->|[_ ->]%andb_true_iff]; [done|].
  apply orb_true_r.
Qed.

Lemma elem_py_in (x : Node) (l : list Node) : x ∈ l → py_in x l = true.
Proof.
  intros Hx. apply (same_key_py_in x x); [done|].
  unfold same_key. by rewrite Nat.eqb_refl.
Qed.

Lemma distinct_snoc (s : list Node) (x : Node) :
  distinct_nodes s → (∀ y, y ∈ s → same_key y x = false) →
  distinct_nodes (s ++ [x]).
Proof.
  induction 1 as [|z s Hz Hs IH]; intros Hx; simpl.
  - constructor; [by intros y ?%elem_of_nil | constructor].
  - constructor.
    + intros y [Hy| ->%list_elem_of_singleton]%elem_of_app;
        [by apply Hz | apply Hx; by left].
    + apply IH. intros y Hy. apply Hx. by right.
Qed.

Lemma distinct_perm (l l' : list Node) :
  l ≡ₚ l' → distinct_nodes l → distinct_nodes l'.
Proof.
  induction 1 as [|x l l' Hperm IH|x y l|l l' l'' _ IH1 _ IH2]; intros Hd.
  - done.
  - inversion_clear Hd as [|? ? Hx Hl]. constructor; [|by apply IH].
    intros y Hy. apply Hx. by rewrite Hperm.
  - inversion_clear Hd as [|? ? Hy Hd']. inversion_clear Hd' as [|? ? Hx Hl].
    constructor; [|constructor; [|done]].
    + intros z [->|Hz]%elem_of_cons; [|by apply Hx].
      rewrite same_key_sym. apply Hy. by left.
    + intros z Hz. apply Hy. by right.
  - by apply IH2, IH1.
Qed.

(** *** One [add] *)

Lemma node_set_add_incl (x : Node) (s : list Node) (y : Node) :
  y ∈ s → y ∈ node_set_add x s.
Proof.
  unfold node_set_add. destruct (existsb _ s); [done|].
  intros Hy. apply elem_of_app. by left.
Qed.

Lemma node_set_add_found (x : Node) (s : list Node) :
  ∃ y, y ∈ node_set_add x s ∧ same_key y x = true.
Proof.
  unfold node_set_add. destruct (existsb _ s) eqn:Hex.
  - apply existsb_exists in Hex as (y & Hy%list_elem_of_In & Hsame). eauto.
  - exists x. split; [apply elem_of_app; right; by left|].
    unfold same_key. by rewrite Nat.eqb_refl.
Qed.

Lemma node_set_add_from (x : Node) (s : list Node) (z : Node) :
  z ∈ node_set_add x s → z ∈ s ∨ z = x.
Proof.
  unfold node_set_add. destruct (existsb _ s); [by left|].
  intros [?| ->%list_elem_of_singleton]%elem_of_app; [by left | by right].
Qed.

Lemma node_set_add_distinct (x : Node) (s : list Node) :
  distinct_nodes s → distinct_nodes (node_set_add x s).
Proof.
  intros Hs. unfold node_set_add. destruct (existsb _ s) eqn:Hex; [done|].
  apply distinct_snoc; [done|]. intros y Hy.
  destruct (same_key y x) eqn:Hsame; [|done].
  assert (existsb (λ y, same_key y x) s = true) as Htrue; [|congruence].
  apply existsb_exists. exists y. split; [by apply list_elem_of_In | done].
Qed.

(** *** A run of [add]s *)

Lemma add_all_incl (s t : list Node) (y : Node) : y ∈ s → y ∈ add_all s t.
Proof.
  revert s. induction t as [|x t IH]; intros s Hy; simpl; [done|].
  by apply IH, node_set_add_incl.
Qed.

Lemma add_all_found (s t : list Node) (x : Node) :
  x ∈ t → ∃ y, y ∈ add_all s t ∧ same_key y x = true.
Proof.
  revert s. induction t as [|x' t IH]; intros s Hx; simpl.
  - by apply elem_of_nil in Hx.
  - apply elem_of_cons in Hx as [->|Hx]; [|by apply IH].
    destruct (node_set_add_found x' s) as (y & Hy & Hsame).
    exists y. split; [by apply add_all_incl | done].
Qed.

Lemma add_all_from (s t : list Node) (z : Node) :
  z ∈ add_all s t → z ∈ s ∨ z ∈ t.
Proof.
  revert s. induction t as [|x t IH]; intros s Hz; simpl in *; [by left|].
  apply IH in Hz as [Hz|Hz]; [|right; by right].
  apply node_set_add_from in Hz as [?| ->]; [by left | right; by left].
Qed.

Lemma add_all_distinct (s t : list Node) :
  distinct_nodes s → distinct_nodes (add_all s t).
Proof.
  revert s. induction t as [|x t IH]; intros s Hs; simpl; [done|].
  by apply IH, node_set_add_distinct.
Qed.

(** Adding the elements of a duplicate-free list to a list they do not
    match appends them. *)
Lemma add_all_fresh (s t : list Node) :
  distinct_nodes (s ++ t) → add_all s t = s ++ t.
Proof.
  revert s. induction t as [|x t IH]; intros s Hd; simpl.
  - by rewrite app_nil_r.
  - assert (existsb (λ y, same_key y x) s = false) as Hnew.
    { apply not_true_is_false. intros (y & Hy & Hsame)%existsb_exists.
      apply list_elem_of_In in Hy. clear IH.
      induction s as [|z s IHs]; simpl in *; [by apply elem_of_nil in Hy|].
      inversion_clear Hd as [|? ? Hz Hd'].
      apply elem_of_cons in Hy as [->|Hy]; [|by apply IHs].
      rewrite Hz in Hsame; [done|]. apply elem_of_app. right. by left. }
    unfold node_set_add at 1. rewrite Hnew.
    rewrite IH; [by rewrite <- app_assoc|]. by rewrite <- app_assoc.
Qed.

(** *** [set(l)] and [s.union(t)] *)

Lemma set_order_elem {A} (l : list A) (x : A) : x ∈ l → x ∈ set_order l.
Proof. by rewrite (set_order_perm A l). Qed.

Lemma set_order_from {A} (l : list A) (x : A) : x ∈ set_order l → x ∈ l.
Proof. by rewrite (set_order_perm A l). Qed.

Lemma node_set_found (l : list Node) (x : Node) :
  x ∈ l → ∃ y, y ∈ node_set l ∧ same_key y x = true.
Proof.
  intros Hx. destruct (add_all_found [] l x Hx) as (y & Hy & Hsame).
  exists y. split; [by apply set_order_elem | done].
Qed.

Lemma node_set_from (l : list Node) (z : Node) : z ∈ node_set l → z ∈ l.
Proof.
  intros Hz%set_order_from.
  apply add_all_from in Hz as [Hz|Hz]; [by apply elem_of_nil in Hz | done].
Qed.

Lemma node_set_distinct (l : list Node) : distinct_nodes (node_set l).
Proof.
  apply (distinct_perm (add_all [] l)); [symmetry; apply set_order_perm|].
  apply add_all_distinct. constructor.
Qed.

Lemma node_set_keeps (l : list Node) (x : Node) :
  distinct_nodes l → x ∈ l → x ∈ node_set l.
Proof.
  intros Hd Hx. apply set_order_elem. by rewrite add_all_fresh.
Qed.

Lemma node_set_union_incl (s t : list Node) (y : Node) :
  y ∈ s → y ∈ node_set_union s t.
Proof. intros Hy. by apply set_order_elem, add_all_incl. Qed.

Lemma node_set_union_found (s t : list Node) (x : Node) :
  x ∈ t → ∃ y, y ∈ node_set_union s t ∧ same_key y x = true.
Proof.
  intros Hx. destruct (add_all_found s t x Hx) as (y & Hy & Hsame).
  exists y. split; [by apply set_order_elem | done].
Qed.

Lemma node_set_union_from (s t : list Node) (z : Node) :
  z ∈ node_set_union s t → z ∈ s ∨ z ∈ t.
Proof. intros Hz%set_order_from. by apply add_all_from. Qed.

Lemma node_set_union_distinct (s t : list Node) :
  distinct_nodes s → distinct_nodes (node_set_union s t).
Proof.
  intros Hs. apply (distinct_perm (add_all s t));
    [symmetry; apply set_order_perm | by apply add_all_distinct].
Qed.

(** *** The cache update *)

Lemma update_one_lookup (cache : gmap string (list Node))
    (p : string) (vals : list Node) (q : string) :
  update_one cache (p, vals) !! q
  = if decide (p = q)
    then Some (node_set_union (node_set (default [] (cache !! p))) vals)
    else cache !! q.
Proof.
  unfold update_one. cbn [fst snd].
  destruct (cache !! p) as [l|] eqn:Hp.
  - rewrite lookup_insert. case_decide; [by rewrite Hp | done].
  - rewrite lookup_insert. case_decide.
    + by rewrite lookup_insert_eq.
    + by rewrite lookup_insert_ne.
Qed.

Lemma stands_in_py_in (x : Node) (l : list Node) :
  stands_in x l → py_in x l = true.
Proof.
  intros [Hx | (y & Hy & Hsame & _)];
    [by apply elem_py_in | by apply (same_key_py_in x y)].
Qed.

Lemma stands_in_union (x : Node) (l vals : list Node) :
  stands_in x l → stands_in x (node_set_union (node_set l) vals).
Proof.
  intros Hx. right.
  assert (∃ y, y ∈ node_set l ∧ same_key y x = true) as (y & Hy & Hsame).
  { destruct Hx as [Hx | (y & Hy & Hsame & Hd)].
    - by apply node_set_found.
    - exists y. split; [by apply node_set_keeps | done]. }
  exists y. split_and!; [by apply node_set_union_incl | done |].
  apply node_set_union_distinct, node_set_distinct.
Qed.

Lemma update_cache_keeps (props : list (string * list Node))
    (cache : gmap string (list Node)) (p : string) (x : Node) (l : list Node) :
  cache !! p = Some l → stands_in x l →
  ∃ l', update_cache cache props !! p = Some l' ∧ stands_in x l'.
Proof.
  revert cache l. induction props as [|[q vals] props IH];
    intros cache l Hl Hx; simpl; [eauto|].
  destruct (decide (q = p)) as [->|Hne].
  - eapply IH; [rewrite update_one_lookup, decide_True by done; done|].
    rewrite Hl. by apply stands_in_union.
  - eapply IH; [|done]. by rewrite update_one_lookup, decide_False.
Qed.

Lemma update_cache_brings (props : list (string * list Node))
    (cache : gmap string (list Node)) (p : string) (vals : list Node)
    (v : Node) :
  (p, vals) ∈ props → v ∈ vals →
  ∃ l', update_cache cache props !! p = Some l' ∧ stands_in v l'.
Proof.
  revert cache. induction props as [|[q vals'] props IH];
    intros cache Hin Hv; simpl; [by apply elem_of_nil in Hin|].
  apply elem_of_cons in Hin as [[= <- <-]|Hin]; [|by apply IH].
  eapply update_cache_keeps;
    [rewrite update_one_lookup, decide_True by done; done|].
  right. destruct (node_set_union_found
                     (node_set (default [] (cache !! p))) vals v Hv)
    as (y & Hy & Hsame).
  exists y. split_and!; [done | done |].
  apply node_set_union_distinct, node_set_distinct.
Qed.

Lemma update_cache_from (props : list (string * list Node))
    (cache : gmap string (list Node)) (p : string) (l' : list Node)
    (z : Node) :
  update_cache cache props !! p = Some l' → z ∈ l' →
  z ∈ default [] (cache !! p) ∨ ∃ vals, (p, vals) ∈ props ∧ z ∈ vals.
Proof.
  revert cache. induction props as [|[q vals] props IH];
    intros cache Hl Hz; simpl in *.
  - left. by rewrite Hl.
  - destruct (IH _ Hl Hz) as [Hold | (vals' & Hin & Hz')];
      [|right; exists vals'; split; [by right | done]].
    rewrite update_one_lookup in Hold. case_decide as Hq; [subst q|by left].
    cbn in Hold. apply node_set_union_from in Hold as [Hold|Hnew].
    + left. by apply node_set_from.
    + right. exists vals. split; [by left | done].
Qed.

Lemma update_cache_distinct_kept (props : list (string * list Node))
    (cache : gmap string (list Node)) (p : string) (l : list Node) :
  cache !! p = Some l → distinct_nodes l →
  ∃ l', update_cache cache props !! p = Some l' ∧ distinct_nodes l'.
Proof.
  revert cache l. induction props as [|[q vals] props IH];
    intros cache l Hl Hd; simpl; [eauto|].
  destruct (decide (q = p)) as [->|Hne].
  - eapply IH; [rewrite update_one_lookup, decide_True by done; done|].
    apply node_set_union_distinct, node_set_distinct.
  - eapply IH; [|done]. by rewrite update_one_lookup, decide_False.
Qed.

Lemma update_cache_distinct (props : list (string * list Node))
    (cache : gmap string (list Node)) (p : string) :
  p ∈ props.*1 →
  ∃ l', update_cache cache props !! p = Some l' ∧ distinct_nodes l'.
Proof.
  revert cache. induction props as [|[q vals] props IH];
    intros cache Hin; simpl in *; [by apply elem_of_nil in Hin|].
  destruct (decide (q = p)) as [->|Hne].
  - eapply update_cache_distinct_kept;
      [rewrite update_one_lookup, decide_True by done; done|].
    apply node_set_union_distinct, node_set_distinct.
  - apply IH. by apply elem_of_cons in Hin as [?|?].
Qed.

Lemma update_cache_untouched (props : list (string * list Node))
    (cache : gmap string (list Node)) (p : string) :
  p ∉ props.*1 → update_cache cache props !! p = cache !! p.
Proof.
  revert cache. induction props as [|[q vals] props IH];
    intros cache Hnot; simpl in *; [done|].
  apply not_elem_of_cons in Hnot as [Hne Hnot].
  rewrite IH by done. by rewrite update_one_lookup, decide_False.
Qed.

Lemma update_cache_merged (props : list (string * list Node))
    (cache : gmap string (list Node)) (p : string) :
  merged_at p cache props (update_cache cache props).
Proof.
  unfold merged_at. split_and!.
  - intros l Hl.
    destruct (decide (p ∈ props.*1)) as [Hin|Hnot].
    + destruct (update_cache_distinct props cache p Hin) as (l' & Hl' & _).
      exists l'. split; [done|]. intros x Hx.
      destruct (update_cache_keeps props cache p x l Hl (or_introl Hx))
        as (l'' & Hl'' & Hstands).
      assert (l'' = l') as -> by congruence. by apply stands_in_py_in.
    + exists l. split; [by rewrite update_cache_untouched|].
      intros x Hx. by apply elem_py_in.
  - intros vals v Hin Hv.
    destruct (update_cache_brings props cache p vals v Hin Hv)
      as (l' & Hl' & Hstands).
    exists l'. split; [done | by apply stands_in_py_in].
  - intros l' z. apply update_cache_from.
  - apply update_cache_distinct.
  - apply update_cache_untouched.
Qed.

(** C6.  The cache update is monotonic.  For each direction and every
    property [p], after [_update_props]: the list cached for [p] before is
    still cached, and each of its nodes is found in the new list (by [in],
    that is by identity or equality); each node of the update for [p] is
    found in it too; every node of the new list comes from the old list or
    from the update; the list of an updated property holds no two nodes
    that a set would identify (same object, or same hash and equal); and a
    property the update does not name keeps its list. *)
Theorem C6_update_props_monotonic (self : Node)
    (in_props out_props : list (string * list Node)) (p : string) :
  let self' := _update_props in_props out_props self in
  merged_at p (_in_props self) in_props (_in_props self')
  ∧ merged_at p (_out_props self) out_props (_out_props self').
Proof. split; apply update_cache_merged. Qed.

End set_facts.

(* ===================================================================== *)
(** ** Node: get_property_values                                         *)
(* ===================================================================== *)

Section gpv_facts.
Context {rt : PyRuntime} {svc : GraphService}.

Lemma fetches_app (cs cs' : list call) :
  fetches (cs ++ cs') = fetches cs + fetches cs'.
Proof. unfold fetches. by rewrite List.filter_app, length_app. Qed.

Lemma Node_init_quiet (kw : kwargs) : quiet (Node_init kw).
Proof.
  intros w. unfold Node_init.
  assert (∃ extra, calls w = calls w ++ extra ∧ fetches extra = 0) as Hw.
  { exists []. by rewrite app_nil_r. }
  destruct (kw_node kw) as [[n|]|]; run; [done | done |].
  destruct (dcid_or_id kw) as [d|], (kw_value kw) as [v|]; run; try done.
  destruct (kw_name kw), (kw_types kw); run; try done;
    destruct (svc_get_node (calls w) d); run; by exists [GetNode d].
Qed.

Lemma for_each_quiet {A B} (f : A → M world B) (xs : list A) :
  (∀ x, quiet (f x)) → quiet (for_each f xs).
Proof.
  intros Hf. induction xs as [|x xs IH]; intros w; simpl.
  - exists []. by rewrite app_nil_r.
  - run. destruct (Hf x w) as (e1 & He1 & Hq1).
    destruct (f x w) as [[y|e] w1]; cbn in *; [|eauto].
    destruct (IH w1) as (e2 & He2 & Hq2).
    destruct (for_each f xs w1) as [[ys|e] w2]; cbn in *;
      exists (e1 ++ e2); rewrite He2, He1, fetches_app, Hq1, Hq2;
      by rewrite app_assoc.
Qed.

Lemma py_slice_to_take {A} (l : list A) (k : Z) :
  (0 ≤ k)%Z → py_slice_to l k = take (Z.to_nat k) l.
Proof.
  intros Hk. unfold py_slice_to.
  by destruct (Z.leb_spec 0 k) as [_|?]; [|lia].
Qed.

(** When the cache check succeeds, and when it does not. *)
Lemma cached_values_hit (self : Node) (prop : string) (outgoing : bool)
    (limit : Z) (l : list Node) :
  (if outgoing then _out_props self else _in_props self) !! prop = Some l →
  (limit ≤ Z.of_nat (length l))%Z →
  cached_values self prop outgoing limit = Some (py_slice_to l limit).
Proof.
  intros Hl Hlimit. unfold cached_values.
  destruct outgoing; rewrite Hl;
    by destruct (Z.leb_spec limit (Z.of_nat (length l))) as [_|?]; [|lia].
Qed.

Lemma cached_values_miss (self : Node) (prop : string) (outgoing : bool)
    (limit : Z) :
  let cache := if outgoing then _out_props self else _in_props self in
  cache !! prop = None
  ∨ (∃ l, cache !! prop = Some l ∧ (Z.of_nat (length l) < limit)%Z) →
  cached_values self prop outgoing limit = None.
Proof.
  intros cache Hmiss. unfold cached_values. fold cache.
  assert (match cache !! prop with
          | Some l => if (limit <=? Z.of_nat (length l))%Z
                      then Some (py_slice_to l limit) else None
          | None => None
          end = None) as Hcheck.
  { destruct Hmiss as [-> | (l & -> & Hlt)]; [done|].
    by destruct (Z.leb_spec limit (Z.of_nat (length l))) as [?|_]; [lia|]. }
  unfold cache in *. by destruct outgoing.
Qed.

(** The fetch path of [get_property_values], step by step. *)
Lemma get_property_values_fetch (self : Node) (prop : string)
    (outgoing : bool) (value_type : option string) (reload : bool)
    (limit : Z) (w : world) :
  cached_values self prop outgoing limit = None →
  let req := gpv_request_of self prop outgoing value_type reload limit in
  let w1 := {| next_oid := next_oid w;
               calls := calls w ++ [GetPropertyValue req] |} in
  get_property_values prop outgoing value_type reload limit (self, w)
  = match svc_get_property_value (calls w) req with
    | None => (Raise ServiceError, (self, w1))
    | Some payload =>
        match for_each (λ e, Node_init (kwargs_of_entry e))
                       (payload_entries self prop payload) w1 with
        | (Raise e, w2) => (Raise e, (self, w2))
        | (Ok nodes, w2) =>
            (Ok (node_set nodes),
             (_update_props
                (if outgoing then [] else [(prop, node_set nodes)])
                (if outgoing then [(prop, node_set nodes)] else [])
                self, w2))
        end
    end.
Proof.
  intros Hmiss req w1. unfold get_property_values. run. rewrite Hmiss.
  fold req. destruct (svc_get_property_value (calls w) req) as [payload|];
    [|done]. fold w1.
  by destruct (for_each _ (payload_entries self prop payload) w1)
    as [[nodes|e] w2].
Qed.

(** C1.  [get_property_values] with a cache that meets the limit, and with
    one that does not.  For every node, property, direction and limit
    [limit], with [cache] the prop cache of the direction asked for:

    - when [cache[prop]] is there with at least [limit] entries, the method
      returns [cache[prop][:limit]], which for a limit that is not negative
      is its first [limit] entries; the node and the log of requests are
      as before, so a second call returns the same list and again sends
      nothing;
    - otherwise the log grows by exactly one property-value fetch, the
      request for this node and property (requests for the name and types
      of nodes without them may follow it); and when the service answers
      and a node is built from each entry, the method returns the set of
      these nodes as a list (no two of them the same for a set), whatever
      [limit] is, and [cache[prop]] becomes the union of its old content
      and these nodes: every node that was cached for [prop] and every
      node returned is found ([in]) in the new list, every node of the new
      list was cached or is one of the nodes returned, and no two nodes
      of the new list are the same for a set ([merged_at]).  The rest of
      both caches stays as it was. *)
Theorem C1_get_property_values (self : Node) (prop : string)
    (outgoing : bool) (value_type : option string) (reload : bool)
    (limit : Z) (w : world) :
  let cache (n : Node) := if outgoing then _out_props n else _in_props n in
  let other (n : Node) := if outgoing then _in_props n else _out_props n in
  let method := get_property_values prop outgoing value_type reload limit in
  let req := gpv_request_of self prop outgoing value_type reload limit in
  let w1 := {| next_oid := next_oid w;
               calls := calls w ++ [GetPropertyValue req] |} in
  (∀ l, cache self !! prop = Some l → (limit ≤ Z.of_nat (length l))%Z →
        method (self, w) = (Ok (py_slice_to l limit), (self, w))
        ∧ method (method (self, w)).2 = method (self, w)
        ∧ ((0 ≤ limit)%Z → py_slice_to l limit = take (Z.to_nat limit) l))
  ∧ (cache self !! prop = None
     ∨ (∃ l, cache self !! prop = Some l ∧ (Z.of_nat (length l) < limit)%Z) →
     (∃ extra, calls (method (self, w)).2.2
               = calls w ++ GetPropertyValue req :: extra
               ∧ fetches extra = 0)
     ∧ fetches (calls (method (self, w)).2.2) = S (fetches (calls w))
     ∧ ∀ payload nodes w2,
         svc_get_property_value (calls w) req = Some payload →
         for_each (λ e, Node_init (kwargs_of_entry e))
                  (payload_entries self prop payload) w1 = (Ok nodes, w2) →
         ∃ self',
           method (self, w) = (Ok (node_set nodes), (self', w2))
           ∧ cache self' !! prop
             = Some (node_set_union
                       (node_set (default [] (cache self !! prop)))
                       (node_set nodes))
           ∧ merged_at prop (cache self) [(prop, node_set nodes)]
                       (cache self')
           ∧ distinct_nodes (node_set nodes)
           ∧ (∀ q, q ≠ prop → cache self' !! q = cache self !! q)
           ∧ other self' = other self).
Proof.
  intros cache other method req w1. split.
  - intros l Hl Hlimit.
    assert (method (self, w) = (Ok (py_slice_to l limit), (self, w))) as Hrun.
    { unfold method, get_property_values. run.
      by rewrite (cached_values_hit self prop outgoing limit l). }
    split_and!; [done | by rewrite Hrun | apply py_slice_to_take].
  - intros Hmiss%cached_values_miss.
    pose proof (get_property_values_fetch self prop outgoing value_type
                  reload limit w Hmiss) as Hrun.
    fold method req w1 in Hrun.
    assert (∃ extra, calls (method (self, w)).2.2
                     = calls w ++ GetPropertyValue req :: extra
                     ∧ fetches extra = 0) as Hlog.
    { rewrite Hrun.
      destruct (svc_get_property_value (calls w) req) as [payload|];
        [|by exists []].
      destruct (for_each_quiet (λ e, Node_init (kwargs_of_entry e))
                  (payload_entries self prop payload)
                  (λ e, Node_init_quiet _) w1) as (extra & Hextra & Hquiet).
      exists extra. split; [|done]. subst w1.
      destruct (for_each _ _ _) as [[nodes|e] w2]; cbn [fst snd calls] in *;
        by rewrite Hextra, <- app_assoc. }
    split_and!; [done | |].
    + destruct Hlog as (extra & -> & Hquiet).
      rewrite fetches_app. unfold fetches at 2. cbn.
      fold (fetches extra). rewrite Hquiet. lia.
    + intros payload nodes w2 Hpayload Hnodes. subst w1.
      rewrite Hrun, Hpayload, Hnodes. eexists. split; [done|].
      assert (merged_at prop (cache self) [(prop, node_set nodes)]
                (cache (_update_props
                          (if outgoing then [] else [(prop, node_set nodes)])
                          (if outgoing then [(prop, node_set nodes)] else [])
                          self))) as Hmerged.
      { unfold cache. destruct outgoing; cbn [_update_props _in_props _out_props];
          apply update_cache_merged. }
      revert Hmerged. unfold cache, other, _update_props, update_cache.
      destruct outgoing; cbn [_in_props _out_props foldl]; intros Hmerged;
        rewrite update_one_lookup, decide_True by done;
        (split_and!; [done | exact Hmerged | apply node_set_distinct | | done]);
        intros q Hq; by rewrite update_one_lookup, decide_False.
Qed.

(** Whatever [get_property_values] does, the node it leaves is the node it
    found or that node after one [_update_props]. *)
Lemma get_property_values_self (prop : string) (outgoing : bool)
    (value_type : option string) (reload : bool) (limit : Z)
    (self : Node) (w : world) :
  let self' :=
    (get_property_values prop outgoing value_type reload limit (self, w)).2.1 in
  self' = self
  ∨ ∃ in_props out_props, self' = _update_props in_props out_props self.
Proof.
  cbn zeta. destruct (cached_values self prop outgoing limit) as [vals|] eqn:Hc.
  - left. unfold get_property_values. run. by rewrite Hc.
  - rewrite get_property_values_fetch by done.
    destruct (svc_get_property_value _ _) as [payload|]; [|by left].
    destruct (for_each _ _ _) as [[nodes|e] w2]; [right; eauto | by left].
Qed.

Lemma get_triples_self (as_node reload : bool) (limit : Z)
    (self : Node) (w : world) :
  let self' := (get_triples as_node reload limit (self, w)).2.1 in
  self' = self
  ∨ ∃ in_props out_props, self' = _update_props in_props out_props self.
Proof.
  cbn zeta. unfold get_triples. run.
  destruct (svc_get_triple _ _ _ _) as [[ts|]|]; [|by left | by left].
  destruct (for_each _ ts _) as [[added|e] w2]; [|by left].
  destruct as_node; [|by left].
  destruct (triple_props self (concat added)) as [in_props out_props].
  right. eauto.
Qed.

(** Both callers of the cache update keep what was cached: a node that
    was in a cached list is found in the list cached afterwards. *)
Lemma callers_keep_cached (self self' : Node) (p : string) (l : list Node)
    (x : Node) :
  self' = self
  ∨ (∃ in_props out_props, self' = _update_props in_props out_props self) →
  (_in_props self !! p = Some l → x ∈ l →
   ∃ l', _in_props self' !! p = Some l' ∧ py_in x l' = true)
  ∧ (_out_props self !! p = Some l → x ∈ l →
     ∃ l', _out_props self' !! p = Some l' ∧ py_in x l' = true).
Proof.
  intros [-> | (in_props & out_props & ->)].
  - split; intros Hl Hx; exists l; (split; [done | by apply elem_py_in]).
  - split; intros Hl Hx; cbn.
    + destruct (update_cache_merged in_props (_in_props self) p)
        as (Hkeep & _).
      destruct (Hkeep l Hl) as (l' & Hl' & Hin). eauto.
    + destruct (update_cache_merged out_props (_out_props self) p)
        as (Hkeep & _).
      destruct (Hkeep l Hl) as (l' & Hl' & Hin). eauto.
Qed.

End gpv_facts.

Lemma C1_get_property_values_witness :
  get_property_values (rt := sample_runtime) (svc := sample_service)
    "containedInPlace" true None false 1 (california_cached, world3)
  = (Ok [usa_node], (california_cached, world3))
  ∧ ∃ self' w',
      get_property_values (rt := sample_runtime) (svc := sample_service)
        "containedInPlace" true None false 5 (california_knows_earth, world2)
      = (Ok [place 2 "country/USA" "United States" "Country" ∅;
             place 3 "northamerica" "North America" "Continent" ∅],
         (self', w'))
      ∧ _out_props self' !! "containedInPlace"
        = Some [earth_node;
                place 2 "country/USA" "United States" "Country" ∅;
                place 3 "northamerica" "North America" "Continent" ∅]
      ∧ (∃ l', _out_props self' !! "containedInPlace" = Some l'
               ∧ py_in earth_node l' = true)
      ∧ fetches (calls w') = 1.
Proof.
  split.
  - destruct (C1_get_property_values (rt := sample_runtime)
                (svc := sample_service) california_cached "containedInPlace"
                true None false 1 world3) as [Hhit _].
    destruct (Hhit [usa_node; north_america_node] eq_refl)
      as (Hrun & _ & _); [done | exact Hrun].
  - destruct (C1_get_property_values (rt := sample_runtime)
                (svc := sample_service) california_knows_earth
                "containedInPlace" true None false 5 world2) as [_ Hmiss].
    destruct Hmiss as (_ & Hcount & Hresult).
    { right. exists [earth_node]. split; [reflexivity | cbn; lia]. }
    destruct (Hresult _ [place 2 "country/USA" "United States" "Country" ∅;
                         place 3 "northamerica" "North America" "Continent" ∅]
                      _ eq_refl eq_refl)
      as (self' & Hrun & Hcache & Hmerged & _).
    destruct Hmerged as (Hkept & _).
    destruct (Hkept [earth_node] eq_refl) as (l' & Hl' & Hin).
    exists self'. eexists.
    split_and!; [exact Hrun | exact Hcache | | ].
    + exists l'. split; [exact Hl' | apply Hin; by left].
    + rewrite Hrun in Hcount. exact Hcount.
Defined.


(* ===================================================================== *)
(** ** Query: rows                                                       *)
(* ===================================================================== *)

Section query_facts.
Context {svc : GraphService}.

(** A row that is too long and whose cells all carry a value: the loop
    reaches position [len(header)], passes the guard [idx > len(header)],
    and fails on [header[idx]]. *)
Lemma fill_row_map_overlong (header : list string) (cells : list cell_json)
    (idx : nat) (row_map : list (string * string)) :
  (idx ≤ length header)%nat → (length header < idx + length cells)%nat →
  Forall (λ c, is_Some (cell_value c)) cells →
  fill_row_map header idx cells row_map = Raise IndexError.
Proof.
  revert idx row_map.
  induction cells as [|c cells IH]; intros idx row_map Hle Hlt Hall; simpl in *.
  - lia.
  - apply Forall_cons in Hall as [[v Hv] Hall].
    destruct (Nat.ltb_spec (length header) idx) as [?|_]; [lia|].
    rewrite Hv. destruct (header !! idx) as [cell_var|] eqn:Hidx; [|done].
    apply lookup_lt_Some in Hidx. apply IH; [lia | lia | done].
Qed.

(** The guard [idx > len(header)] never fires from position 0: every
    [RuntimeError] of the loop is a cell without value. *)
Lemma fill_row_map_RuntimeError (header : list string)
    (cells : list cell_json) (idx : nat) (row_map : list (string * string)) :
  (idx ≤ length header)%nat →
  fill_row_map header idx cells row_map = Raise RuntimeError →
  ∃ c, c ∈ cells ∧ cell_value c = None.
Proof.
  revert idx row_map.
  induction cells as [|c cells IH]; intros idx row_map Hle Hrun; simpl in *.
  - done.
  - destruct (Nat.ltb_spec (length header) idx) as [?|_]; [lia|].
    destruct (cell_value c) as [v|] eqn:Hv.
    + destruct (header !! idx) as [cell_var|] eqn:Hidx; [|done].
      apply lookup_lt_Some in Hidx.
      apply IH in Hrun as (c' & Hin & Hc'); [|lia].
      exists c'. split; [by right | done].
    + exists c. split; [by left | done].
Qed.

(** A cell without value, at a position the header still covers or just
    behind it, after cells that all have one: a [RuntimeError]. *)
Lemma fill_row_map_missing_value (header : list string)
    (before after : list cell_json) (cell : cell_json) (idx : nat)
    (row_map : list (string * string)) :
  Forall (λ c, is_Some (cell_value c)) before →
  cell_value cell = None →
  (idx + length before ≤ length header)%nat →
  fill_row_map header idx (before ++ cell :: after) row_map
  = Raise RuntimeError.
Proof.
  revert idx row_map.
  induction before as [|c before IH]; intros idx row_map Hall Hnone Hle;
    simpl in *.
  - destruct (Nat.ltb_spec (length header) idx) as [?|_]; [lia|].
    by rewrite Hnone.
  - apply Forall_cons in Hall as [[v Hv] Hall].
    destruct (Nat.ltb_spec (length header) idx) as [?|_]; [lia|].
    rewrite Hv. destruct (header !! idx) as [cell_var|] eqn:Hidx.
    + apply IH; [done | done | lia].
    + apply lookup_ge_None in Hidx. lia.
Qed.

(** C4.  A row with one cell more than the header.  The claim asks for a
    runtime error whenever a row holds more cells than the header has
    columns.  With the header [city] and a row of two cells, both with a
    value, [rows] yields nothing and ends with an [IndexError]: the guard
    compares with [>] where [>=] is needed. *)
Theorem C4_extra_cell_raises_IndexError (w : world) :
  rows None (overlong_query, w)
  = ({| yielded := []; raised := Some IndexError |}, (overlong_query, w))
  ∧ Some IndexError ≠ Some RuntimeError.
Proof. split; [reflexivity | discriminate]. Qed.

End query_facts.

(* ===================================================================== *)
(** ** Frame                                                             *)
(* ===================================================================== *)

Section pandas_facts.
Context {rt : PyRuntime}.

Lemma eqb_false_iff (a b : string) : String.eqb a b = false ↔ a ≠ b.
Proof. destruct (String.eqb_spec a b); split; congruence. Qed.

Lemma filter_all {A} (p : A → bool) (l : list A) :
  (∀ x, x ∈ l → p x = true) → List.filter p l = l.
Proof.
  induction l as [|x l IH]; intros Hp; simpl; [done|].
  rewrite (Hp x) by left. f_equal. apply IH. intros y Hy. apply Hp. by right.
Qed.

Lemma filter_none {A} (p : A → bool) (l : list A) :
  (∀ x, x ∈ l → p x = false) → List.filter p l = [].
Proof.
  induction l as [|x l IH]; intros Hp; simpl; [done|].
  rewrite (Hp x) by left. apply IH. intros y Hy. apply Hp. by right.
Qed.

Lemma flat_map_ext_Forall {A B} (f g : A → list B) (l : list A) :
  Forall (λ x, f x = g x) l → flat_map f l = flat_map g l.
Proof. induction 1 as [|x l Hx _ IH]; simpl; [done | by rewrite Hx, IH]. Qed.

Lemma flat_map_of_map {A B C} (f : B → list C) (h : A → B) (l : list A) :
  flat_map f (map h l) = flat_map (λ x, f (h x)) l.
Proof. induction l as [|x l IH]; simpl; [done | by rewrite IH]. Qed.

Lemma map_of_flat_map {A B C} (g : B → C) (f : A → list B) (l : list A) :
  map g (flat_map f l) = flat_map (λ x, map g (f x)) l.
Proof.
  induction l as [|x l IH]; simpl; [done | by rewrite map_app, IH].
Qed.

Lemma index_of_fresh (k : string) (cols : list string) :
  k ∉ cols → index_of k (cols ++ [k]) = Some (length cols).
Proof.
  induction cols as [|c cols IH]; intros Hk; simpl.
  - by rewrite String.eqb_refl.
  - apply not_elem_of_cons in Hk as [Hne Hk].
    rewrite (proj2 (eqb_false_iff c k)) by done. by rewrite IH.
Qed.

Lemma row_get_fresh (k : string) (cols : list string) (row : list value)
    (v : value) :
  k ∉ cols → length row = length cols →
  row_get (cols ++ [k]) k (row ++ [v]) = Some v.
Proof.
  intros Hk Hlen. unfold row_get. rewrite index_of_fresh by done. cbn.
  rewrite <- Hlen. by rewrite list_lookup_middle.
Qed.

Lemma keep_where_app (p : string → bool) (cols cols' : list string)
    (row row' : list value) :
  length row = length cols →
  keep_where p (cols ++ cols') (row ++ row')
  = keep_where p cols row ++ keep_where p cols' row'.
Proof.
  intros Hlen. unfold keep_where.
  rewrite zip_with_app by done.
  by rewrite List.filter_app, fmap_app.
Qed.

Lemma keep_where_all (p : string → bool) (cols : list string)
    (row : list value) :
  length row = length cols → (∀ c, c ∈ cols → p c = true) →
  keep_where p cols row = row.
Proof.
  intros Hlen Hp. unfold keep_where.
  rewrite filter_all; [by rewrite snd_zip by lia|].
  intros [c v] Hin. apply Hp. apply elem_of_zip_l in Hin. done.
Qed.

Lemma keep_where_none (p : string → bool) (cols : list string)
    (row : list value) :
  (∀ c, c ∈ cols → p c = false) → keep_where p cols row = [].
Proof.
  intros Hp. unfold keep_where. rewrite filter_none; [done|].
  intros [c v] Hin. apply Hp. by apply elem_of_zip_l in Hin.
Qed.

Lemma keep_where_single (p : string → bool) (c : string) (v : value) :
  keep_where p [c] [v] = if p c then [v] else [].
Proof. unfold keep_where. cbn. by destruct (p c). Qed.

Lemma df_assign_fresh (k : string) (v : value) (df : DataFrame) :
  k ∉ df_columns df →
  df_assign k v df
  = {| df_columns := df_columns df ++ [k];
       df_rows := map (λ row, row ++ [v]) (df_rows df) |}.
Proof.
  intros Hk. unfold df_assign, df_contains.
  by rewrite bool_decide_eq_false_2.
Qed.


Lemma set_order_nil {A} : set_order (@nil A) = [].
Proof. apply Permutation_nil. symmetry. apply set_order_perm. Qed.

Lemma str_set_inter_disjoint (s t : list string) :
  (∀ c, c ∈ s → c ∉ t) → str_set_inter s t = [].
Proof.
  intros Hdisj. unfold str_set_inter.
  rewrite filter_none; [apply set_order_nil|].
  intros c Hc. apply bool_decide_eq_false, Hdisj.
  by apply elem_of_remove_dups.
Qed.

(** The cross join of two tables that share no column, through a key
    column [k] that neither has. *)
Lemma cross_join_tables (k : string) (left right : DataFrame) :
  df_wf left → df_wf right →
  (∀ c, c ∈ df_columns left → c ∉ df_columns right) →
  k ∉ df_columns left → k ∉ df_columns right →
  (merged ← df_merge_common (df_assign k (VInt 1) left)
                            (df_assign k (VInt 1) right);
   df_drop k merged)
  = Ok {| df_columns := df_columns left ++ df_columns right;
          df_rows := flat_map (λ l, map (λ r, l ++ r) (df_rows right))
                              (df_rows left) |}.
Proof.
  intros Hwl Hwr Hdisj Hkl Hkr.
  rewrite !df_assign_fresh by done.
  set (lc := df_columns left). set (rc := df_columns right).
  unfold df_merge_common. cbn [df_columns].
  assert (List.filter
            (λ c, df_contains c {| df_columns := rc ++ [k];
                                   df_rows := map (λ row, row ++ [VInt 1])
                                                  (df_rows right) |})
            (lc ++ [k]) = [k]) as ->.
  { rewrite List.filter_app, filter_none; cbn.
    - unfold df_contains. cbn. rewrite bool_decide_eq_true_2; [done|].
      apply elem_of_app. right. by left.
    - intros c Hc. unfold df_contains. cbn. apply bool_decide_eq_false.
      intros [Hin| ->%list_elem_of_singleton]%elem_of_app;
        [by apply (Hdisj c) | done]. }
  cbn [mbind result_bind].
  assert (∀ c, c ∈ rc → negb (bool_decide (c ∈ [k])) = true) as Hoff_rc.
  { intros c Hc. apply negb_true_iff, bool_decide_eq_false.
    intros ->%list_elem_of_singleton. done. }
  assert (negb (bool_decide (k ∈ [k])) = false) as Hoff_k.
  { apply negb_false_iff, bool_decide_eq_true. by left. }
  unfold df_merge. cbn [df_columns df_rows].
  assert (List.filter (λ c, negb (bool_decide (c ∈ [k]))) (rc ++ [k]) = rc)
    as Hcols.
  { rewrite List.filter_app, filter_all by done. cbn. rewrite Hoff_k.
    by rewrite app_nil_r. }
  rewrite Hcols.
  assert (flat_map
            (λ l, match List.filter
                          (λ r, bool_decide
                                  (map (λ c, row_get (lc ++ [k]) c l) [k]
                                   = map (λ c, row_get (rc ++ [k]) c r) [k]))
                          (map (λ row, row ++ [VInt 1]) (df_rows right)) with
                  | [] => if false then
                            [l ++ map (λ _, VNaN) rc]
                          else []
                  | r :: rs =>
                      map (λ r0, l ++ keep_where
                                        (λ c, negb (bool_decide (c ∈ [k])))
                                        (rc ++ [k]) r0) (r :: rs)
                  end)
            (map (λ row, row ++ [VInt 1]) (df_rows left))
          = flat_map (λ l, map (λ r, (l ++ [VInt 1]) ++ r) (df_rows right))
                     (df_rows left)) as Hrows.
  { rewrite flat_map_of_map. apply flat_map_ext_Forall.
    apply Forall_forall. intros l Hl.
    pose proof (proj1 (Forall_forall _ _) Hwl l Hl) as Hlen. cbn in Hlen.
    assert (∀ r, r ∈ df_rows right → length r = length rc) as Hlenr.
    { intros r Hr. by apply (proj1 (Forall_forall _ _) Hwr r). }
    rewrite filter_all.
    - transitivity (map (λ r, (l ++ [VInt 1]) ++ keep_where
                                (λ c, negb (bool_decide (c ∈ [k])))
                                (rc ++ [k]) r)
                        (map (λ row, row ++ [VInt 1]) (df_rows right)));
        [by destruct (df_rows right)|].
      rewrite map_map. apply map_ext_in. intros r Hr%list_elem_of_In.
      rewrite keep_where_app, keep_where_all, keep_where_single by auto.
      by rewrite Hoff_k, app_nil_r.
    - intros r (r' & -> & Hr')%list_elem_of_fmap.
      apply bool_decide_eq_true. cbn.
      by rewrite !row_get_fresh by auto. }
  rewrite Hrows. clear Hrows.
  unfold df_drop, df_contains. cbn [df_columns df_rows].
  rewrite bool_decide_eq_true_2;
    [|apply elem_of_app; left; apply elem_of_app; right; by left].
  assert (∀ c, c ∈ lc ++ rc → negb (String.eqb c k) = true) as Hkeep.
  { intros c Hc. apply negb_true_iff, eqb_false_iff. intros ->.
    by apply elem_of_app in Hc as [?|?]. }
  f_equal. f_equal.
  - rewrite !List.filter_app. cbn. rewrite String.eqb_refl. cbn.
    rewrite app_nil_r.
    by rewrite !filter_all by (intros c Hc; apply Hkeep, elem_of_app; auto).
  - rewrite map_of_flat_map. apply flat_map_ext_Forall.
    apply Forall_forall. intros l Hl.
    pose proof (proj1 (Forall_forall _ _) Hwl l Hl) as Hlen. cbn in Hlen.
    rewrite map_map. apply map_ext_in. intros r Hr%list_elem_of_In.
    pose proof (proj1 (Forall_forall _ _) Hwr r Hr) as Hlenr. cbn in Hlenr.
    rewrite keep_where_app by (rewrite !length_app; cbn; auto).
    rewrite keep_where_app, keep_where_single by done.
    rewrite (keep_where_all _ lc l), (keep_where_all _ rc r)
      by (auto; intros c Hc; apply Hkeep, elem_of_app; auto).
    by rewrite String.eqb_refl, app_nil_r.
Qed.

Lemma length_pairs {A B C} (f : A → B → C) (l : list A) (r : list B) :
  length (flat_map (λ x, map (f x) r) l) = length l * length r.
Proof.
  induction l as [|x l IH]; simpl; [done|].
  by rewrite length_app, length_map, IH.
Qed.

(** [merge] of frames without a common column, when the name built for
    the key is the name of no column: every row of [self] is paired with
    every row of the other frame, in this order, under the columns of
    [self] followed by those of the other frame. *)
Lemma merge_cross_join (self frame : Frame) (how : join_kind)
    (default : value) :
  df_wf (_dataframe self) → df_wf (_dataframe frame) →
  df_empty (_dataframe self) = false →
  (∀ c, c ∈ columns self → c ∉ columns frame) →
  str_join (columns self ++ columns frame) ∉ columns self ++ columns frame →
  ∃ merged,
    merge frame how default self = (Ok tt, merged)
    ∧ _dataframe merged
      = {| df_columns := columns self ++ columns frame;
           df_rows := flat_map (λ l, map (λ r, l ++ r)
                                         (df_rows (_dataframe frame)))
                               (df_rows (_dataframe self)) |}
    ∧ length (df_rows (_dataframe merged))
      = length (df_rows (_dataframe self))
        * length (df_rows (_dataframe frame)).
Proof.
  intros Hws Hwf Hne Hdisj Hfresh.
  apply not_elem_of_app in Hfresh as [Hks Hkf].
  pose proof (cross_join_tables _ _ _ Hws Hwf Hdisj Hks Hkf) as Hjoin.
  unfold merge. run. rewrite Hne.
  rewrite str_set_inter_disjoint by done. cbn [length Nat.eqb].
  unfold columns in *.
  destruct (df_merge_common _ _) as [merged|e]; [|done].
  cbn [mbind result_bind] in Hjoin. rewrite Hjoin.
  unfold _update_col_types, set_dataframe. cbn.
  eexists. split_and!; [done | done |]. cbn. apply length_pairs.
Qed.

End pandas_facts.

Section frame_facts.
Context {rt : PyRuntime} {svc : GraphService}.

(** The sample frames are frames the constructor builds. *)
Example sample_frames_built :
  Frame_init (ColData [("city", [VStr "geoId/0649670"]);
                       ("pop", [VStr "dc/p/abc"])])
             (_col_types city_population_frame) None
  = Ok city_population_frame
  ∧ Frame_init (ColData [("state", [VStr "geoId/06"])])
               {["state" := typed "Text"]} None
    = Ok text_seed_frame
  ∧ Frame_init (ColData [("a", [VStr "x"; VStr "y"])])
               {["a" := typed "Letter"]} None
    = Ok letters_frame
  ∧ Frame_init (ColData [("", [VInt 1; VInt 2; VInt 3])])
               {["" := typed "Number"]} None
    = Ok unnamed_numbers_frame.
Proof. split_and!; reflexivity. Qed.

Lemma filter_r_total {A} (p : A → result bool) (q : A → bool) (l : list A) :
  (∀ x, x ∈ l → p x = Ok (q x)) → filter_r p l = Ok (List.filter q l).
Proof.
  induction l as [|x l IH]; intros Hp; simpl; [done|].
  rewrite (Hp x) by left. simpl.
  rewrite IH by (intros y Hy; apply Hp; by right). simpl.
  by destruct (q x).
Qed.

(** What [ignore_populations] keeps: the columns that do carry the label
    [StatisticalPopulation], whether the names were given or not. *)
Lemma pandas_ignore_populations (self : Frame) (col_names : option (list string)) :
  let names := match col_names with
               | None | Some [] => df_columns (_dataframe self)
               | Some names => names
               end in
  (∀ c, c ∈ names → is_Some (_col_types self !! c)) →
  pandas col_names true self =
    df_select
      (List.filter (λ c, bool_decide (Some "StatisticalPopulation"
                                      ∈ default [] (_col_types self !! c)))
                   names)
      (_dataframe self).
Proof.
  intros names Htyped. unfold pandas. fold names.
  rewrite (filter_r_total _
    (λ c, bool_decide (Some "StatisticalPopulation"
                       ∈ default [] (_col_types self !! c)))); [done|].
  intros c Hc. destruct (Htyped c Hc) as [ts Hts].
  unfold col_types_at. by rewrite Hts.
Qed.

(** C5.  [ignore_populations] on a frame with a city column and a
    population column.  The claim asks that the export without explicit
    names keeps exactly the columns that are not populations, and that
    explicit names win over the flag.  The export keeps the population
    column and drops the city column; with the explicit name [city] the
    flag still applies, and no column is left. *)
Theorem C5_ignore_populations_keeps_only_populations :
  pandas None true city_population_frame
  = Ok {| df_columns := ["pop"]; df_rows := [[VStr "dc/p/abc"]] |}
  ∧ pandas (Some ["city"]) true city_population_frame
    = Ok {| df_columns := []; df_rows := [[]] |}
  ∧ pandas (Some ["city"]) false city_population_frame
    = Ok {| df_columns := ["city"]; df_rows := [[VStr "geoId/0649670"]] |}.
Proof. split_and!; reflexivity. Qed.

(** pandas builds a table from the data exactly when its columns have one
    length; otherwise it raises [ValueError], and so does the constructor,
    whatever the type hint is. *)
Lemma pd_DataFrame_builds (data : frame_data) :
  (even_columns data → ∃ table, pd_DataFrame data = Ok table
                                ∧ df_columns table = data_columns data)
  ∧ (¬ even_columns data →
     pd_DataFrame data = Raise ValueError
     ∧ ∀ type_hint process,
         Frame_init data type_hint process = Raise ValueError).
Proof.
  destruct data as [rows|cols].
  - split; [intros _; by eexists | cbn; tauto].
  - unfold pd_DataFrame, even_columns.
    set (n := match cols with [] => 0%nat | kv :: _ => length kv.2 end).
    destruct (forallb (λ kv : string * list value, Nat.eqb (length kv.2) n)
                      cols) eqn:Hall.
    + split; [intros _; by eexists|]. intros Hne. exfalso. apply Hne.
      rewrite forallb_forall in Hall. intros kv kv' Hkv Hkv'.
      apply list_elem_of_In, Hall, Nat.eqb_eq in Hkv.
      apply list_elem_of_In, Hall, Nat.eqb_eq in Hkv'. congruence.
    + split.
      * intros Heven. exfalso.
        assert (forallb (λ kv : string * list value,
                           Nat.eqb (length kv.2) n) cols = true) as Htrue;
          [|congruence].
        apply forallb_forall. intros kv Hkv%list_elem_of_In.
        apply Nat.eqb_eq. subst n. destruct cols as [|kv0 cols'];
          [by apply elem_of_nil in Hkv|].
        apply Heven; [done | by left].
      * intros _. split; [done|]. intros type_hint process.
        unfold Frame_init, pd_DataFrame. fold n. by rewrite Hall.
Qed.

(** C7, as written, fails.  Column data whose columns differ in length is
    refused by pandas with a [ValueError], also when every column has an
    entry in the type hint. *)
Lemma C7_uneven_columns_are_refused : ¬ typed_data_always_builds.
Proof.
  intros Hclaim.
  destruct (Hclaim uneven_data uneven_data_types) as [_ Hbuilds].
  destruct Hbuilds as [frame Hframe]; [|discriminate Hframe].
  intros col Hcol. cbn in Hcol.
  apply elem_of_cons in Hcol as [->|Hcol]; [by eexists|].
  apply list_elem_of_singleton in Hcol as ->. by eexists.
Qed.

(** The construction the counterexample makes, and its outcome. *)
Example uneven_columns_raise :
  Frame_init uneven_data uneven_data_types None = Raise ValueError
  ∧ uneven_data_types !! "a" = Some (typed "Number")
  ∧ uneven_data_types !! "b" = Some (typed "Number").
Proof. split_and!; reflexivity. Qed.

(** C7 (amended).  Construction checks that every column is typed.  For
    data from which pandas builds a table (row dictionaries, or columns of
    one length), and with the optional transform applied to it: when some
    column of the table has no entry in the type hint the constructor
    raises [ValueError]; otherwise it returns the frame that holds the
    table and the type hint. *)
Theorem C7_frame_init_checks_types (data : frame_data)
    (type_hint : gmap string (list (option string)))
    (process : option (DataFrame → DataFrame)) (table : DataFrame) :
  pd_DataFrame data = Ok table →
  let pd_frame := match process with Some f => f table | None => table end in
  ((∃ col, col ∈ df_columns pd_frame ∧ type_hint !! col = None) →
   Frame_init data type_hint process = Raise ValueError)
  ∧ ((∀ col, col ∈ df_columns pd_frame → is_Some (type_hint !! col)) →
     Frame_init data type_hint process
     = Ok {| _dataframe := pd_frame; _col_types := type_hint |}).
Proof.
  intros Htable pd_frame. unfold Frame_init. rewrite Htable. cbn. fold pd_frame.
  destruct (forallb _ (df_columns pd_frame)) eqn:Hall.
  - rewrite forallb_forall in Hall. split.
    + intros (col & Hin & Hnone).
      apply list_elem_of_In, Hall, bool_decide_eq_true in Hin.
      rewrite Hnone in Hin. by destruct Hin.
    + done.
  - split; [done|]. intros Htyped.
    assert (forallb (λ col, bool_decide (is_Some (type_hint !! col)))
                    (df_columns pd_frame) = true) as Htrue.
    { apply forallb_forall. intros col Hin. apply bool_decide_eq_true.
      apply Htyped. by apply list_elem_of_In. }
    congruence.
Qed.

(** [expand] refuses a new column that is already there, and leaves the
    frame as it was. *)
Lemma expand_new_column_exists (property seed_col_name new_col_name : string)
    (new_col_type : option string) (outgoing reload : bool) (limit : Z)
    (self : Frame) (w : world) :
  new_col_name ∈ columns self →
  expand property seed_col_name new_col_name new_col_type outgoing reload
         limit (self, w)
  = (Raise ValueError, (self, w)).
Proof.
  intros Hin. unfold expand, _verify_col_add, df_contains. run.
  by rewrite bool_decide_eq_true_2.
Qed.

(** [expand] refuses a seed column, with a name that is not empty, that is
    not there, and leaves the frame as it was. *)
Lemma expand_seed_column_missing (property seed_col_name new_col_name : string)
    (new_col_type : option string) (outgoing reload : bool) (limit : Z)
    (self : Frame) (w : world) :
  new_col_name ∉ columns self → seed_col_name ≠ "" →
  seed_col_name ∉ columns self →
  expand property seed_col_name new_col_name new_col_type outgoing reload
         limit (self, w)
  = (Raise ValueError, (self, w)).
Proof.
  intros Hnew Hname Hseed. unfold expand, _verify_col_add, df_contains. run.
  rewrite (bool_decide_eq_false_2 _ Hnew), (bool_decide_eq_false_2 _ Hseed).
  apply truthy_spec in Hname. by rewrite Hname.
Qed.

(** A seed column typed as free text: the check finds the label, and the
    message of the error it means to raise cannot be built. *)
Lemma expand_text_seed (property seed_col_name new_col_name : string)
    (new_col_type : option string) (outgoing reload : bool) (limit : Z)
    (self : Frame) (w : world) (ts : list (option string)) :
  new_col_name ∉ columns self → seed_col_name ∈ columns self →
  _col_types self !! seed_col_name = Some ts → Some "Text" ∈ ts →
  expand property seed_col_name new_col_name new_col_type outgoing reload
         limit (self, w)
  = (Raise AttributeError, (self, w)).
Proof.
  intros Hnew Hseed Hts Htext.
  unfold expand, _verify_col_add, _verify_col_type_excludes, df_contains,
    any_type, col_types_at. run.
  rewrite (bool_decide_eq_false_2 _ Hnew), (bool_decide_eq_true_2 _ Hseed).
  rewrite andb_false_r, Hts. cbn. by rewrite (bool_decide_eq_true_2 _ Htext).
Qed.

(** C9.  [expand] from a seed column typed as text.  The claim asks for a
    validation error in three cases; in the third, a seed column whose
    types include [Text], the method does stop and does leave the frame as
    it was, but what it raises is an [AttributeError]: the message of the
    [ValueError] is built with [col_types.join(', ')], and a list has no
    [join]. *)
Theorem C9_text_seed_raises_AttributeError (w : world) :
  expand "containedInPlace" "state" "country" None true false 100
         (text_seed_frame, w)
  = (Raise AttributeError, (text_seed_frame, w))
  ∧ Raise (A := unit) AttributeError ≠ Raise ValueError.
Proof. split; [reflexivity | discriminate]. Qed.

(** A seed column with the empty name that is not there passes
    [_verify_col_add], whose test starts with [if seed_col and ...], and
    fails later on a lookup. *)
Lemma expand_unnamed_seed_raises_KeyError (w : world) :
  expand "containedInPlace" "" "country" None true false 100
         (text_seed_frame, w)
  = (Raise KeyError, (text_seed_frame, w)).
Proof. reflexivity. Qed.

(** C8.  A cross join whose synthetic key is the name of a column.  The
    claim asks that merging frames without a common column pairs every row
    of [self] with every row of the other frame and leaves only the
    synthetic key out.  For [self] with the one column [a] (two rows) and a
    frame with the one column [""] (three rows), the key
    [''.join(columns)] is [a] itself: the values of [a] are overwritten by
    the key, and the column [a] is dropped with it.  The result has six
    rows, and none holds a value of [self]. *)
Theorem C8_cross_join_key_collision :
  str_join (columns letters_frame ++ columns unnamed_numbers_frame) = "a"
  ∧ ∃ merged,
      merge unnamed_numbers_frame JLeft (VStr "") letters_frame
      = (Ok tt, merged)
      ∧ _dataframe merged
        = {| df_columns := [""];
             df_rows := [[VInt 1]; [VInt 2]; [VInt 3];
                         [VInt 1]; [VInt 2]; [VInt 3]] |}
      ∧ "a" ∉ columns merged.
Proof.
  split; [reflexivity|]. eexists. unfold merge. run.
  rewrite str_set_inter_disjoint; cycle 1.
  { intros c ->%list_elem_of_singleton [=]%list_elem_of_singleton. }
  split_and!; [reflexivity | reflexivity |].
  by intros [=]%list_elem_of_singleton.
Qed.

End frame_facts.

Lemma C7_frame_init_checks_types_witness :
  Frame_init (RowData [[("a", VInt 1)]]) ∅ None = Raise ValueError
  ∧ Frame_init (RowData [[("a", VInt 1)]]) {["a" := [Some "Number"]]} None
    = Ok {| _dataframe := {| df_columns := ["a"]; df_rows := [[VInt 1]] |};
            _col_types := {["a" := [Some "Number"]]} |}.
Proof.
  split.
  - apply (C7_frame_init_checks_types (RowData [[("a", VInt 1)]]) ∅ None
             {| df_columns := ["a"]; df_rows := [[VInt 1]] |} eq_refl).
    exists "a". split; [by left | done].
  - apply (C7_frame_init_checks_types (RowData [[("a", VInt 1)]])
             {["a" := [Some "Number"]]} None
             {| df_columns := ["a"]; df_rows := [[VInt 1]] |} eq_refl).
    intros col ->%list_elem_of_singleton. by eexists.
Defined.

#[local] Set Warnings "-clear-no-such-hyp".

(* ===================================================================== *)
(** ** Query: well-formed results and execution                          *)
(* ===================================================================== *)

Section query_more.
Context {svc : GraphService}.

Lemma od_set_fresh {V} (k : string) (v : V) (d : list (string * V)) :
  k ∉ d.*1 → od_set k v d = d ++ [(k, v)].
Proof.
  induction d as [|[k' v'] d IH]; intros Hk; simpl; [done|].
  apply not_elem_of_cons in Hk as [Hne Hk].
  destruct (String.eqb_spec k' k) as [->|_]; [done|]. by rewrite IH.
Qed.

Lemma fill_row_map_ok (header : list string) (cells : list cell_json)
    (idx : nat) (row_map : list (string * string)) :
  NoDup header → row_map.*1 = take idx header →
  (idx + length cells ≤ length header)%nat →
  Forall (λ c, is_Some (cell_value c)) cells →
  fill_row_map header idx cells row_map
  = Ok (row_map ++ zip (drop idx header) (omap cell_value cells)).
Proof.
  intros Hnd. revert idx row_map.
  induction cells as [|c cells IH]; intros idx row_map Hkeys Hlen Hall;
    simpl in *.
  - destruct (drop idx header); by rewrite app_nil_r.
  - apply Forall_cons in Hall as [[v Hv] Hall].
    destruct (Nat.ltb_spec (length header) idx) as [?|_]; [lia|].
    rewrite Hv. cbn.
    destruct (header !! idx) as [h|] eqn:Hidx;
      [|apply lookup_ge_None in Hidx; lia].
    rewrite od_set_fresh; cycle 1.
    { rewrite Hkeys. intros Hin.
      apply list_elem_of_lookup in Hin as (j & Hj).
      pose proof (lookup_lt_Some _ _ _ Hj) as Hlt.
      rewrite length_take in Hlt. rewrite lookup_take_lt in Hj by lia.
      pose proof (NoDup_lookup _ _ _ _ Hnd Hj Hidx). lia. }
    rewrite IH.
    + rewrite <- app_assoc. cbn. by rewrite (drop_S _ _ _ Hidx).
    + rewrite fmap_app, Hkeys. cbn. by rewrite (take_S_r _ _ _ Hidx).
    + lia.
    + done.
Qed.

Lemma iterate_rows_ok (header : list string)
    (select : option (list (string * string) → bool))
    (good rest : list row_json) :
  NoDup header → Forall (row_ok header) good →
  iterate_rows header select (good ++ rest)
  = {| yielded := List.filter (selected select) (map (row_map_of header) good)
                  ++ yielded (iterate_rows header select rest);
       raised := raised (iterate_rows header select rest) |}.
Proof.
  intros Hnd. induction 1 as [|row good [Hlen Hval] _ IH]; simpl.
  - by destruct (iterate_rows header select rest).
  - rewrite fill_row_map_ok by done. rewrite IH. cbn.
    change (drop 0 header) with header.
    change (zip header (omap cell_value (row_cells row)))
      with (row_map_of header row).
    change (match select with Some f => f (row_map_of header row)
            | None => true end)
      with (selected select (row_map_of header row)).
    by destruct (selected select (row_map_of header row)).
Qed.

Lemma rows_stored (q : Query) (res : query_result)
    (select : option (list (string * string) → bool)) (w : world) :
  _result q = Some res →
  rows select (q, w)
  = (iterate_rows (res_header res) select (res_rows res), (q, w)).
Proof.
  intros Hres. unfold rows. cbn [fst]. rewrite Hres. cbn [fst].
  by rewrite Hres.
Qed.

Lemma iterate_rows_all (header : list string)
    (select : option (list (string * string) → bool))
    (good : list row_json) :
  NoDup header → Forall (row_ok header) good →
  iterate_rows header select good
  = {| yielded := List.filter (selected select) (map (row_map_of header) good);
       raised := None |}.
Proof.
  intros Hnd Hgood. rewrite <- (app_nil_r good) at 1.
  rewrite iterate_rows_ok by done. cbn. by rewrite app_nil_r.
Qed.

(** X1.  [rows] on a well-formed stored result.  When the header names are
    distinct and every row has at most as many cells as the header has
    names, each with a value, iterating sends no request, changes nothing
    and raises nothing; it yields, in order, the rows that [select] keeps,
    each as the map from the leading header names to the row's values. *)
Theorem rows_well_formed (q : Query) (res : query_result)
    (select : option (list (string * string) → bool)) (w : world) :
  _result q = Some res → NoDup (res_header res) →
  Forall (row_ok (res_header res)) (res_rows res) →
  rows select (q, w)
  = ({| yielded := List.filter (selected select)
                     (map (row_map_of (res_header res)) (res_rows res));
        raised := None |}, (q, w)).
Proof.
  intros Hres Hnd Hrows. rewrite (rows_stored q res) by done.
  by rewrite iterate_rows_all.
Qed.

(** X2.  A query runs once.  With no stored result and a service that
    answers with a result, [rows] sends one request, stores the result and
    iterates over it; a later call of [rows], with any [select], sends
    nothing and iterates over the stored result. *)
Theorem rows_executes_once (q : Query) (r : query_result)
    (select select' : option (list (string * string) → bool)) (w : world) :
  _result q = None →
  svc_query (calls w) (_query q) = Some (QueryResult r) →
  let q' := {| _query := _query q; _language := _language q;
               _result := Some r |} in
  let w' := {| next_oid := next_oid w;
               calls := calls w ++ [RunQuery (_query q)] |} in
  rows select (q, w) = (iterate_rows (res_header r) select (res_rows r), (q', w'))
  ∧ rows select' (q', w')
    = (iterate_rows (res_header r) select' (res_rows r), (q', w')).
Proof.
  intros Hnone Hanswer q' w'. split.
  - unfold rows, _execute. run. rewrite Hnone. cbn. by rewrite Hanswer.
  - reflexivity.
Qed.

(** X3.  A failed execution is not stored.  When the service answers with
    a message, or not at all, [rows] yields nothing and raises (a
    [RuntimeError] for a message), the request is in the log, and the query
    object is as before: the next call of [rows] sends the query again. *)
Theorem rows_failed_execution_not_stored (q : Query)
    (select select' : option (list (string * string) → bool)) (w : world) :
  _result q = None →
  (svc_query (calls w) (_query q) = None
   ∨ ∃ message, svc_query (calls w) (_query q) = Some (QueryMessage message)) →
  let w' := {| next_oid := next_oid w;
               calls := calls w ++ [RunQuery (_query q)] |} in
  rows select (q, w)
  = ({| yielded := [];
        raised := Some (match svc_query (calls w) (_query q) with
                        | None => ServiceError
                        | Some _ => RuntimeError
                        end) |}, (q, w'))
  ∧ calls (rows select' (q, w')).2.2
    = calls w ++ [RunQuery (_query q); RunQuery (_query q)].
Proof.
  intros Hnone Hanswer w'. split.
  - unfold rows, _execute. run. rewrite Hnone. cbn.
    by destruct Hanswer as [-> | [message ->]].
  - unfold rows, _execute. run. rewrite Hnone. cbn.
    destruct (svc_query (calls w ++ [RunQuery (_query q)]) (_query q))
      as [[message|r]|]; cbn; by rewrite <- app_assoc.
Qed.

(** X4.  [rows] is lazy about malformed rows.  When well-formed rows
    precede a row in which the first cell without value stands within the
    header's length (or just behind it), the rows before it that [select]
    keeps are yielded, and then the iteration ends with a [RuntimeError],
    whatever follows. *)
Theorem rows_yield_until_missing_value (q : Query) (header : list string)
    (good rest : list row_json) (before after : list cell_json)
    (cell : cell_json)
    (select : option (list (string * string) → bool)) (w : world) :
  _result q
  = Some {| res_header := header;
            res_rows := good
                        ++ {| row_cells := before ++ cell :: after |} :: rest |} →
  NoDup header → Forall (row_ok header) good →
  Forall (λ c, is_Some (cell_value c)) before → cell_value cell = None →
  (length before ≤ length header)%nat →
  rows select (q, w)
  = ({| yielded := List.filter (selected select) (map (row_map_of header) good);
        raised := Some RuntimeError |}, (q, w)).
Proof.
  intros Hres Hnd Hgood Hbefore Hcell Hlen.
  rewrite (rows_stored q _ select w Hres). cbn [res_header res_rows].
  rewrite iterate_rows_ok by done. cbn [iterate_rows row_cells].
  rewrite fill_row_map_missing_value by (done || (cbn; lia)).
  cbn. by rewrite app_nil_r.
Qed.

End query_more.

Lemma rows_well_formed_witness :
  rows (svc := sample_service) None (states_query, world0)
  = ({| yielded := [[("state", "geoId/06"); ("name", "California")];
                    [("state", "geoId/48"); ("name", "Texas")]];
        raised := None |}, (states_query, world0)).
Proof.
  apply (rows_well_formed (svc := sample_service) states_query states_result
           None world0).
  - reflexivity.
  - compute_done.
  - repeat constructor; cbn; eauto.
Defined.

Lemma rows_executes_once_witness :
  rows (svc := archive_service) None (fresh_query, world0)
  = ({| yielded := [[("state", "geoId/06"); ("name", "California")];
                    [("state", "geoId/48"); ("name", "Texas")]];
        raised := None |},
     (states_query, {| next_oid := 0;
                       calls := [RunQuery "SELECT ?state ?name"] |}))
  ∧ rows (svc := archive_service) (Some (λ _, false))
         (states_query, {| next_oid := 0;
                           calls := [RunQuery "SELECT ?state ?name"] |})
    = ({| yielded := []; raised := None |},
       (states_query, {| next_oid := 0;
                         calls := [RunQuery "SELECT ?state ?name"] |})).
Proof.
  apply (rows_executes_once (svc := archive_service) fresh_query states_result
           None (Some (λ _, false)) world0); reflexivity.
Defined.

Lemma rows_failed_execution_not_stored_witness :
  rows (svc := archive_service) None (broken_query, world0)
  = ({| yielded := []; raised := Some RuntimeError |},
     (broken_query, {| next_oid := 0; calls := [RunQuery "SELECT"] |}))
  ∧ calls (rows (svc := archive_service) None
             (broken_query,
              {| next_oid := 0; calls := [RunQuery "SELECT"] |})).2.2
    = [RunQuery "SELECT"; RunQuery "SELECT"].
Proof.
  apply (rows_failed_execution_not_stored (svc := archive_service)
           broken_query None None world0);
    [reflexivity | right; by eexists].
Defined.

Lemma rows_yield_until_missing_value_witness :
  rows (svc := sample_service) None (gapped_query, world0)
  = ({| yielded := [[("state", "geoId/06"); ("name", "California")]];
        raised := Some RuntimeError |}, (gapped_query, world0)).
Proof.
  apply (rows_yield_until_missing_value (svc := sample_service) gapped_query
           ["state"; "name"]
           [{| row_cells := [valued "geoId/06"; valued "California"] |}] []
           [valued "geoId/48"] [] {| cell_value := None |} None world0).
  - reflexivity.
  - compute_done.
  - repeat constructor; cbn; eauto.
  - repeat constructor; cbn; eauto.
  - reflexivity.
  - cbn. lia.
Defined.

(* ===================================================================== *)
(** ** Node: construction, triples and the caches                        *)
(* ===================================================================== *)

Section node_more.
Context {rt : PyRuntime} {svc : GraphService}.

(** X7.  Which constructions are refused.  The constructor raises
    [ValueError] exactly when [node] is given and is not a node, or [node]
    is not given and, after [id] has stood in for a missing [dcid], neither
    or both of [dcid] and [value] are given; nothing is requested and
    nothing is allocated then.  In particular [id] together with [value]
    is refused. *)
Theorem Node_init_refused (kw : kwargs) (w : world) :
  ((Node_init kw w).1 = Raise ValueError
   ↔ kw_node kw = Some ArgOther
     ∨ (kw_node kw = None
        ∧ ((dcid_or_id kw = None ∧ kw_value kw = None)
           ∨ (is_Some (dcid_or_id kw) ∧ is_Some (kw_value kw)))))
  ∧ ((Node_init kw w).1 = Raise ValueError → (Node_init kw w).2 = w).
Proof.
  unfold Node_init, is_Some.
  destruct (kw_node kw) as [[n|]|]; run; [naive_solver | naive_solver |].
  destruct (dcid_or_id kw) as [d|], (kw_value kw) as [v|]; run;
    [naive_solver | | naive_solver | naive_solver].
  destruct (kw_name kw), (kw_types kw); run;
    try destruct (svc_get_node (calls w) d); run; naive_solver.
Qed.

(** X8.  What the constructor asks the service.  A construction sends at
    most one request: the one for the node's name and types, when the node
    is built from an identifier and the name or the types are not given.
    Building a leaf, copying a node and a refused construction send
    nothing. *)
Theorem Node_init_requests (kw : kwargs) (w : world) :
  calls (Node_init kw w).2
  = calls w ++ match metadata_asked kw with
               | Some d => [GetNode d]
               | None => []
               end.
Proof.
  unfold Node_init, metadata_asked.
  destruct (kw_node kw) as [[n|]|]; run; try by rewrite app_nil_r.
  destruct (dcid_or_id kw) as [d|], (kw_value kw) as [v|]; run;
    try by rewrite app_nil_r.
  destruct (kw_name kw), (kw_types kw); run; try by rewrite app_nil_r.
  all: by destruct (svc_get_node (calls w) d).
Qed.

(** X9.  Given name and types win over the service's.  For a node built
    from an identifier, a name or types passed to the constructor are the
    node's; the answer of the service is used only for the one that is not
    passed, a key missing from the answer leaving the name unset and the
    types empty. *)
Theorem Node_init_metadata (kw : kwargs) (d : string) (w : world) (n : Node)
    (w' : world) :
  kw_node kw = None → dcid_or_id kw = Some d → kw_value kw = None →
  Node_init kw w = (Ok n, w') →
  _name n = match kw_name kw with
            | Some nm => Some nm
            | None => svc_get_node (calls w) d ≫= info_name
            end
  ∧ _types n = match kw_types kw with
               | Some ts => ts
               | None => default [] (svc_get_node (calls w) d ≫= info_types)
               end.
Proof.
  intros Hn Hd Hv. unfold Node_init. rewrite Hn, Hd, Hv.
  destruct (kw_name kw) as [nm|], (kw_types kw) as [ts|]; run;
    try (intros [= <- <-]; done);
    destruct (svc_get_node (calls w) d) as [info|]; run;
    intros [= <- <-]; done.
Qed.

Lemma relocate_same_fields (base : nat) (x : Node) :
  same_fields x (relocate base x).
Proof. by destruct x. Qed.

Lemma relocate_oid (base : nat) (x : Node) :
  _oid (relocate base x) = base + _oid x.
Proof. by destruct x. Qed.

(** X10.  The copy constructor.  [Node(node=n)] sends no request and
    returns a new object with the identifier, name, value and types of
    [n], hence with its hash, and equal to whatever [n] is equal to.  Its
    caches have the keys of those of [n]; under each key the list has the
    same length and holds, position by position, objects that did not
    exist before, with the fields of the nodes of [n]. *)
Theorem Node_init_copy (kw : kwargs) (n : Node) (w : world) :
  kw_node kw = Some (ArgNode n) →
  ∃ c w',
    Node_init kw w = (Ok c, w') ∧ calls w' = calls w
    ∧ _oid c = next_oid w ∧ same_fields n c
    ∧ Node_hash c = Node_hash n
    ∧ (∀ x, Node_eq c x = Node_eq n x)
    ∧ ∀ p,
        option_Forall2
          (Forall2 (λ x y, same_fields x y ∧ next_oid w < _oid y))
          (_in_props n !! p) (_in_props c !! p)
        ∧ option_Forall2
            (Forall2 (λ x y, same_fields x y ∧ next_oid w < _oid y))
            (_out_props n !! p) (_out_props c !! p).
Proof.
  intros Hn. unfold Node_init. rewrite Hn. run.
  eexists _, _. split; [done|]. cbn.
  split_and!; [done | done | done | done | done |].
  assert (∀ (base : nat) (cache : gmap string (list Node)) (p : string),
             next_oid w < base →
             option_Forall2
               (Forall2 (λ x y, same_fields x y ∧ next_oid w < _oid y))
               (cache !! p) ((map (relocate base) <$> cache) !! p)) as Hcopy.
  { intros base cache p Hbase. rewrite lookup_fmap.
    destruct (cache !! p) as [l|]; constructor.
    induction l as [|x l IH]; constructor; [|done].
    split; [apply relocate_same_fields | rewrite relocate_oid; lia]. }
  intros p. split; apply Hcopy; lia.
Qed.

Lemma for_each_inv {S A B} (f : A → M S B) (P : S → Prop) (Q : B → Prop)
    (xs : list A) (s : S) :
  (∀ x s, P s → P (f x s).2 ∧ ∀ y, (f x s).1 = Ok y → Q y) →
  P s →
  P (for_each f xs s).2 ∧ ∀ ys, (for_each f xs s).1 = Ok ys → Forall Q ys.
Proof.
  intros Hf. revert s. induction xs as [|x xs IH]; intros s Hs; simpl.
  - split; [done|]. intros ys [= <-]. constructor.
  - run. destruct (Hf x s Hs) as [Hs1 Hy].
    destruct (f x s) as [[y|e] s1]; cbn in *; [|done].
    destruct (IH s1 Hs1) as [Hs2 Hys].
    destruct (for_each f xs s1) as [[ys|e] s2]; cbn in *; [|done].
    split; [done|]. intros ? [= <-]. constructor; [by apply Hy | by apply Hys].
Qed.

Lemma triple_of_raw (self : Node) (t : triple_json) (w : world) :
  (triple_of self false t w).2 = w
  ∧ ∀ ts, (triple_of self false t w).1 = Ok ts → Forall text_triple ts.
Proof.
  unfold triple_of.
  destruct (t_objectId t), (t_objectValue t), (t_subjectId t),
    (t_predicate t); run; (split; [done|]); intros ts [= <-];
    repeat constructor.
Qed.

(** X12.  [get_triples] without [as_node].  The call sends exactly one
    request, builds no node and leaves the node and its caches as they
    were, whether it returns or raises; the triples it returns have
    strings at both ends; a payload without [triples] gives the empty
    list. *)
Theorem get_triples_raw (reload : bool) (limit : Z) (self : Node)
    (w : world) :
  let run := get_triples false reload limit (self, w) in
  run.2 = (self, {| next_oid := next_oid w;
                    calls := calls w ++ [GetTriple (_dcid self) limit reload] |})
  ∧ (∀ triples, run.1 = Ok triples → Forall text_triple triples)
  ∧ (svc_get_triple (calls w) (_dcid self) limit reload = Some None →
     run.1 = Ok []).
Proof.
  cbn zeta. unfold get_triples. run.
  destruct (svc_get_triple (calls w) (_dcid self) limit reload)
    as [[ts|]|]; cycle 1.
  - split_and!; [done | by intros ? [= <-] | done].
  - split_and!; [done | done | done].
  - set (w1 := {| next_oid := next_oid w;
                  calls := calls w ++ [GetTriple (_dcid self) limit reload] |}).
    destruct (for_each_inv (triple_of self false) (λ s, s = w1)
                (Forall text_triple) ts w1) as [Hw Hts]; [|done|].
    { intros t s ->. destruct (triple_of_raw self t w1) as [Hs Hq].
      split; [done|]. intros y Hy. by apply Hq. }
    destruct (for_each (triple_of self false) ts w1) as [[added|e] w2];
      cbn in *; subst w2; (split_and!; [done | | done]).
    + intros ? [= <-]. specialize (Hts added eq_refl).
      clear -Hts. induction Hts as [|x l Hx _ IH]; cbn; [constructor|].
      by apply Forall_app.
    + done.
Qed.

(** X13.  [get_triples] keeps what is cached.  With any flags, and whether
    it returns or raises, the call leaves the identifier, name, value and
    types of the node as they were, and every node of a cached list is
    found ([in]) in the list cached under the same property afterwards. *)
Theorem get_triples_keeps_cached (as_node reload : bool) (limit : Z)
    (self : Node) (w : world) :
  let self' := (get_triples as_node reload limit (self, w)).2.1 in
  same_fields self self'
  ∧ ∀ p l x, x ∈ l →
      (_in_props self !! p = Some l →
       ∃ l', _in_props self' !! p = Some l' ∧ py_in x l' = true)
      ∧ (_out_props self !! p = Some l →
         ∃ l', _out_props self' !! p = Some l' ∧ py_in x l' = true).
Proof.
  cbn zeta. pose proof (get_triples_self as_node reload limit self w) as Hself.
  cbn zeta in Hself. split.
  - by destruct Hself as [-> | (? & ? & ->)].
  - intros p l x Hx.
    destruct (callers_keep_cached self _ p l x Hself) as [Hin Hout].
    split; intros Hl; [by apply Hin | by apply Hout].
Qed.

Lemma bind_Ok {S A B} (m : M S A) (k : A → M S B) (s s' : S) (y : B) :
  (x ← m; k x) s = (Ok y, s') →
  ∃ x s1, m s = (Ok x, s1) ∧ k x s1 = (Ok y, s').
Proof.
  unfold mbind, M_bind, bind. destruct (m s) as [[x|e] s1]; [eauto | done].
Qed.

Lemma fst_Ok {S A} (m : M S A) (s : S) (y : A) :
  (m s).1 = Ok y → ∃ s', m s = (Ok y, s').
Proof. destruct (m s) as [r s']. cbn. intros ->. eauto. Qed.

Lemma item_Ok {S A} (o : option A) (s s' : S) (a : A) :
  item o s = (Ok a, s') → o = Some a ∧ s' = s.
Proof. destruct o; run; naive_solver. Qed.

Lemma Node_init_copy_of (self c : Node) (w w' : world) :
  Node_init (copy_of self) w = (Ok c, w') → same_fields self c.
Proof. unfold Node_init. cbn. run. by intros [= <- _]. Qed.

Lemma Node_init_one_kind (kw : kwargs) (w w' : world) (n : Node) :
  Node_init kw w = (Ok n, w') →
  (∀ m, kw_node kw = Some (ArgNode m) → one_kind m) → one_kind n.
Proof.
  unfold Node_init, one_kind.
  destruct (kw_node kw) as [[m|]|]; run.
  - intros [= <- _] Hm. exact (Hm m eq_refl).
  - done.
  - destruct (dcid_or_id kw) as [d|], (kw_value kw) as [v|]; run; try done.
    + destruct (kw_name kw), (kw_types kw); run;
        try destruct (svc_get_node (calls w) d); run;
        try done; intros [= <- _] _; by right.
    + intros [= <- _] _. by left.
Qed.

(** X11.  Equal nodes hash alike.  A node the constructor builds has an
    identifier or a value, never both (a copy when the original is such);
    and two such nodes that are [==] have the same hash, as the sets the
    caches go through need. *)
Theorem equal_nodes_hash_alike :
  (∀ kw w n w', Node_init kw w = (Ok n, w') →
     (∀ m, kw_node kw = Some (ArgNode m) → one_kind m) → one_kind n)
  ∧ (∀ a b, one_kind a → one_kind b →
       Node_eq a b = true → Node_hash a = Node_hash b).
Proof.
  split; [intros kw w n w'; apply Node_init_one_kind|].
  intros a b Ha Hb. unfold Node_eq, Node_hash, hash_key, is_leaf.
  intros [[Hta Htb]%andb_true_iff Heq%bool_decide_eq_true]%andb_true_iff.
  destruct Ha as [Ha|Ha]; [by rewrite Ha in Hta|].
  destruct Hb as [Hb|Hb]; [by rewrite Hb in Htb|].
  by rewrite Ha, Hb, Heq.
Qed.

Lemma triple_of_about_self (self : Node) (t : triple_json) (w : world) :
  truthy_opt (_dcid self) = true →
  ∀ ts, (triple_of self true t w).1 = Ok ts → Forall (about_self self) ts.
Proof.
  intros Hd ts. unfold triple_of.
  assert (∀ c w1 w2, Node_init (copy_of self) w1 = (Ok c, w2) →
                     Node_eq c self = true) as Hcopy.
  { intros c w1 w2 (Hc & _)%Node_init_copy_of. unfold Node_eq.
    rewrite <- Hc, Hd. cbn. by apply bool_decide_eq_true. }
  destruct (t_subjectId t) as [sid|], (t_objectId t) as [oid|].
  - case_bool_decide as Hout.
    + intros (w' & Hrun)%fst_Ok.
      apply bind_Ok in Hrun as (tys & w1 & _ & Hrun).
      apply bind_Ok in Hrun as (sub & w2 & Hsub & Hrun).
      apply bind_Ok in Hrun as (obj & w3 & _ & Hrun).
      apply bind_Ok in Hrun as (p & w4 & _ & [= <- _]).
      constructor; [|constructor]. left. by eapply Hcopy.
    + intros (w' & Hrun)%fst_Ok.
      apply bind_Ok in Hrun as (tys & w1 & _ & Hrun).
      apply bind_Ok in Hrun as (sub & w2 & _ & Hrun).
      apply bind_Ok in Hrun as (obj & w3 & Hobj & Hrun).
      apply bind_Ok in Hrun as (p & w4 & _ & [= <- _]).
      constructor; [|constructor]. right. by eapply Node_init_copy_of.
  - destruct (t_objectValue t).
    + intros (w' & Hrun)%fst_Ok.
      apply bind_Ok in Hrun as (sub & w2 & Hsub & Hrun).
      apply bind_Ok in Hrun as (obj & w3 & _ & Hrun).
      apply bind_Ok in Hrun as (p & w4 & _ & [= <- _]).
      constructor; [|constructor]. left. by eapply Hcopy.
    + intros [= <-]. constructor.
  - destruct (t_objectValue t).
    + intros (w' & Hrun)%fst_Ok.
      apply bind_Ok in Hrun as (sub & w2 & Hsub & Hrun).
      apply bind_Ok in Hrun as (obj & w3 & _ & Hrun).
      apply bind_Ok in Hrun as (p & w4 & _ & [= <- _]).
      constructor; [|constructor]. left. by eapply Hcopy.
    + intros [= <-]. constructor.
  - destruct (t_objectValue t).
    + intros (w' & Hrun)%fst_Ok.
      apply bind_Ok in Hrun as (sub & w2 & Hsub & Hrun).
      apply bind_Ok in Hrun as (obj & w3 & _ & Hrun).
      apply bind_Ok in Hrun as (p & w4 & _ & [= <- _]).
      constructor; [|constructor]. left. by eapply Hcopy.
    + intros [= <-]. constructor.
Qed.

Lemma od_set_from {V} (k : string) (v : V) (d : list (string * V))
    (kv : string * V) :
  kv ∈ od_set k v d → kv = (k, v) ∨ kv ∈ d.
Proof.
  induction d as [|[k' v'] d IH]; simpl.
  - intros ->%list_elem_of_singleton. by left.
  - destruct (String.eqb k' k).
    + intros [->|?]%elem_of_cons; [by left | right; by right].
    + intros [->|Hkv]%elem_of_cons; [right; by left|].
      destruct (IH Hkv) as [?|?]; [by left | right; by right].
Qed.

Lemma assoc_get_elem {V} (k : string) (d : list (string * V)) (v : V) :
  assoc_get k d = Some v → (k, v) ∈ d.
Proof.
  unfold assoc_get. destruct (List.find _ d) as [[k' v']|] eqn:Hfind; [|done].
  intros [= <-]. apply find_some in Hfind as [Hin Hk].
  apply String.eqb_eq in Hk. cbn in Hk. subst k'. by apply list_elem_of_In.
Qed.

Lemma props_add_from (P : Node → Prop) (p : string) (o : Node)
    (props : list (string * list Node)) :
  P o → Forall (λ pv, Forall P pv.2) props →
  Forall (λ pv, Forall P pv.2) (props_add p o props).
Proof.
  intros Ho Hprops. apply Forall_forall. intros pv Hpv.
  apply od_set_from in Hpv as [->|Hpv];
    [|by eapply (proj1 (Forall_forall _ _) Hprops)].
  cbn. apply Forall_forall. intros z [Hz| ->]%node_set_add_from; [|done].
  destruct (assoc_get p props) as [vals|] eqn:Hget;
    [|by apply elem_of_nil in Hz].
  apply assoc_get_elem in Hget.
  apply (proj1 (Forall_forall _ _) Hprops) in Hget.
  by eapply (proj1 (Forall_forall _ _) Hget).
Qed.

Lemma triple_props_incoming (self : Node)
    (triples : list (endpoint * string * endpoint)) :
  Forall (about_self self) triples →
  Forall (λ pv, Forall (same_fields self) pv.2) (triple_props self triples).1.
Proof.
  intros Htriples. unfold triple_props.
  assert (∀ acc : list (string * list Node) * list (string * list Node),
            Forall (λ pv, Forall (same_fields self) pv.2) acc.1 →
            Forall (λ pv, Forall (same_fields self) pv.2)
              (foldl (λ acc t,
                        match t with
                        | (AsNode s, p, AsNode o) =>
                            if Node_eq s self then (acc.1, props_add p o acc.2)
                            else (props_add p o acc.1, acc.2)
                        | _ => acc
                        end) acc triples).1) as Hfold.
  { induction Htriples as [|[[s p] o] triples Ht _ IH]; intros acc Hacc;
      [done|].
    cbn [foldl]. apply IH. destruct s as [s|s], o as [o|o]; try done.
    cbn in Ht. destruct (Node_eq s self) eqn:Heq; [done|].
    destruct Ht as [?|Ho]; [done|]. by apply props_add_from. }
  specialize (Hfold ([], []) (Forall_nil_2 _)).
  destruct (foldl _ _ triples) as [in_props out_props]. cbn in *.
  apply Forall_fmap. eapply Forall_impl; [exact Hfold|].
  intros [q vals] Hvals. cbn in *. by rewrite (set_order_perm _ vals).
Qed.

(** X14.  What [get_triples] caches for incoming triples.  For a node
    with a non-empty identifier, every node that [get_triples] with
    [as_node] adds to the cache of incoming properties has the identifier,
    name, value and types of the node itself: for a triple whose subject
    is another node the loop caches the object, which is the copy of the
    node, and not the subject. *)
Theorem get_triples_incoming_cache (reload : bool) (limit : Z)
    (self : Node) (w : world) (p : string) (z : Node) :
  truthy_opt (_dcid self) = true →
  let self' := (get_triples true reload limit (self, w)).2.1 in
  z ∈ default [] (_in_props self' !! p) →
  z ∈ default [] (_in_props self !! p) ∨ same_fields self z.
Proof.
  intros Hd. cbn zeta. unfold get_triples. run.
  destruct (svc_get_triple _ _ _ _) as [[ts|]|]; [|by left | by left].
  set (w1 := {| next_oid := _; calls := _ |}).
  destruct (for_each_inv (triple_of self true) (λ _, True)
              (Forall (about_self self)) ts w1) as [_ Hts]; [|done|].
  { intros t s _. split; [done|]. by apply triple_of_about_self. }
  destruct (for_each (triple_of self true) ts w1) as [[added|e] w2];
    cbn in *; [|by left].
  pose proof (triple_props_incoming self (concat added)) as Hin.
  destruct (triple_props self (concat added)) as [in_props out_props].
  cbn in *. intros Hz.
  destruct (update_cache (_in_props self) in_props !! p) as [l'|] eqn:Hl';
    [|by apply elem_of_nil in Hz].
  destruct (update_cache_from in_props (_in_props self) p l' z Hl' Hz)
    as [Hold | (vals & Hvals & Hzv)]; [by left | right].
  assert (Forall (about_self self) (concat added)) as Habout.
  { specialize (Hts added eq_refl). clear -Hts.
    induction Hts as [|x l Hx _ IH]; cbn; [constructor | by apply Forall_app]. }
  specialize (Hin Habout).
  apply (proj1 (Forall_forall _ _) Hin) in Hvals. cbn in Hvals.
  by apply (proj1 (Forall_forall _ _) Hvals).
Qed.

End node_more.

Lemma Node_init_metadata_witness :
  _name {| _oid := 0; _dcid := Some "geoId/06"; _name := Some "California";
           _value := None; _types := ["Thing"]; _in_props := ∅;
           _out_props := ∅ |} = Some "California"
  ∧ _types {| _oid := 0; _dcid := Some "geoId/06"; _name := Some "California";
              _value := None; _types := ["Thing"]; _in_props := ∅;
              _out_props := ∅ |} = ["Thing"].
Proof.
  apply (Node_init_metadata (svc := sample_service)
           {| kw_node := None; kw_id := None; kw_dcid := Some "geoId/06";
              kw_value := None; kw_name := Some "California";
              kw_types := None |}
           "geoId/06" world0 _
           {| next_oid := 1; calls := [GetNode "geoId/06"] |});
    reflexivity.
Defined.

Lemma Node_init_copy_witness :
  ∃ c w',
    Node_init (svc := sample_service) (copy_of california_cached) world3
    = (Ok c, w')
    ∧ calls w' = [] ∧ _oid c = 3 ∧ _dcid c = Some "geoId/06"
    ∧ Node_hash (rt := sample_runtime) c
      = Node_hash (rt := sample_runtime) california_cached.
Proof.
  destruct (Node_init_copy (rt := sample_runtime) (svc := sample_service)
              (copy_of california_cached) california_cached world3 eq_refl)
    as (c & w' & Hrun & Hcalls & Hoid & (Hdcid & _) & Hhash & _).
  exists c, w'. split_and!; [exact Hrun | exact Hcalls | exact Hoid | | exact Hhash].
  by rewrite <- Hdcid.
Defined.

Lemma get_triples_incoming_cache_witness :
  let self' := (get_triples (rt := sample_runtime) (svc := archive_service)
                  true false 100 (california, world1)).2.1 in
  ∃ z, _in_props self' !! "containedInPlace" = Some [z]
       ∧ _dcid z = Some "geoId/06" ∧ _name z = Some "California".
Proof.
  cbn zeta. eexists. split; [reflexivity|].
  destruct (get_triples_incoming_cache (rt := sample_runtime)
              (svc := archive_service) false 100 california world1
              "containedInPlace"
              {| _oid := 2; _dcid := Some "geoId/06";
                 _name := Some "California"; _value := None;
                 _types := ["State"]; _in_props := ∅; _out_props := ∅ |}
              eq_refl) as [Hold | (Hdcid & Hname & _)].
  - by left.
  - by apply elem_of_nil in Hold.
  - split; [exact (eq_sym Hdcid) | exact (eq_sym Hname)].
Defined.

(* ===================================================================== *)
(** ** Frame: types, rename, add_column and merge                        *)
(* ===================================================================== *)

Section frame_more.
Context {rt : PyRuntime} {svc : GraphService}.

(** *** [_update_col_types] *)

Lemma update_col_types_lookup (new : gmap string (list label)) (self : Frame)
    (col : string) :
  match new !! col, _col_types self !! col with
  | None, old => _col_types (_update_col_types new self).2 !! col = old
  | Some n, None => _col_types (_update_col_types new self).2 !! col = Some n
  | Some n, Some o =>
      ∃ l, _col_types (_update_col_types new self).2 !! col = Some l
           ∧ l ≡ₚ remove_dups (n ++ o)
  end.
Proof.
  unfold _update_col_types. cbn [snd _col_types].
  apply (map_fold_weak_ind (λ r m,
    match m !! col, _col_types self !! col with
    | None, old => r !! col = old
    | Some n, None => r !! col = Some n
    | Some n, Some o => ∃ l, r !! col = Some l ∧ l ≡ₚ remove_dups (n ++ o)
    end)).
  - rewrite lookup_empty. by destruct (_col_types self !! col).
  - intros i x m r Hi IH. destruct (decide (i = col)) as [->|Hne].
    + rewrite lookup_insert_eq. rewrite Hi in IH.
      destruct (_col_types self !! col) as [o|] eqn:Ho; rewrite IH.
      * eexists. rewrite lookup_insert_eq. split; [done|].
        apply set_order_perm.
      * by rewrite lookup_insert_eq.
    + rewrite lookup_insert_ne by done.
      assert (∀ v, (match r !! i with
                    | Some old => <[i:=set_order (remove_dups (x ++ old))]> r
                    | None => <[i:=x]> r
                    end) !! col = v ↔ r !! col = v) as Hsame.
      { intros v. destruct (r !! i); by rewrite lookup_insert_ne. }
      destruct (m !! col) as [n|], (_col_types self !! col) as [o|];
        try by apply Hsame.
      destruct IH as (l' & Hl & Hp). exists l'.
      split; [by apply Hsame | done].
Qed.

Lemma Frame_ext (a b : Frame) :
  _dataframe a = _dataframe b → _col_types a = _col_types b → a = b.
Proof. destruct a, b. cbn. by intros -> ->. Qed.

Lemma update_col_types_run (new : gmap string (list label)) (self : Frame) :
  _update_col_types new self = (Ok tt, (_update_col_types new self).2).
Proof. done. Qed.

Lemma update_col_types_empty (new : gmap string (list label)) (self : Frame) :
  _col_types self = ∅ → _col_types (_update_col_types new self).2 = new.
Proof.
  intros Hempty. apply map_eq. intros col.
  pose proof (update_col_types_lookup new self col) as H.
  rewrite Hempty, lookup_empty in H. by destruct (new !! col).
Qed.

(** X20.  [_update_col_types] only adds.  The table is untouched.  For
    every column name, the labels listed afterwards are exactly those
    listed before together with those of the update; a name has an entry
    afterwards exactly when it had one or the update has one; and the list
    of a name that had an entry and is updated holds no label twice. *)
Theorem update_col_types_grows (new : gmap string (list label))
    (self : Frame) (col : string) :
  let self' := (_update_col_types new self).2 in
  _dataframe self' = _dataframe self
  ∧ (∀ t, t ∈ default [] (_col_types self' !! col)
          ↔ t ∈ default [] (_col_types self !! col)
            ∨ t ∈ default [] (new !! col))
  ∧ (is_Some (_col_types self' !! col)
     ↔ is_Some (_col_types self !! col) ∨ is_Some (new !! col))
  ∧ (is_Some (_col_types self !! col) → is_Some (new !! col) →
     NoDup (default [] (_col_types self' !! col))).
Proof.
  cbn zeta. split; [done|].
  pose proof (update_col_types_lookup new self col) as H.
  destruct (new !! col) as [n|] eqn:Hn,
           (_col_types self !! col) as [o|] eqn:Ho.
  - destruct H as (l & -> & Hp). cbn. split_and!.
    + intros t. rewrite Hp, elem_of_remove_dups, elem_of_app. tauto.
    + split; eauto.
    + intros _ _. rewrite Hp. apply NoDup_remove_dups.
  - rewrite H. cbn. split_and!.
    + intros t. rewrite elem_of_nil. tauto.
    + split; eauto.
    + by intros [? [=]].
  - rewrite H. cbn. split_and!.
    + intros t. rewrite elem_of_nil. tauto.
    + split; eauto.
    + by intros _ [? [=]].
  - rewrite H. cbn. split_and!.
    + intros t. rewrite elem_of_nil. tauto.
    + split; [by intros [? [=]] | by intros [[? [=]] | [? [=]]]].
    + by intros [? [=]].
Qed.

(** *** [types] *)

(** X15.  [types] after the constructor.  For a frame the constructor
    built (without [process]), [types] returns the entry of the type hint
    for every column, and raises [ValueError] for every other name, also
    for one the type hint has an entry for. *)
Theorem types_after_init (data : frame_data)
    (type_hint : gmap string (list label)) (self : Frame) (col : string) :
  Frame_init data type_hint None = Ok self →
  (col ∈ columns self →
   ∃ ts, type_hint !! col = Some ts ∧ types col self = Ok ts)
  ∧ (col ∉ columns self → types col self = Raise ValueError).
Proof.
  unfold Frame_init. destruct (pd_DataFrame data) as [table|e]; [|done]. run.
  destruct (forallb _ _) eqn:Hall; [|done]. intros [= <-].
  unfold types, columns, col_types_at, reset_index. cbn. split; intros Hcol.
  - rewrite bool_decide_eq_true_2 by done.
    rewrite forallb_forall in Hall.
    assert (In col (df_columns table)) as Hin by by apply list_elem_of_In.
    apply Hall, bool_decide_eq_true in Hin as [ts Hts].
    exists ts. by rewrite Hts.
  - by rewrite bool_decide_eq_false_2.
Qed.

(** *** [rename] *)

Lemma rename_fold_raise (labels : gmap string string) (self : Frame)
    (e : exn) (cols : list string) :
  foldl (λ (acc : result (gmap string (list label))) col,
           col_types ← acc;
           ts ← col_types_at col self;
           Ok (<[default col (labels !! col) := ts]> col_types))
        (Raise e) cols = Raise e.
Proof. by induction cols. Qed.

Lemma rename_fold_ok (labels : gmap string string) (self : Frame)
    (cols : list string) (acc : gmap string (list label)) :
  Forall (λ c, is_Some (_col_types self !! c)) cols →
  ∃ m,
    foldl (λ (acc : result (gmap string (list label))) col,
             col_types ← acc;
             ts ← col_types_at col self;
             Ok (<[default col (labels !! col) := ts]> col_types))
          (Ok acc) cols = Ok m
    ∧ (∀ k, k ∉ renamed labels <$> cols → m !! k = acc !! k)
    ∧ (∀ k, k ∈ renamed labels <$> cols → is_Some (m !! k))
    ∧ (NoDup (renamed labels <$> cols) →
       ∀ c, c ∈ cols → m !! renamed labels c = _col_types self !! c).
Proof.
  revert acc. induction cols as [|c cols IH]; intros acc Htyped.
  - exists acc. split_and!; [done | done | by intros k ?%elem_of_nil |].
    by intros _ c ?%elem_of_nil.
  - apply Forall_cons in Htyped as [[ts Hts] Htyped].
    destruct (IH (<[renamed labels c := ts]> acc) Htyped)
      as (m & Hfold & Hout & Hin & Hinj).
    exists m. split_and!.
    + cbn [foldl]. run. unfold col_types_at at 2. rewrite Hts. exact Hfold.
    + intros k Hk. rewrite fmap_cons in Hk.
      apply not_elem_of_cons in Hk as [Hne Hk].
      rewrite Hout by done. by rewrite lookup_insert_ne.
    + intros k Hk. rewrite fmap_cons in Hk.
      destruct (decide (k ∈ renamed labels <$> cols)) as [Hk'|Hk'];
        [by apply Hin|].
      apply elem_of_cons in Hk as [->|Hk]; [|done].
      rewrite Hout by done. rewrite lookup_insert_eq. eauto.
    + rewrite fmap_cons. intros [Hfresh Hnd]%NoDup_cons c' Hc'.
      apply elem_of_cons in Hc' as [->|Hc']; [|by apply Hinj].
      rewrite Hout by done. by rewrite lookup_insert_eq.
Qed.

Lemma rename_fold_untyped (labels : gmap string string) (self : Frame)
    (cols : list string) (acc : gmap string (list label)) :
  Exists (λ c, _col_types self !! c = None) cols →
  foldl (λ (acc : result (gmap string (list label))) col,
           col_types ← acc;
           ts ← col_types_at col self;
           Ok (<[default col (labels !! col) := ts]> col_types))
        (Ok acc) cols = Raise KeyError.
Proof.
  revert acc. induction cols as [|c cols IH]; intros acc Hex;
    [by apply Exists_nil in Hex|].
  cbn [foldl]. run. unfold col_types_at at 2.
  destruct (_col_types self !! c) as [ts|] eqn:Hts.
  - apply Exists_cons in Hex as [Hc|Hex]; [congruence|]. by apply IH.
  - apply rename_fold_raise.
Qed.

(** X16.  [rename] on a frame whose columns all have types.  The call
    returns; each column gets its new name (its own when [labels] does not
    name it) and the cells stay; afterwards the type map has an entry for
    exactly the column names, so what it held for other names is dropped;
    and when no two columns end up with the same name, each column keeps
    its types under its new name. *)
Theorem rename_typed (labels : gmap string string) (self : Frame) :
  all_typed self →
  ∃ self',
    rename labels self = (Ok tt, self')
    ∧ columns self' = renamed labels <$> columns self
    ∧ df_rows (_dataframe self') = df_rows (_dataframe self)
    ∧ (∀ k, is_Some (_col_types self' !! k) ↔ k ∈ columns self')
    ∧ (NoDup (columns self') →
       ∀ c, c ∈ columns self →
            _col_types self' !! renamed labels c = _col_types self !! c).
Proof.
  intros Htyped.
  destruct (rename_fold_ok labels self (columns self) ∅ Htyped)
    as (m & Hfold & Hout & Hin & Hinj).
  unfold rename. unfold columns in Hfold. rewrite Hfold.
  eexists. split; [done|]. unfold columns. cbn. split_and!; [done | done | |].
  - intros k. split; [|by apply Hin].
    intros Hk. destruct (decide (k ∈ renamed labels <$> df_columns (_dataframe self)))
      as [|Hno]; [done|].
    rewrite (Hout k Hno), lookup_empty in Hk. by destruct Hk.
  - exact Hinj.
Qed.

(** X17.  [rename] on a frame with a column that has no type.  The call
    raises [KeyError] and the frame is as it was. *)
Theorem rename_untyped (labels : gmap string string) (self : Frame)
    (c : string) :
  c ∈ columns self → _col_types self !! c = None →
  rename labels self = (Raise KeyError, self).
Proof.
  intros Hc Hnone. unfold rename.
  rewrite (rename_fold_untyped labels self (df_columns (_dataframe self)) ∅);
    [done|].
  apply Exists_exists. by exists c.
Qed.

(** *** Cells of a row *)

Lemma index_of_elem (c : string) (cols : list string) :
  c ∈ cols → ∃ i, index_of c cols = Some i ∧ (i < length cols)%nat.
Proof.
  induction cols as [|c' cols IH]; [by intros ?%elem_of_nil|].
  intros Hc. cbn. destruct (String.eqb_spec c' c) as [->|Hne].
  - exists 0%nat. split; [done | lia].
  - apply elem_of_cons in Hc as [->|Hc]; [done|].
    destruct (IH Hc) as (i & -> & Hi). exists (S i). split; [done | lia].
Qed.

Lemma index_of_app_l (c : string) (cols more : list string) :
  c ∈ cols → index_of c (cols ++ more) = index_of c cols.
Proof.
  induction cols as [|c' cols IH]; [by intros ?%elem_of_nil|].
  intros Hc. cbn. destruct (String.eqb_spec c' c) as [->|Hne]; [done|].
  apply elem_of_cons in Hc as [->|Hc]; [done|]. by rewrite IH.
Qed.

Lemma row_get_app_l (c : string) (cols more : list string)
    (row ext : list value) :
  c ∈ cols → length row = length cols →
  row_get (cols ++ more) c (row ++ ext) = row_get cols c row.
Proof.
  intros Hc Hlen. unfold row_get. rewrite index_of_app_l by done.
  destruct (index_of_elem c cols Hc) as (i & -> & Hi). cbn.
  apply lookup_app_l. lia.
Qed.

Lemma own_cells (cols : list string) (row : list value) :
  NoDup cols → length row = length cols →
  map (λ c, default VNaN (row_get cols c row)) cols = row.
Proof.
  intros Hnd. revert row.
  induction Hnd as [|c cols Hc Hnd IH]; intros [|v row] Hlen; try done.
  cbn [map]. f_equal.
  - unfold row_get. cbn. by rewrite String.eqb_refl.
  - etrans; [|apply (IH row); cbn in Hlen; lia].
    apply map_ext_in. intros c' Hc'%list_elem_of_In.
    unfold row_get. cbn. destruct (String.eqb_spec c c') as [->|_]; [done|].
    by destruct (index_of c' cols).
Qed.

Lemma df_set_column_fresh (k : string) (vals : list value) (df : DataFrame) :
  k ∉ df_columns df → length vals = length (df_rows df) →
  df_set_column k vals df
  = Ok {| df_columns := df_columns df ++ [k];
          df_rows := zip_with (λ row v, row ++ [v]) (df_rows df) vals |}.
Proof.
  intros Hk Hlen. unfold df_set_column, df_contains.
  rewrite !bool_decide_eq_false_2 by done.
  destruct (df_rows df) as [|row rows] eqn:Hrows.
  - destruct vals; [done | discriminate Hlen].
  - by rewrite Hlen, Nat.eqb_refl.
Qed.

Lemma new_column_cells (k : string) (cols : list string)
    (rows : list (list value)) (vals : list value) :
  k ∉ cols → Forall (λ row, length row = length cols) rows →
  length vals = length rows →
  map (λ row, default VNaN (row_get (cols ++ [k]) k row))
      (zip_with (λ row v, row ++ [v]) rows vals) = vals.
Proof.
  intros Hk Hwf. revert vals.
  induction Hwf as [|row rows Hrow _ IH]; intros [|v vals] Hlen; try done.
  cbn. rewrite row_get_fresh by done. cbn. f_equal. apply IH.
  cbn in Hlen. lia.
Qed.

Lemma old_column_cells (k c : string) (cols : list string)
    (rows : list (list value)) (vals : list value) :
  c ∈ cols → Forall (λ row, length row = length cols) rows →
  length vals = length rows →
  map (λ row, default VNaN (row_get (cols ++ [k]) c row))
      (zip_with (λ row v, row ++ [v]) rows vals)
  = map (λ row, default VNaN (row_get cols c row)) rows.
Proof.
  intros Hc Hwf. revert vals.
  induction Hwf as [|row rows Hrow _ IH]; intros [|v vals] Hlen; try done.
  cbn. rewrite row_get_app_l by done. f_equal. apply IH.
  cbn in Hlen. lia.
Qed.

(** *** [add_column] *)

(** X18.  [add_column] with a new name and one value per row, none of
    them missing.  For a frame whose rows have one cell per column and
    whose column names are distinct, and a list of strings and numbers
    (no [None], no NaN: the values the table stores as they are passed),
    the call returns; the column is appended; reading it back gives the
    values passed and [types] gives the one type passed; every other
    column keeps its cells and its types. *)
Theorem add_column_appends (col_name col_type : string)
    (col_vals : list value) (self : Frame) :
  df_wf (_dataframe self) → NoDup (columns self) →
  col_name ∉ columns self → no_missing col_vals →
  length col_vals = length (df_rows (_dataframe self)) →
  ∃ self',
    add_column col_name col_type col_vals self = (Ok tt, self')
    ∧ columns self' = columns self ++ [col_name]
    ∧ df_column col_name (_dataframe self') = Ok col_vals
    ∧ types col_name self' = Ok [Some col_type]
    ∧ ∀ c, c ∈ columns self →
           df_column c (_dataframe self') = df_column c (_dataframe self)
           ∧ types c self' = types c self.
Proof.
  intros Hwf _ Hk _ Hlen.
  unfold add_column, _verify_col_add, df_contains. run.
  rewrite bool_decide_eq_false_2 by done.
  rewrite df_set_column_fresh by done. cbn.
  eexists. split; [done|]. unfold columns, types, columns, df_column,
    df_contains, col_types_at in *.
  cbn [_dataframe _col_types df_columns df_rows].
  assert (col_name ∈ df_columns (_dataframe self) ++ [col_name]) as Hin
    by (apply elem_of_app; right; by left).
  split_and!; [done | | |].
  - rewrite bool_decide_eq_true_2 by done. by rewrite new_column_cells.
  - rewrite bool_decide_eq_true_2 by done. by rewrite lookup_insert_eq.
  - intros c Hc.
    assert (c ∈ df_columns (_dataframe self) ++ [col_name]) as Hc'
      by (apply elem_of_app; by left).
    assert (col_name ≠ c) as Hne by congruence.
    rewrite !bool_decide_eq_true_2 by done.
    rewrite old_column_cells by done. by rewrite lookup_insert_ne.
Qed.

(** X19.  [add_column] with the wrong number of values.  For a frame with
    rows and a new column name, a list that has not one value per row
    makes the call raise [ValueError]; the table is as it was, but the
    type of the refused column has been recorded. *)
Theorem add_column_length_mismatch (col_name col_type : string)
    (col_vals : list value) (self : Frame) :
  col_name ∉ columns self → df_rows (_dataframe self) ≠ [] →
  length col_vals ≠ length (df_rows (_dataframe self)) →
  ∃ self',
    add_column col_name col_type col_vals self = (Raise ValueError, self')
    ∧ _dataframe self' = _dataframe self
    ∧ _col_types self' !! col_name = Some [Some col_type]
    ∧ types col_name self' = Raise ValueError.
Proof.
  intros Hk Hrows Hlen. unfold add_column, _verify_col_add, df_contains. run.
  rewrite bool_decide_eq_false_2 by done.
  unfold df_set_column.
  destruct (df_rows (_dataframe self)) as [|row rows] eqn:Hr; [done|].
  apply Nat.eqb_neq in Hlen. rewrite Hlen. cbn.
  eexists. split; [done|]. cbn. split_and!; [done | |].
  - by rewrite lookup_insert_eq.
  - unfold types, columns. cbn. by rewrite bool_decide_eq_false_2.
Qed.

(** *** [merge] *)

Lemma differ_as_sets_spec (a b : list label) :
  differ_as_sets a b = false ↔ ∀ t, t ∈ a ↔ t ∈ b.
Proof.
  unfold differ_as_sets. rewrite negb_false_iff, andb_true_iff.
  rewrite !forallb_forall. split.
  - intros [Hab Hba] t. split; intros Ht%list_elem_of_In.
    + by apply Hab, bool_decide_eq_true in Ht.
    + by apply Hba, bool_decide_eq_true in Ht.
  - intros Hiff. split; intros t Ht%list_elem_of_In;
      apply bool_decide_eq_true; by apply Hiff.
Qed.

Lemma check_merge_types_mismatch (merge_on : list string) (self frame : Frame)
    (c : string) (a b : list label) :
  Forall (λ c, is_Some (_col_types self !! c)
               ∧ is_Some (_col_types frame !! c)) merge_on →
  c ∈ merge_on → _col_types self !! c = Some a →
  _col_types frame !! c = Some b → differ_as_sets a b = true →
  check_merge_types merge_on self frame = Raise ValueError.
Proof.
  intros Htyped Hc Ha Hb Hdiff.
  induction Htyped as [|c' l [[a' Ha'] [b' Hb']] _ IH];
    [by apply elem_of_nil in Hc|].
  cbn. unfold col_types_at. rewrite Ha', Hb'. cbn.
  destruct (differ_as_sets a' b') eqn:Hd; [done|].
  apply elem_of_cons in Hc as [->|Hc]; [congruence | by apply IH].
Qed.

Lemma check_merge_types_agree (merge_on : list string) (self frame : Frame) :
  Forall (λ c, ∃ a b, _col_types self !! c = Some a
                      ∧ _col_types frame !! c = Some b
                      ∧ differ_as_sets a b = false) merge_on →
  check_merge_types merge_on self frame = Ok tt.
Proof.
  induction 1 as [|c l (a & b & Ha & Hb & Hd) _ IH]; [done|].
  cbn. unfold col_types_at. rewrite Ha, Hb. cbn. by rewrite Hd.
Qed.

Lemma str_set_inter_elem (s t : list string) (c : string) :
  c ∈ str_set_inter s t ↔ c ∈ s ∧ c ∈ t.
Proof.
  unfold str_set_inter. rewrite (set_order_perm _ _).
  rewrite list_elem_of_In, filter_In, <- list_elem_of_In.
  by rewrite bool_decide_eq_true, elem_of_remove_dups.
Qed.

(** X21.  [merge] refuses columns whose types differ.  When the frame
    has data and a column it shares with the other frame has, as sets,
    other types there, the call raises [ValueError] and the frame is as
    it was (the shared columns are taken to have types on both sides). *)
Theorem merge_type_mismatch (frame : Frame) (how : join_kind)
    (default : value) (self : Frame) (c : string) (a b : list label) :
  df_empty (_dataframe self) = false →
  (∀ c', c' ∈ columns self → c' ∈ columns frame →
         is_Some (_col_types self !! c') ∧ is_Some (_col_types frame !! c')) →
  c ∈ columns self → c ∈ columns frame →
  _col_types self !! c = Some a → _col_types frame !! c = Some b →
  ¬ (∀ t, t ∈ a ↔ t ∈ b) →
  merge frame how default self = (Raise ValueError, self).
Proof.
  intros Hdata Htyped Hc Hc' Ha Hb Hdiff. unfold merge. run.
  rewrite Hdata.
  assert (c ∈ str_set_inter (columns self) (columns frame)) as Hon
    by by apply str_set_inter_elem.
  destruct (str_set_inter (columns self) (columns frame)) as [|c0 on] eqn:Hinter;
    [by apply elem_of_nil in Hon|].
  cbn [length Nat.eqb].
  rewrite (check_merge_types_mismatch (c0 :: on) self frame c a b);
    [done | | done | done | done |].
  - apply Forall_forall. intros c1 Hc1. rewrite <- Hinter in Hc1.
    apply str_set_inter_elem in Hc1 as [? ?]. by apply Htyped.
  - destruct (differ_as_sets a b) eqn:Hd; [done|].
    exfalso. apply Hdiff. by apply differ_as_sets_spec.
Qed.

Lemma pd_concat_columns (a b : DataFrame) :
  df_columns (pd_concat a b)
  = df_columns a
    ++ List.filter (λ c, negb (df_contains c a)) (df_columns b).
Proof. done. Qed.


(** X23.  [clear], then [merge].  Merging a frame into a cleared frame
    makes it that frame: the same table and the same types (for a frame
    whose rows have one cell per column and whose column names are
    distinct). *)
Theorem clear_then_merge (frame : Frame) (how : join_kind) (default : value)
    (self : Frame) :
  df_wf (_dataframe frame) → NoDup (columns frame) →
  (clear;; merge frame how default) self = (Ok tt, frame).
Proof.
  intros Hwf Hnd. unfold clear, merge. run.
  unfold set_col_types, set_dataframe. cbn -[_update_col_types pd_concat].
  rewrite update_col_types_run. f_equal.
  apply Frame_ext; [|by apply update_col_types_empty].
  cbn -[pd_concat].
  destruct frame as [[cols rows] tys]. unfold columns, df_wf in *. cbn in *.
  unfold pd_concat, df_contains. cbn.
  rewrite filter_all by (intros c _; by rewrite bool_decide_eq_false_2
                                        by apply not_elem_of_nil).
  f_equal. rewrite <- (map_id rows) at 2. apply map_ext_Forall.
  eapply Forall_impl; [exact Hwf|]. intros row Hrow. cbn in Hrow.
  by apply own_cells.
Qed.

Lemma merge_types (frame : Frame) (how : join_kind) (default : value)
    (self merged : Frame) :
  df_empty (_dataframe self) = false →
  merge frame how default self = (Ok tt, merged) →
  _col_types merged
  = _col_types (_update_col_types (_col_types frame) self).2.
Proof.
  intros Hdata. unfold merge. run. rewrite Hdata.
  destruct (Nat.eqb _ 0).
  - destruct (df_merge_common _ _) as [m|]; cbn; [|done].
    destruct (df_drop _ m) as [d|]; cbn; [|done]. by intros [= <-].
  - destruct (check_merge_types _ self frame) as [[]|]; cbn; [|done].
    by intros [= <-].
Qed.

(** X24.  [merge] of frames that share no column.  When the frame has
    data, the two frames share no column name and the name glued from all
    column names is none of them, the call returns the cross join: the
    columns of the frame, then those of the other one, and each row of
    the frame paired with each row of the other one, in order.  The
    labels listed for a column name afterwards are those listed before
    together with those the other frame lists. *)
Theorem merge_disjoint_frames (frame : Frame) (how : join_kind)
    (fill : value) (self : Frame) :
  df_wf (_dataframe self) → df_wf (_dataframe frame) →
  df_empty (_dataframe self) = false →
  (∀ c, c ∈ columns self → c ∉ columns frame) →
  str_join (columns self ++ columns frame) ∉ columns self ++ columns frame →
  ∃ merged,
    merge frame how fill self = (Ok tt, merged)
    ∧ columns merged = columns self ++ columns frame
    ∧ df_rows (_dataframe merged)
      = flat_map (λ l, map (λ r, l ++ r) (df_rows (_dataframe frame)))
                 (df_rows (_dataframe self))
    ∧ ∀ c t, t ∈ default [] (_col_types merged !! c)
             ↔ t ∈ default [] (_col_types self !! c)
               ∨ t ∈ default [] (_col_types frame !! c).
Proof.
  intros Hwf Hwf' Hdata Hdisj Hkey.
  destruct (merge_cross_join self frame how fill Hwf Hwf' Hdata Hdisj Hkey)
    as (merged & Hrun & Hdf & _).
  exists merged. unfold columns at 1. rewrite Hdf. split_and!; try done.
  intros c t. rewrite (merge_types _ _ _ _ _ Hdata Hrun).
  pose proof (update_col_types_lookup (_col_types frame) self c) as H.
  destruct (_col_types frame !! c) as [n|], (_col_types self !! c) as [o|].
  - destruct H as (l & -> & Hp). cbn.
    rewrite Hp, elem_of_remove_dups, elem_of_app. tauto.
  - rewrite H. cbn. rewrite elem_of_nil. tauto.
  - rewrite H. cbn. rewrite elem_of_nil. tauto.
  - rewrite H. cbn. rewrite elem_of_nil. tauto.
Qed.

End frame_more.

Lemma types_after_init_witness :
  types "a" letters_frame = Ok (typed "Letter")
  ∧ types "b" letters_frame = Raise ValueError.
Proof.
  assert (Frame_init (ColData [("a", [VStr "x"; VStr "y"])])
            (_col_types letters_frame) None = Ok letters_frame) as Hinit
    by reflexivity.
  destruct (types_after_init _ _ letters_frame "a" Hinit) as [Hcol _].
  destruct (types_after_init _ _ letters_frame "b" Hinit) as [_ Hother].
  split; [|apply Hother; compute_done].
  destruct Hcol as (ts & Hts & ->); [compute_done|].
  f_equal. by injection Hts.
Defined.

Lemma rename_typed_witness :
  ∃ self',
    rename {["a" := "letter"]} letters_frame = (Ok tt, self')
    ∧ columns self' = ["letter"]
    ∧ _col_types self' !! "letter" = Some (typed "Letter")
    ∧ _col_types self' !! "a" = None.
Proof.
  destruct (rename_typed {["a" := "letter"]} letters_frame)
    as (self' & Hrun & Hcols & _ & Hdom & Htypes).
  { repeat constructor. by eexists. }
  exists self'. split_and!; [exact Hrun | exact Hcols | |].
  - apply (Htypes ltac:(rewrite Hcols; compute_done) "a"). compute_done.
  - apply eq_None_not_Some. rewrite Hdom, Hcols. compute_done.
Defined.

Lemma rename_untyped_witness :
  rename {["a" := "letter"]} untyped_frame = (Raise KeyError, untyped_frame).
Proof.
  apply (rename_untyped {["a" := "letter"]} untyped_frame "a");
    [compute_done | reflexivity].
Defined.

Lemma add_column_appends_witness :
  ∃ self',
    add_column "n" "Number" [VInt 1; VInt 2] letters_frame = (Ok tt, self')
    ∧ columns self' = ["a"; "n"]
    ∧ df_column "n" (_dataframe self') = Ok [VInt 1; VInt 2]
    ∧ types "n" self' = Ok [Some "Number"]
    ∧ df_column "a" (_dataframe self') = Ok [VStr "x"; VStr "y"].
Proof.
  destruct (add_column_appends "n" "Number" [VInt 1; VInt 2] letters_frame)
    as (self' & Hrun & Hcols & Hnew & Htype & Hold).
  { repeat constructor. }
  { compute_done. }
  { compute_done. }
  { repeat constructor; discriminate. }
  { reflexivity. }
  exists self'. split_and!; try done.
  destruct (Hold "a") as [-> _]; [compute_done | reflexivity].
Defined.

Lemma add_column_length_mismatch_witness :
  ∃ self',
    add_column "n" "Number" [VInt 1] letters_frame = (Raise ValueError, self')
    ∧ _dataframe self' = _dataframe letters_frame
    ∧ _col_types self' !! "n" = Some [Some "Number"]
    ∧ types "n" self' = Raise ValueError.
Proof.
  apply (add_column_length_mismatch "n" "Number" [VInt 1] letters_frame);
    [compute_done | done | cbn; lia].
Defined.

Lemma merge_type_mismatch_witness :
  merge (rt := sample_runtime) texts_frame JLeft (VStr "") letters_frame
  = (Raise ValueError, letters_frame).
Proof.
  apply (merge_type_mismatch (rt := sample_runtime) texts_frame JLeft
           (VStr "") letters_frame "a" (typed "Letter") (typed "Text")).
  - reflexivity.
  - intros c Hc _. apply list_elem_of_singleton in Hc as ->.
    split; by eexists.
  - compute_done.
  - compute_done.
  - reflexivity.
  - reflexivity.
  - intros Hsame. destruct (Hsame (Some "Letter")) as [Hin _].
    specialize (Hin ltac:(by left)).
    by apply list_elem_of_singleton in Hin.
Defined.


Lemma clear_then_merge_witness :
  (clear;; merge (rt := sample_runtime) letters_frame JLeft (VStr ""))
    states_frame
  = (Ok tt, letters_frame).
Proof.
  apply (clear_then_merge (rt := sample_runtime) letters_frame JLeft (VStr "")
           states_frame); [repeat constructor | compute_done].
Defined.

Lemma merge_disjoint_frames_witness :
  ∃ merged,
    merge (rt := sample_runtime) numbers_frame JLeft (VStr "") letters_frame
    = (Ok tt, merged)
    ∧ columns merged = ["a"; "n"]
    ∧ df_rows (_dataframe merged)
      = [[VStr "x"; VInt 1]; [VStr "x"; VInt 2];
         [VStr "y"; VInt 1]; [VStr "y"; VInt 2]].
Proof.
  destruct (merge_disjoint_frames (rt := sample_runtime) numbers_frame JLeft
              (VStr "") letters_frame)
    as (merged & Hrun & Hcols & Hrows & _).
  { repeat constructor. }
  { repeat constructor. }
  { reflexivity. }
  { intros c ->%list_elem_of_singleton. compute_done. }
  { compute_done. }
  exists merged. split_and!; [exact Hrun | exact Hcols | exact Hrows].
Defined.

(* ===================================================================== *)
(** ** Frame: expand                                                     *)
(* ===================================================================== *)

Section table_facts.

(** *** Tables built from row dictionaries *)

Lemma row_keys_seen (cols : list string) (row : list (string * value)) :
  (∀ k, k ∈ row.*1 → k ∈ cols) → row_keys cols row = cols.
Proof.
  unfold row_keys. induction row as [|[k v] row IH]; intros Hseen; [done|].
  cbn [foldl fst]. rewrite bool_decide_eq_true_2 by (apply Hseen; by left).
  apply IH. intros k' Hk'. apply Hseen. by right.
Qed.

Lemma row_keys_fresh (cols : list string) (row : list (string * value)) :
  NoDup (cols ++ row.*1) → row_keys cols row = cols ++ row.*1.
Proof.
  unfold row_keys. revert cols.
  induction row as [|[k v] row IH]; intros cols Hnd; cbn [foldl fst].
  - by rewrite app_nil_r.
  - cbn in Hnd. apply NoDup_app in Hnd as (Hcols & Hdisj & Hrow).
    rewrite bool_decide_eq_false_2; cycle 1.
    { intros Hk. apply (Hdisj k Hk). by left. }
    rewrite IH, <- app_assoc; [done|].
    rewrite <- app_assoc. cbn. apply NoDup_app. split_and!; [done| |done].
    intros x Hx. by apply Hdisj.
Qed.

Lemma table_columns (header : list string)
    (rows : list (list (string * value))) :
  NoDup header → rows ≠ [] → Forall (λ row, row.*1 = header) rows →
  foldl row_keys [] rows = header.
Proof.
  intros Hnd Hne Hrows. destruct Hrows as [|row rows Hrow Hrows]; [done|].
  cbn [foldl]. rewrite row_keys_fresh by (cbn; by rewrite Hrow). cbn.
  rewrite Hrow. clear Hne Hrow.
  induction Hrows as [|row' rows Hrow' _ IH]; [done|].
  cbn [foldl]. rewrite row_keys_seen; [done|]. intros k. by rewrite Hrow'.
Qed.

Lemma assoc_get_head {V} (k : string) (v : V) (d : list (string * V)) :
  assoc_get k ((k, v) :: d) = Some v.
Proof. unfold assoc_get. cbn. by rewrite String.eqb_refl. Qed.

Lemma assoc_get_tail {V} (k k' : string) (v : V) (d : list (string * V)) :
  k' ≠ k → assoc_get k ((k', v) :: d) = assoc_get k d.
Proof.
  intros Hne. unfold assoc_get. cbn.
  by destruct (String.eqb_spec k' k).
Qed.

Lemma table_cells (row : list (string * value)) :
  NoDup row.*1 →
  map (λ c, default VNaN (assoc_get c row)) row.*1 = row.*2.
Proof.
  induction row as [|[k v] row IH]; [done|].
  rewrite !fmap_cons. cbn [map fst snd]. intros [Hk Hnd]%NoDup_cons.
  rewrite assoc_get_head. cbn [default]. f_equal.
  rewrite <- IH by done. apply map_ext_in. intros c Hc%list_elem_of_In.
  rewrite assoc_get_tail; [done|]. by intros ->.
Qed.

Lemma pd_DataFrame_rows (header : list string)
    (rows : list (list (string * value))) :
  NoDup header → rows ≠ [] → Forall (λ row, row.*1 = header) rows →
  pd_DataFrame (RowData rows)
  = Ok {| df_columns := header; df_rows := map (λ row, row.*2) rows |}.
Proof.
  intros Hnd Hne Hrows. unfold pd_DataFrame.
  rewrite (table_columns header) by done. do 2 f_equal.
  apply map_ext_Forall. eapply Forall_impl; [exact Hrows|].
  intros row Hrow. cbn in Hrow. rewrite <- Hrow. apply table_cells.
  by rewrite Hrow.
Qed.

Lemma filter_of_map {A B} (p : B → bool) (f : A → B) (l : list A) :
  List.filter p (map f l) = map f (List.filter (λ x, p (f x)) l).
Proof.
  induction l as [|x l IH]; [done|]. cbn. destruct (p (f x)); cbn;
    by rewrite IH.
Qed.

Lemma filter_ext_Forall {A} (p q : A → bool) (l : list A) :
  Forall (λ x, p x = q x) l → List.filter p l = List.filter q l.
Proof.
  induction 1 as [|x l Hx _ IH]; [done|]. cbn. by rewrite Hx, IH.
Qed.

(** The left join of a table with the table of new rows, on the seed
    column, missing cells blanked. *)
Lemma left_join_on_seed (seed new : string) (df : DataFrame)
    (new_rows : list (list (string * value))) :
  seed ∈ df_columns df → new ∉ df_columns df →
  Forall (λ row, ∃ s v, row = [(seed, VStr s); (new, VStr v)]) new_rows →
  df_fillna (VStr "")
    (df_merge JLeft [seed] df
       {| df_columns := [seed; new];
          df_rows := map (λ row, row.*2) new_rows |})
  = {| df_columns := df_columns df ++ [new];
       df_rows := flat_map (expanded_row (df_columns df) seed new new_rows)
                           (df_rows df) |}.
Proof.
  intros Hseed Hnew Hshape.
  assert (seed ≠ new) as Hne by congruence.
  assert (bool_decide (seed ∈ [seed]) = true) as Hin
    by (apply bool_decide_eq_true; by left).
  assert (bool_decide (new ∈ [seed]) = false) as Hout.
  { apply bool_decide_eq_false. by intros ->%list_elem_of_singleton. }
  unfold df_fillna, df_merge. cbn [df_columns df_rows].
  cbn [List.filter]. rewrite Hin, Hout. cbn [negb]. f_equal.
  rewrite map_of_flat_map. apply flat_map_ext_Forall, Forall_forall.
  intros l _. unfold expanded_row. rewrite filter_of_map.
  rewrite (filter_ext_Forall _
             (λ row, bool_decide (row_get (df_columns df) seed l
                                  = assoc_get seed row)) new_rows); cycle 1.
  { eapply Forall_impl; [exact Hshape|]. intros row (s & v & ->).
    cbn [map]. unfold row_get at 2, assoc_get. cbn.
    rewrite String.eqb_refl. cbn.
    destruct (row_get (df_columns df) seed l) as [x|];
      apply bool_decide_ext; naive_solver. }
  assert (Forall (λ row, ∃ s v, row = [(seed, VStr s); (new, VStr v)])
            (List.filter (λ row, bool_decide (row_get (df_columns df) seed l
                                              = assoc_get seed row))
                         new_rows)) as Hfound.
  { apply Forall_forall. intros row Hrow%list_elem_of_In.
    apply filter_In in Hrow as [Hrow%list_elem_of_In _].
    by apply (proj1 (Forall_forall _ _) Hshape). }
  destruct (List.filter _ new_rows) as [|row found].
  - cbn. unfold blank_missing. by rewrite map_app.
  - assert (∀ r, (∃ s v, r = [(seed, VStr s); (new, VStr v)]) →
              map (λ x, match x with VNaN | VNone => VStr "" | _ => x end)
                  (l ++ keep_where (λ c, negb (bool_decide (c ∈ [seed])))
                                   [seed; new] r.*2)
              = blank_missing l ++ [default VNaN (assoc_get new r)]) as Hcell.
    { intros r (s & v & ->). unfold keep_where. cbn.
      rewrite Hin, Hout. cbn. unfold blank_missing, assoc_get.
      rewrite map_app. cbn.
      destruct (String.eqb_spec seed new) as [?|_]; [done|].
      by rewrite String.eqb_refl. }
    apply Forall_cons in Hfound as [Hrow Hfound].
    cbn [map]. f_equal; [by apply Hcell|]. rewrite !map_map.
    apply map_ext_Forall. eapply Forall_impl; [exact Hfound|].
    intros r Hr. by apply Hcell.
Qed.

Lemma NoDup_List_filter {A} (p : A → bool) (l : list A) :
  NoDup l → NoDup (List.filter p l).
Proof.
  induction 1 as [|x l Hx _ IH]; cbn; [constructor|].
  destruct (p x); [|done]. constructor; [|done].
  intros Hin%list_elem_of_In. apply filter_In in Hin as [Hin%list_elem_of_In _].
  done.
Qed.

Lemma NoDup_all_equal {A} (l : list A) (a : A) :
  NoDup l → a ∈ l → (∀ x, x ∈ l → x = a) → l = [a].
Proof.
  intros Hnd Ha Hall. destruct l as [|x l]; [by apply elem_of_nil in Ha|].
  rewrite (Hall x) by by left. f_equal.
  destruct l as [|y l]; [done|]. exfalso.
  apply NoDup_cons in Hnd as [Hx _]. apply Hx.
  rewrite (Hall x) by by left. rewrite <- (Hall y) by (right; by left).
  by left.
Qed.

End table_facts.

Section expand_facts.
Context {rt : PyRuntime} {svc : GraphService}.

(** The checks that open [expand] pass, and the seed column is read. *)
Lemma expand_checked (property seed new : string) (new_col_type : option string)
    (outgoing reload : bool) (limit : Z) (self : Frame) (w : world)
    (ts : list label) (dcids : list value) :
  new ∉ columns self → _col_types self !! seed = Some ts →
  Some "Text" ∉ ts → df_column seed (_dataframe self) = Ok dcids →
  expand property seed new new_col_type outgoing reload limit (self, w)
  = match dcids with
    | [] =>
        (Ok tt,
         ({| _dataframe := df_assign new (VStr "") (_dataframe self);
             _col_types := <[new := [new_col_type]]> (_col_types self) |}, w))
    | _ =>
        let req := expand_request property dcids new_col_type outgoing reload
                                  limit in
        let w' := {| next_oid := next_oid w;
                     calls := calls w ++ [GetPropertyValue req] |} in
        match svc_get_property_value (calls w) req with
        | None => (Raise ServiceError, (self, w'))
        | Some payload =>
            let new_col_types : gmap string (list label) :=
              let base := {[ seed := ts ]} in
              if truthy_opt new_col_type
              then <[new := [new_col_type]]> base
              else if truthy new
                   then <[new := Some <$> str_set
                            (expand_payload property seed new payload).2]> base
                   else base in
            match Frame_init
                    (RowData (expand_payload property seed new payload).1)
                    new_col_types None with
            | Raise e => (Raise e, (self, w'))
            | Ok new_frame =>
                ((merge new_frame JLeft (VStr "") self).1,
                 ((merge new_frame JLeft (VStr "") self).2, w'))
            end
        end
    end.
Proof.
  intros Hnew Hts Htext Hcol.
  assert (seed ∈ columns self) as Hseed.
  { unfold df_column, df_contains in Hcol. by case_bool_decide. }
  unfold expand, _verify_col_add, _verify_col_type_excludes, any_type,
    col_types_at, df_contains. run.
  unfold columns in *.
  rewrite (bool_decide_eq_false_2 _ Hnew), (bool_decide_eq_true_2 _ Hseed).
  rewrite andb_false_r, Hts. cbn [negb].
  rewrite (bool_decide_eq_false_2 _ Htext), Hcol.
  destruct dcids as [|d dcids]; [done|].
  cbn zeta. unfold expand_request.
  destruct (svc_get_property_value _ _) as [payload|]; [|done].
  destruct (expand_payload property seed new payload) as [new_rows new_types].
  cbn [fst snd]. destruct (Frame_init _ _ None) as [new_frame|e]; [|done].
  by destruct (merge new_frame JLeft (VStr "") self).
Qed.




Lemma df_column_rows (c : string) (df : DataFrame) (cells : list value) :
  df_column c df = Ok cells → cells ≠ [] →
  c ∈ df_columns df ∧ df_empty df = false.
Proof.
  unfold df_column, df_contains, df_empty. case_bool_decide as Hc; [|done].
  intros [= <-] Hne. split; [done|].
  destruct (df_columns df); [by apply elem_of_nil in Hc|].
  by destruct (df_rows df).
Qed.


Lemma expand_payload_shape (property seed new : string)
    (payload : gpv_payload) :
  seed ≠ new →
  Forall (λ row, ∃ s v, row = [(seed, VStr s); (new, VStr v)])
         (expand_payload property seed new payload).1.
Proof.
  intros Hne. unfold expand_payload.
  assert (∀ x y, od_set new (VStr y) (od_set seed (VStr x) [])
                 = [(seed, VStr x); (new, VStr y)]) as Hrow.
  { intros x y. cbn. by destruct (String.eqb_spec seed new). }
  assert (∀ s nodes (acc : list (list (string * value)) * list string),
            Forall (λ row, ∃ s v, row = [(seed, VStr s); (new, VStr v)]) acc.1 →
            Forall (λ row, ∃ s v, row = [(seed, VStr s); (new, VStr v)])
                   (foldl (expand_entry seed new s) acc nodes).1) as Hinner.
  { intros s nodes. induction nodes as [|node nodes IH]; intros acc Hacc;
      [done|].
    cbn [foldl]. apply IH. unfold expand_entry. cbn [fst].
    destruct (e_value node) as [v|], (e_dcid node) as [d|]; try done;
      (apply Forall_app; split; [done|]); rewrite Hrow;
      repeat constructor; eauto. }
  cut (∀ acc : list (list (string * value)) * list string,
         Forall (λ row, ∃ s v, row = [(seed, VStr s); (new, VStr v)]) acc.1 →
         Forall (λ row, ∃ s v, row = [(seed, VStr s); (new, VStr v)])
           (foldl (λ acc seed_props,
                     match assoc_get property seed_props.2 with
                     | Some nodes =>
                         foldl (expand_entry seed new seed_props.1) acc nodes
                     | None => acc
                     end) acc payload).1).
  { intros Hall. apply Hall. constructor. }
  induction payload as [|[s props] payload IH]; intros acc Hacc; [done|].
  cbn [foldl snd fst]. apply IH.
  destruct (assoc_get property props); [by apply Hinner | done].
Qed.

Lemma str_set_inter_seed (cols : list string) (seed new : string) :
  seed ∈ cols → new ∉ cols → str_set_inter cols [seed; new] = [seed].
Proof.
  intros Hseed Hnew. apply NoDup_all_equal.
  - unfold str_set_inter. rewrite (set_order_perm _ _).
    apply NoDup_List_filter, NoDup_remove_dups.
  - apply str_set_inter_elem. split; [done | by left].
  - intros x [Hx Hx']%str_set_inter_elem.
    apply elem_of_cons in Hx' as [->|Hx']; [done|].
    apply list_elem_of_singleton in Hx' as ->. done.
Qed.

(** X28.  [expand] when the answer holds values.  For a frame whose rows
    have one cell per column and whose column names are distinct: when
    the checks pass, the seed column has cells, all of them strings, the
    values of the answer are ASCII text and the loop over the answer
    builds at least one new row, the call returns; the new column is appended; each row of the frame is
    replaced, in place, by one row for each new row with its seed cell
    ([expanded_row]), or by one row with an empty string in the new column
    when there is none, its missing cells (NaN and [None]) blanked; and
    for a column name without a type so far, the type recorded is
    [new_col_type] when it is given and non-empty, and the set of types
    met in the answer otherwise. *)
Theorem expand_adds_column (property seed new : string)
    (new_col_type : option string) (outgoing reload : bool) (limit : Z)
    (self : Frame) (w : world) (ts : list label) (dcids : list value)
    (payload : gpv_payload) :
  df_wf (_dataframe self) → NoDup (columns self) →
  new ∉ columns self → new ≠ "" →
  _col_types self !! seed = Some ts → Some "Text" ∉ ts →
  df_column seed (_dataframe self) = Ok dcids → dcids ≠ [] →
  all_strings dcids →
  svc_get_property_value (calls w)
    (expand_request property dcids new_col_type outgoing reload limit)
  = Some payload →
  ascii_values property payload →
  (expand_payload property seed new payload).1 ≠ [] →
  ∃ self' w',
    expand property seed new new_col_type outgoing reload limit (self, w)
    = (Ok tt, (self', w'))
    ∧ columns self' = columns self ++ [new]
    ∧ df_rows (_dataframe self')
      = flat_map (expanded_row (columns self) seed new
                    (expand_payload property seed new payload).1)
                 (df_rows (_dataframe self))
    ∧ (_col_types self !! new = None →
       _col_types self' !! new
       = Some (if truthy_opt new_col_type then [new_col_type]
               else Some <$> str_set
                      (expand_payload property seed new payload).2)).
Proof.
  intros _ _ Hnew Hname Hts Htext Hcol Hcells _ Hanswer _ Hrows.
  rewrite (expand_checked _ _ _ _ _ _ _ _ _ ts dcids) by done.
  destruct (df_column_rows _ _ _ Hcol Hcells) as [Hseed Hdata].
  assert (seed ≠ new) as Hne by (unfold columns in Hnew; congruence).
  destruct dcids as [|d dcids]; [done|]. cbn zeta. rewrite Hanswer.
  pose proof (expand_payload_shape property seed new payload Hne) as Hshape.
  destruct (expand_payload property seed new payload) as [new_rows new_types].
  cbn [fst snd] in *.
  set (tys := if truthy_opt new_col_type then _ else _).
  assert (tys !! seed = Some ts ∧
          tys !! new = Some (if truthy_opt new_col_type then [new_col_type]
                             else Some <$> str_set new_types))
    as [Htys_seed Htys_new].
  { subst tys. apply truthy_spec in Hname. rewrite Hname.
    destruct (truthy_opt new_col_type);
      by rewrite lookup_insert_eq, lookup_insert_ne, lookup_singleton_eq. }
  assert (Frame_init (RowData new_rows) tys None
          = Ok {| _dataframe :=
                    {| df_columns := [seed; new];
                       df_rows := map (λ row, row.*2) new_rows |};
                  _col_types := tys |}) as ->.
  { unfold Frame_init.
    rewrite (pd_DataFrame_rows [seed; new]); cycle 1.
    - apply NoDup_cons. split; [by intros ->%list_elem_of_singleton|].
      apply NoDup_singleton.
    - done.
    - eapply Forall_impl; [exact Hshape|]. by intros row (s & v & ->).
    - cbn. by rewrite Htys_seed, Htys_new. }
  unfold merge. run. rewrite Hdata.
  unfold columns in *. cbn [_dataframe df_columns].
  rewrite str_set_inter_seed by done. cbn [length Nat.eqb].
  cbn [check_merge_types]. unfold col_types_at. cbn [_col_types].
  rewrite Hts, Htys_seed. cbn.
  assert (differ_as_sets ts ts = false) as -> by by apply differ_as_sets_spec.
  unfold set_dataframe. cbn -[_update_col_types df_fillna df_merge].
  rewrite left_join_on_seed by done.
  eexists _, _. split; [done|]. cbn -[_update_col_types].
  split_and!; [done | done |].
  intros Hnone.
  pose proof (update_col_types_lookup tys
                {| _dataframe :=
                     {| df_columns := df_columns (_dataframe self) ++ [new];
                        df_rows := flat_map
                          (expanded_row (df_columns (_dataframe self)) seed
                                        new new_rows)
                          (df_rows (_dataframe self)) |};
                   _col_types := _col_types self |} new) as H.
  cbn [_col_types] in H. by rewrite Htys_new, Hnone in H.
Qed.

End expand_facts.




Lemma expand_adds_column_witness :
  ∃ self' w',
    expand (rt := sample_runtime) (svc := sample_service)
      "containedInPlace" "state" "place" None true false 100
      (two_states_frame, world0)
    = (Ok tt, (self', w'))
    ∧ columns self' = ["state"; "name"; "place"]
    ∧ df_rows (_dataframe self')
      = [[VStr "geoId/06"; VStr ""; VStr "country/USA"];
         [VStr "geoId/06"; VStr ""; VStr "northamerica"];
         [VStr "geoId/48"; VStr "Texas"; VStr ""]]
    ∧ _col_types self' !! "place" = Some [Some "Country"; Some "Continent"].
Proof.
  destruct (expand_adds_column (rt := sample_runtime) (svc := sample_service)
              "containedInPlace" "state" "place" None true false 100
              two_states_frame world0 (typed "State")
              [VStr "geoId/06"; VStr "geoId/48"]
              [("geoId/06", [("containedInPlace", [usa; north_america])])])
    as (self' & w' & Hrun & Hcols & Hrows & Htype).
  { repeat constructor. }
  { compute_done. }
  { compute_done. }
  { done. }
  { reflexivity. }
  { compute_done. }
  { reflexivity. }
  { done. }
  { repeat constructor; by eexists. }
  { reflexivity. }
  { repeat constructor; by intros v [=]. }
  { done. }
  exists self', w'. split_and!; [exact Hrun | exact Hcols | exact Hrows |].
  by apply Htype.
Defined.

(* ===================================================================== *)
(** ** Query: as_Frame                                                   *)
(* ===================================================================== *)

Section as_Frame_facts.
Context {rt : PyRuntime} {svc : GraphService}.

Lemma full_row_ok (header : list string) (row : row_json) :
  full_row header row → row_ok header row.
Proof. intros [Hlen Hall]. split; [lia | done]. Qed.

(** X6.  [as_Frame] when no row is kept.  For a well-formed stored
    result of which [select] keeps no row (or which has none), the call
    returns a frame without columns, rows and types, whatever the header,
    the type hint and the labels are. *)
Theorem as_Frame_without_rows (q : Query) (res : query_result)
    (type_hint : gmap string (list label))
    (select : option (list (string * string) → bool))
    (labels : gmap string string) (w : world) :
  _result q = Some res → NoDup (res_header res) →
  Forall (row_ok (res_header res)) (res_rows res) →
  List.filter (selected select)
    (map (row_map_of (res_header res)) (res_rows res)) = [] →
  as_Frame type_hint select None labels (q, w)
  = (Ok {| _dataframe := {| df_columns := []; df_rows := [] |};
           _col_types := ∅ |}, (q, w)).
Proof.
  intros Hres Hnd Hrows Hkept. unfold as_Frame.
  rewrite (rows_stored q res) by done.
  rewrite iterate_rows_all by done. by rewrite Hkept.
Qed.

Lemma row_map_keys (header : list string) (row : row_json) :
  full_row header row →
  (map (prod_map id VStr) (row_map_of header row)).*1 = header.
Proof.
  intros [Hlen Hall]. unfold row_map_of.
  rewrite <- list_fmap_compose.
  assert (length (omap cell_value (row_cells row)) = length header) as Hvals.
  { rewrite <- Hlen. clear Hlen.
    induction Hall as [|c cells [v Hv] _ IH]; [done|]. cbn. rewrite Hv. cbn.
    by rewrite IH. }
  apply (fst_zip header (omap cell_value (row_cells row))). lia.
Qed.

(** X5.  [as_Frame] on a well-formed stored result.  When the header
    names are distinct, every row has one valued cell for each of them,
    [select] keeps some row and the type hint has an entry for every
    header name, the call returns a frame whose columns are the header
    names under their labels and whose rows are the kept rows, cell by
    cell; no request is sent.  When no two columns end up with the same
    name, the types of each column are those the type hint gives for its
    header name. *)
Theorem as_Frame_well_formed (q : Query) (res : query_result)
    (type_hint : gmap string (list label))
    (select : option (list (string * string) → bool))
    (labels : gmap string string) (w : world) :
  _result q = Some res → NoDup (res_header res) →
  Forall (full_row (res_header res)) (res_rows res) →
  List.filter (selected select)
    (map (row_map_of (res_header res)) (res_rows res)) ≠ [] →
  (∀ c, c ∈ res_header res → is_Some (type_hint !! c)) →
  ∃ frame,
    as_Frame type_hint select None labels (q, w) = (Ok frame, (q, w))
    ∧ columns frame = renamed labels <$> res_header res
    ∧ df_rows (_dataframe frame)
      = map (λ row_map, VStr <$> row_map.*2)
            (List.filter (selected select)
               (map (row_map_of (res_header res)) (res_rows res)))
    ∧ (NoDup (columns frame) →
       ∀ c, c ∈ res_header res →
            _col_types frame !! renamed labels c = type_hint !! c).
Proof.
  intros Hres Hnd Hrows Hkept Hhint. unfold as_Frame.
  rewrite (rows_stored q res) by done.
  rewrite iterate_rows_all; [|done|]; cycle 1.
  { eapply Forall_impl; [exact Hrows|]. apply full_row_ok. }
  cbn [raised yielded].
  set (kept := List.filter _ _) in *.
  assert (Forall (λ row, row.*1 = res_header res)
            (map (map (prod_map id VStr)) kept)) as Hkeys.
  { apply Forall_forall. intros row Hrow%list_elem_of_In.
    apply in_map_iff in Hrow as (row_map & <- & Hin).
    apply filter_In in Hin as [Hin _].
    apply in_map_iff in Hin as (r & <- & Hr%list_elem_of_In).
    apply row_map_keys. by apply (proj1 (Forall_forall _ _) Hrows). }
  unfold Frame_init.
  rewrite (pd_DataFrame_rows (res_header res)); [|done| |done]; cycle 1.
  { by destruct kept. }
  cbn [mbind result_bind df_columns]. unfold reset_index.
  rewrite (proj2 (forallb_forall _ _)); cycle 1.
  { intros c Hc%list_elem_of_In. by apply bool_decide_eq_true, Hhint. }
  set (table := {| df_columns := res_header res; df_rows := _ |}).
  destruct (rename_fold_ok labels
              {| _dataframe := table; _col_types := type_hint |}
              (res_header res) ∅) as (m & Hfold & Hout & Hin & Hinj).
  { apply Forall_forall. intros c Hc. by apply Hhint. }
  unfold rename. cbn [_dataframe df_columns table]. rewrite Hfold.
  eexists. split; [done|]. unfold columns. cbn.
  split_and!; [done | | exact Hinj].
  rewrite map_map. apply map_ext. intros row_map.
  rewrite <- !list_fmap_compose. apply list_fmap_ext. by intros ? [k v].
Qed.

End as_Frame_facts.

Lemma as_Frame_without_rows_witness :
  as_Frame (rt := sample_runtime) (svc := sample_service)
    (_col_types states_frame) (Some (λ _, false)) None ∅
    (states_query, world0)
  = (Ok {| _dataframe := {| df_columns := []; df_rows := [] |};
           _col_types := ∅ |}, (states_query, world0)).
Proof.
  apply (as_Frame_without_rows (rt := sample_runtime) (svc := sample_service)
           states_query states_result).
  - reflexivity.
  - compute_done.
  - repeat constructor; cbn; eauto.
  - reflexivity.
Defined.

Lemma as_Frame_well_formed_witness :
  ∃ frame,
    as_Frame (rt := sample_runtime) (svc := sample_service)
      (_col_types states_frame) None None {["name" := "label"]}
      (states_query, world0)
    = (Ok frame, (states_query, world0))
    ∧ columns frame = ["state"; "label"]
    ∧ df_rows (_dataframe frame)
      = [[VStr "geoId/06"; VStr "California"]; [VStr "geoId/48"; VStr "Texas"]]
    ∧ _col_types frame !! "label" = Some (typed "Text").
Proof.
  destruct (as_Frame_well_formed (rt := sample_runtime)
              (svc := sample_service) states_query states_result
              (_col_types states_frame) None {["name" := "label"]} world0)
    as (frame & Hrun & Hcols & Hrows & Htypes).
  { reflexivity. }
  { compute_done. }
  { repeat constructor; cbn; eauto. }
  { done. }
  { intros c Hc. cbn in Hc.
    apply elem_of_cons in Hc as [->|Hc]; [by eexists|].
    apply list_elem_of_singleton in Hc as ->. by eexists. }
  exists frame. split_and!; [exact Hrun | exact Hcols | exact Hrows |].
  apply (Htypes ltac:(rewrite Hcols; compute_done) "name"). compute_done.
Defined.

(* ===================================================================== *)
(** ** Frame: pandas                                                     *)
(* ===================================================================== *)

Section pandas_more.
Context {rt : PyRuntime} {svc : GraphService}.

Lemma index_of_lookup (c : string) (cols : list string) (i : nat) :
  index_of c cols = Some i → cols !! i = Some c.
Proof.
  revert i. induction cols as [|c' cols IH]; intros i; [done|]. cbn.
  destruct (String.eqb_spec c' c) as [->|_]; [by intros [= <-]|].
  destruct (index_of c cols) as [j|]; [|done]. intros [= <-]. by apply IH.
Qed.

Lemma selected_cell (names : list string) (f : string → value) (c : string) :
  c ∈ names → row_get names c (map f names) = Some (f c).
Proof.
  intros Hc. unfold row_get.
  destruct (index_of_elem c names Hc) as (i & Hi & _). rewrite Hi. cbn.
  apply index_of_lookup in Hi.
  change (map f names) with (f <$> names). by rewrite list_lookup_fmap, Hi.
Qed.

Lemma df_select_all (df : DataFrame) :
  df_wf df → NoDup (df_columns df) → df_select (df_columns df) df = Ok df.
Proof.
  intros Hwf Hnd. unfold df_select, df_contains.
  rewrite (proj2 (forallb_forall _ _))
    by (intros c Hc%list_elem_of_In; by apply bool_decide_eq_true).
  destruct df as [cols rows]. cbn in *. do 2 f_equal.
  rewrite <- (map_id rows) at 2. apply map_ext_Forall.
  eapply Forall_impl; [exact Hwf|]. intros row Hrow. by apply own_cells.
Qed.

(** X29.  [pandas] without [ignore_populations].  For a frame whose rows
    have one cell per column and whose column names are distinct: with no
    [col_names], and also with the empty list, the call returns the whole
    table; with a non-empty list of column names it returns a table with
    those columns, in the order of the list, each with the cells it has
    in the frame and with as many rows; and a name in the list that is no
    column makes the call raise [KeyError]. *)
Theorem pandas_selects_columns (self : Frame) :
  df_wf (_dataframe self) → NoDup (columns self) →
  pandas None false self = Ok (_dataframe self)
  ∧ pandas (Some []) false self = Ok (_dataframe self)
  ∧ ∀ names, names ≠ [] →
      ((∀ c, c ∈ names → c ∈ columns self) →
       ∃ df, pandas (Some names) false self = Ok df
             ∧ df_columns df = names
             ∧ length (df_rows df) = length (df_rows (_dataframe self))
             ∧ ∀ c, c ∈ names →
                    df_column c df = df_column c (_dataframe self))
      ∧ (∀ c, c ∈ names → c ∉ columns self →
           pandas (Some names) false self = Raise KeyError).
Proof.
  intros Hwf Hnd. unfold pandas, columns in *. cbn [mbind result_bind].
  split_and!; [by apply df_select_all | by apply df_select_all |].
  intros [|name names] Hne; [done|]. clear Hne.
  set (chosen := name :: names). split.
  - intros Hcols. unfold df_select.
    rewrite (proj2 (forallb_forall _ _)); cycle 1.
    { intros c Hc%list_elem_of_In. by apply bool_decide_eq_true, Hcols. }
    eexists. split; [done|]. cbn [df_columns df_rows].
    split_and!; [done | by rewrite length_map |].
    intros c Hc. unfold df_column, df_contains. cbn [df_columns df_rows].
    rewrite !bool_decide_eq_true_2 by (done || by apply Hcols). f_equal.
    rewrite map_map. apply map_ext. intros row.
    by rewrite selected_cell.
  - intros c Hc Hno. unfold df_select.
    destruct (forallb _ chosen) eqn:Hall; [|done].
    rewrite forallb_forall in Hall.
    apply list_elem_of_In, Hall, bool_decide_eq_true in Hc. done.
Qed.

End pandas_more.

Lemma pandas_selects_columns_witness :
  pandas None false states_frame = Ok (_dataframe states_frame)
  ∧ pandas (Some []) false states_frame = Ok (_dataframe states_frame)
  ∧ (∃ df, pandas (Some ["name"]) false states_frame = Ok df
           ∧ df_columns df = ["name"]
           ∧ df_column "name" df = Ok [VStr "California"])
  ∧ pandas (Some ["name"; "country"]) false states_frame = Raise KeyError.
Proof.
  destruct (pandas_selects_columns states_frame) as (Hnone & Hnil & Hsome).
  { repeat constructor. }
  { compute_done. }
  split_and!; [exact Hnone | exact Hnil | |].
  - destruct (Hsome ["name"]) as [Hin _]; [done|].
    destruct Hin as (df & Hrun & Hcols & _ & Hcells).
    { intros c ->%list_elem_of_singleton. compute_done. }
    exists df. split_and!; [exact Hrun | exact Hcols |].
    rewrite Hcells by compute_done. reflexivity.
  - destruct (Hsome ["name"; "country"]) as [_ Hout]; [done|].
    apply (Hout "country"); compute_done.
Defined.
